(** * Theme injector and format fixer: a shallow embedding

    The repository holds two one-shot maintenance scripts that patch
    Thymeleaf templates in place:

    - [aplicar_tema_automatico.py] walks the template tree, keeps the HTML
      files that load Tailwind from its CDN, and splices two fixed theme
      fragments into each of them;
    - [arreglar_formato.py] walks the same tree and repairs the missing
      indentation between the inserted resource fragment and a following
      [<script] tag.

    Both scripts are models over the same three layers, embedded below in
    this order: text and substring tests ([Text]), the fragment of Python's
    [re] the scripts use ([Re]), and the file store with the console
    ([Os]).  Text is a Python [str]: a sequence of code points.  The store
    keeps the decoded characters of every file; reading translates the
    line endings as a text-mode [open] does. *)

From Stdlib Require Import NArith List Ascii String Lia Bool Permutation.
From stdpp Require Import base strings list gmap.

Local Open Scope nat_scope.

(* ===================================================================== *)
(** ** Text: Python [str] values                                          *)
(* ===================================================================== *)

Module Text.

(** A [str] is a sequence of Unicode code points. *)
Abbreviation text := (list N).

(** An ASCII literal of the source, as text. *)
Fixpoint lit (s : string) : text :=
  match s with
  | EmptyString => []
  | String a s' => N_of_ascii a :: lit s'
  end.

(** The characters the sources write with an escape. *)
Definition nl : text := [10%N].     (* '\n' *)
Definition cr : text := [13%N].     (* '\r' *)
Definition dq : text := [34%N].     (* the double quote *)

(** [str.isspace] on one code point: the class behind [\s] in a [str]
    pattern. *)
Definition is_space (c : N) : bool :=
  ((9 <=? c) && (c <=? 13) || (28 <=? c) && (c <=? 32)
   || (c =? 133) || (c =? 160) || (c =? 5760)
   || (8192 <=? c) && (c <=? 8202)
   || (c =? 8232) || (c =? 8233) || (c =? 8239) || (c =? 8287)
   || (c =? 12288))%N.

(** [s.startswith(p)]. *)
Fixpoint starts_with (p s : text) : bool :=
  match p, s with
  | [], _ => true
  | _ :: _, [] => false
  | a :: p', b :: s' => (a =? b)%N && starts_with p' s'
  end.

(** [p in s]: the substring test. *)
Fixpoint contains (p s : text) : bool :=
  starts_with p s ||
  match s with
  | [] => false
  | _ :: s' => contains p s'
  end.

(** Number of offsets of [s] at which [p] occurs. *)
Fixpoint occurrences (p s : text) : nat :=
  (if starts_with p s then 1 else 0) +
  match s with
  | [] => 0
  | _ :: s' => occurrences p s'
  end.

End Text.
Import Text.

(* ===================================================================== *)
(** ** Re: the fragment of Python's [re] the scripts use                  *)
(* ===================================================================== *)

Module Re.

(** The patterns of both scripts are sequences of these items. *)
Inductive atom : Type :=
| Lit (c : N)      (* one literal character *)
| Opt (c : N)      (* [c?], greedy *)
| Spaces           (* [\s*], greedy *)
| AnyLazy          (* [.*?] *)
| Mark.            (* an opening or closing parenthesis of a group *)

Definition lits (s : string) : list atom := map Lit (lit s).

Record flags : Type := Flags { dotall : bool; ignorecase : bool }.

Definition no_flags : flags := Flags false false.

(** Case-insensitive comparison of a pattern letter [c] (ASCII) with a
    subject character [x].  Under [re.IGNORECASE] a [str] pattern letter
    matches its two ASCII cases and the code points whose simple
    lower-case or upper-case mapping meets them: U+017F for s, U+0130
    and U+0131 for i, U+212A for k. *)
Definition other_case (c : N) : list N :=
  (if (97 <=? c) && (c <=? 122) then [c - 32]
   else if (65 <=? c) && (c <=? 90) then [c + 32] else [])%N.

Definition to_lower (c : N) : N :=
  (if (65 <=? c) && (c <=? 90) then c + 32 else c)%N.

Definition unicode_variants (c : N) : list N :=
  (if to_lower c =? 115 then [383]
   else if to_lower c =? 105 then [304; 305]
   else if to_lower c =? 107 then [8490] else [])%N.

Definition chr_match (fl : flags) (c x : N) : bool :=
  if ignorecase fl
  then existsb (N.eqb x) (c :: other_case c ++ unicode_variants c)
  else (c =? x)%N.

(** [.] matches everything but a newline, and everything under
    [re.DOTALL]. *)
Definition any_char (fl : flags) (x : N) : bool :=
  dotall fl || negb (x =? 10)%N.

Section Matcher.
Context {R : Type}.

(** [p*] greedy: take as many as possible, give back one at a time. *)
Fixpoint greedy_star (p : N -> bool) (k : nat -> text -> option R)
         (pos : nat) (s : text) : option R :=
  match s with
  | x :: s' =>
      if p x then
        match greedy_star p k (S pos) s' with
        | Some r => Some r
        | None => k pos s
        end
      else k pos s
  | [] => k pos s
  end.

(** [p*?] lazy: take as few as possible, take one more on failure. *)
Fixpoint lazy_star (p : N -> bool) (k : nat -> text -> option R)
         (pos : nat) (s : text) : option R :=
  match k pos s with
  | Some r => Some r
  | None =>
      match s with
      | x :: s' => if p x then lazy_star p k (S pos) s' else None
      | [] => None
      end
  end.
End Matcher.

(** The backtracking matcher: [match_here fl r pos s] matches [r] at the
    head of [s], which sits at offset [pos] of the subject, and returns
    the offsets of the group parentheses passed and the end offset. *)
Fixpoint match_here (fl : flags) (r : list atom) (pos : nat) (s : text)
  {struct r} : option (list nat * nat) :=
  match r with
  | [] => Some ([], pos)
  | Lit c :: r' =>
      match s with
      | x :: s' => if chr_match fl c x then match_here fl r' (S pos) s' else None
      | [] => None
      end
  | Opt c :: r' =>
      match
        match s with
        | x :: s' => if chr_match fl c x then match_here fl r' (S pos) s' else None
        | [] => None
        end
      with
      | Some res => Some res
      | None => match_here fl r' pos s
      end
  | Spaces :: r' => greedy_star is_space (match_here fl r') pos s
  | AnyLazy :: r' => lazy_star (any_char fl) (match_here fl r') pos s
  | Mark :: r' =>
      match match_here fl r' pos s with
      | Some (marks, e) => Some (pos :: marks, e)
      | None => None
      end
  end.

(** A match object: [m.start()], the parentheses' offsets, [m.end()]. *)
Record rmatch : Type :=
  RMatch { m_start : nat; m_marks : list nat; m_end : nat }.

(** [m.start(g)] and [m.end(g)] for the [g]-th group of a pattern whose
    groups are not nested. *)
Definition group_start (m : rmatch) (g : nat) : nat :=
  nth (2 * (g - 1)) (m_marks m) 0.
Definition group_end (m : rmatch) (g : nat) : nat :=
  nth (2 * (g - 1) + 1) (m_marks m) 0.

(** [re.search]: the match at the leftmost offset that has one. *)
Fixpoint search_from (fl : flags) (r : list atom) (pos : nat) (s : text)
  : option rmatch :=
  match match_here fl r pos s with
  | Some (marks, e) => Some (RMatch pos marks e)
  | None =>
      match s with
      | [] => None
      | _ :: s' => search_from fl r (S pos) s'
      end
  end.

Definition search (fl : flags) (r : list atom) (s : text) : option rmatch :=
  search_from fl r 0 s.

(** A replacement template: literal text and group references. *)
Inductive repl_item : Type :=
| RText (t : text)
| RGroup (g : nat).

Definition slice (a b : nat) (s : text) : text := take (b - a) (drop a s).

Definition expand (repl : list repl_item) (m : rmatch) (s : text) : text :=
  flat_map (fun it =>
              match it with
              | RText t => t
              | RGroup g => slice (group_start m g) (group_end m g) s
              end) repl.

(** [re.sub] for a pattern that matches no empty string: scan from the
    left; at a match emit the expanded template and resume after the
    match, elsewhere copy one character.  [skip] counts the characters of
    the current match still to pass. *)
Fixpoint sub_from (fl : flags) (r : list atom) (repl : list repl_item)
         (skip : nat) (s : text) : text :=
  match s with
  | [] => []
  | x :: s' =>
      match skip with
      | S n => sub_from fl r repl n s'
      | O =>
          match match_here fl r 0 s with
          | Some (marks, S n) =>
              expand repl (RMatch 0 marks (S n)) s ++ sub_from fl r repl n s'
          | _ => x :: sub_from fl r repl 0 s'
          end
      end
  end.

Definition sub (fl : flags) (r : list atom) (repl : list repl_item)
           (s : text) : text :=
  sub_from fl r repl 0 s.

End Re.
Import Re.

(* ===================================================================== *)
(** ** Os: the file store, the directory listing and the console          *)
(* ===================================================================== *)

Module Os.

(** What a text-mode read makes of the decoded characters of a file:
    [open] is called without [newline], so a carriage return followed by
    a line feed, and a carriage return alone, both arrive as one line
    feed. *)
Fixpoint universal_newlines (s : text) : text :=
  match s with
  | [] => []
  | x :: s' =>
      if (x =? 13)%N then
        10%N :: match s' with
                | y :: s'' =>
                    if (y =? 10)%N then universal_newlines s'' else universal_newlines s'
                | [] => []
                end
      else x :: universal_newlines s'
  end.

(** A file of the store.  [stored] holds the decoded characters of the
    file, and [None] when [open(path, 'r', encoding='utf-8')] or the
    decoding raises; [writable] says whether [open(path, 'w')] succeeds.
    A line feed the scripts write is stored as it is; on a host whose
    line separator is a carriage return and a line feed the file has
    that pair in its place, which reads back as the same line feed. *)
Record file : Type := File { stored : option text; writable : bool }.

(** What [f.read()] returns for a file. *)
Definition content (f : file) : option text :=
  match stored f with
  | Some s => Some (universal_newlines s)
  | None => None
  end.

(** The lines the two scripts print; arguments are the interpolated
    values.  The text of a caught exception is not kept. *)
Inductive msg : Type :=
(* aplicar_tema_automatico.py *)
| ErrorLeyendo (file_path : string)
| Omitido (relative_path : string)       (* "OMITIDO: ... (ya tiene el sistema de temas)" *)
| Procesando (relative_path : string)
| CssAgregado                            (* "CSS agregado en <head>" *)
| JsAgregado                             (* "JavaScript agregado antes de </body>" *)
| ArchivoGuardado
| NoSePudoModificar                      (* "No se pudo modificar (verificar estructura)" *)
| ErrorMsg                               (* "ERROR: {e}" *)
| Regla | ReglaNl | NlRegla              (* the ruled lines, plain or with a blank line *)
| TituloTemas | SubtituloTemas | Buscando
| Encontrados (n : nat)
| Blank
| Resumen
| Actualizados (n : nat) | Omitidos (n : nat) | Errores (n : nat)
| Completado | TodasLasPaginas | CadaDashboard
(* arreglar_formato.py *)
| FormatoOk (relative_path : string)     (* "{relative_path} - OK" *)
| Arreglando (relative_path : string)
| FormatoCorregido
| TituloArreglar
| Corregidos (n : nat).

(** The world a script runs in: what [os.walk] yields for a root, the
    files by path, and what has been printed. *)
Record world : Type :=
  World { tree : string -> list (string * list string * list string);
          files : gmap string file;
          stdout : list msg }.

(** Computations: a world transformer that returns a value, or [None]
    when an exception is raised. *)
Definition M (A : Type) : Type := world -> world * option A.

Definition ret {A} (a : A) : M A := fun w => (w, Some a).

Definition bind {A B} (c : M A) (k : A -> M B) : M B :=
  fun w => match c w with
           | (w', Some a) => k a w'
           | (w', None) => (w', None)
           end.

Definition try_except {A} (body handler : M A) : M A :=
  fun w => match body w with
           | (w', Some a) => (w', Some a)
           | (w', None) => handler w'
           end.

Definition print (m : msg) : M unit :=
  fun w => (World (tree w) (files w) (stdout w ++ [m]), Some tt).

Definition os_walk (top : string) : M (list (string * list string * list string)) :=
  fun w => (w, Some (tree w top)).

(** [with open(path, 'r', encoding='utf-8') as f: content = f.read()]:
    the decoded characters with their line endings translated. *)
Definition read_text (path : string) : M text :=
  fun w => match files w !! path with
           | Some f => (w, content f)
           | None => (w, None)
           end.

(** [with open(path, 'w', encoding='utf-8') as f: f.write(content)]. *)
Definition write_text (path : string) (c : text) : M unit :=
  fun w => match files w !! path with
           | Some f =>
               if writable f
               then (World (tree w) (<[path := File (Some c) true]> (files w)) (stdout w), Some tt)
               else (w, None)
           | None =>
               (World (tree w) (<[path := File (Some c) true]> (files w)) (stdout w), Some tt)
           end.

(** A [for] loop that threads the variables it assigns. *)
Fixpoint for_each {A S} (l : list A) (body : A -> S -> M S) (s : S) : M S :=
  match l with
  | [] => ret s
  | a :: l' => bind (body a s) (for_each l' body)
  end.

(** [os.path.join(root, name)] for a root without a trailing separator,
    as [os.walk] yields them, on the platform of [PROJECT_PATH]. *)
Definition path_join (root name : string) : string :=
  String.append root (String.append "\" name).

(** [s.endswith(suffix)]. *)
Definition endswith (s suffix : string) : bool :=
  (String.length suffix <=? String.length s) &&
  String.eqb
    (String.substring (String.length s - String.length suffix)
                      (String.length suffix) s)
    suffix.

(** [s.replace(old, new)] for a non-empty [old]; [skip] counts the
    characters of the current occurrence still to pass. *)
Fixpoint replace_from (old new : string) (skip : nat) (s : string) : string :=
  match s with
  | EmptyString => EmptyString
  | String a s' =>
      match skip with
      | S n => replace_from old new n s'
      | O =>
          if String.prefix old s
          then String.append new (replace_from old new (String.length old - 1) s')
          else String a (replace_from old new 0 s')
      end
  end.

Definition replace (s old new : string) : string := replace_from old new 0 s.

End Os.
Import Os.

Declare Scope os_scope.
Delimit Scope os_scope with os.
Notation "'do' x <- c ; k" := (bind c (fun x => k))
  (at level 10, x pattern, c at level 100, k at level 200) : os_scope.
Notation "c ;; k" := (bind c (fun _ => k))
  (at level 100, k at level 200, right associativity) : os_scope.
Local Open Scope os_scope.

(* ===================================================================== *)
(** ** aplicar_tema_automatico.py                                         *)
(* ===================================================================== *)

Module Injector.

Definition PROJECT_PATH : string :=
  "c:\xampp\NUEVOALEX\elgransazon - LISTO ADMIN LANDING PAGE - copia - copia\src\main\resources\templates".

(** [r'cdn\.tailwindcss\.com'], searched as a regular expression. *)
Definition TAILWIND_PATTERN : list atom := lits "cdn.tailwindcss.com".

(** The two markers, tested with [in]. *)
Definition THEME_RESOURCES_PATTERN : text := lit "fragments/theme :: themeResources".
Definition THEME_SCRIPT_PATTERN : text := lit "fragments/theme :: themeScript".

Definition THEME_RESOURCES : text :=
  lit "    <!-- Sistema de Temas (Modo Claro/Oscuro) -->" ++ nl ++
  lit "    <div th:replace=" ++ dq ++ lit "~{fragments/theme :: themeResources}" ++ dq ++
  lit "></div>".

Definition THEME_SCRIPT : text :=
  nl ++
  lit "    <!-- Script del Sistema de Temas -->" ++ nl ++
  lit "    <div th:replace=" ++ dq ++ lit "~{fragments/theme :: themeScript}" ++ dq ++
  lit "></div>".

(** The pattern of step 1, compiled with [re.DOTALL]: one group holding
    the literal Material+Symbols+Outlined, a lazy run of any characters,
    the attribute rel= with the quoted value stylesheet, optional spaces,
    an optional slash, the closing angle bracket, optional spaces. *)
Definition material_re : list atom :=
  [Mark] ++ lits "Material+Symbols+Outlined" ++ [AnyLazy] ++
  lits "rel=" ++ [Lit 34] ++ lits "stylesheet" ++ [Lit 34] ++
  [Spaces; Opt 47; Lit 62; Spaces] ++ [Mark].
Definition material_flags : flags := Flags true false.

(** The pattern of step 2, compiled with [re.DOTALL | re.IGNORECASE]:
    a first group with the closing script tag and optional spaces, a
    second group with the closing body tag. *)
Definition body_re : list atom :=
  [Mark] ++ lits "</script>" ++ [Spaces] ++ [Mark] ++
  [Mark] ++ lits "</body>" ++ [Mark].
Definition body_flags : flags := Flags true true.

Definition find_html_files_with_tailwind (base_path : string) : M (list string) :=
  do walk <- os_walk base_path;
  for_each walk (fun '(root, dirs, names) html_files =>
    for_each names (fun file html_files =>
      if endswith file ".html" then
        let file_path := path_join root file in
        try_except
          (do content <- read_text file_path;
           match search no_flags TAILWIND_PATTERN content with
           | Some _ => ret (html_files ++ [file_path])
           | None => ret html_files
           end)
          (print (ErrorLeyendo file_path);; ret html_files)
      else ret html_files) html_files) [].

Inductive result : Type := updated | skipped | error.

(** Step 1 of [update_html_file]: the CSS fragment after Material Icons.
    Returns the new [content] and [modified]. *)
Definition head_insertion (content : text) (modified : bool) : M (text * bool) :=
  match search material_flags material_re content with
  | Some material_match =>
      let insert_pos := m_end material_match in
      let content := take insert_pos content ++ nl ++ THEME_RESOURCES ++ nl
                       ++ drop insert_pos content in
      print CssAgregado;; ret (content, true)
  | None => ret (content, modified)
  end.

(** Step 2 of [update_html_file]: the script fragment before [</body>]. *)
Definition body_insertion (content : text) (modified : bool) : M (text * bool) :=
  if negb (contains THEME_SCRIPT_PATTERN content) then
    match search body_flags body_re content with
    | Some body_match =>
        let insert_pos := group_start body_match 2 in
        let content := take insert_pos content ++ THEME_SCRIPT ++ nl ++ lit "  "
                         ++ drop insert_pos content in
        print JsAgregado;; ret (content, true)
    | None => ret (content, modified)
    end
  else ret (content, modified).

Definition update_html_file (file_path : string) : M result :=
  try_except
    (do content <- read_text file_path;
     let relative_path := replace file_path (String.append PROJECT_PATH "\") "" in
     if contains THEME_RESOURCES_PATTERN content then
       print (Omitido relative_path);; ret skipped
     else
       print (Procesando relative_path);;
       let modified := false in
       do (content, modified) <- head_insertion content modified;
       do (content, modified) <- body_insertion content modified;
       if modified then
         write_text file_path content;;
         print ArchivoGuardado;;
         ret updated
       else
         print NoSePudoModificar;;
         ret skipped)
    (print ErrorMsg;; ret error).

(** The body of the loop of [main] over the candidates, on its three
    counters, and the loop. *)
Definition tally_step (file_path : string) (counters : nat * nat * nat)
  : M (nat * nat * nat) :=
  let '(updated_n, skipped_n, errors_n) := counters in
  do result <- update_html_file file_path;
  let counters :=
    match result with
    | updated => (updated_n + 1, skipped_n, errors_n)
    | skipped => (updated_n, skipped_n + 1, errors_n)
    | error => (updated_n, skipped_n, errors_n + 1)
    end in
  print Blank;; ret counters.

Definition tally (html_files : list string) : M (nat * nat * nat) :=
  for_each html_files tally_step (0, 0, 0).

Definition main : M unit :=
  print Regla;; print TituloTemas;; print SubtituloTemas;; print ReglaNl;;
  print Buscando;;
  do html_files <- find_html_files_with_tailwind PROJECT_PATH;
  print (Encontrados (length html_files));;
  do (updated_n, skipped_n, errors_n) <- tally html_files;
  print Regla;; print Resumen;; print Regla;;
  print (Actualizados updated_n);;
  print (Omitidos skipped_n);;
  print (Errores errors_n);;
  print Blank;; print Completado;; print TodasLasPaginas;; print CadaDashboard.

End Injector.

(* ===================================================================== *)
(** ** arreglar_formato.py                                                *)
(* ===================================================================== *)

Module Fixer.

Definition PROJECT_PATH : string :=
  "c:\xampp\NUEVOALEX\elgransazon - LISTO ADMIN LANDING PAGE - copia - copia\src\main\resources\templates".

(** The end of the inserted resource fragment: themeResources, a closing
    brace, a double quote and the tags that close the [div]. *)
Definition closing_div : text :=
  lit "themeResources}" ++ dq ++ lit "></div>".

(** The two substrings of the membership tests. *)
Definition unix_adjacency : text := closing_div ++ nl ++ lit "<script".
Definition windows_adjacency : text := closing_div ++ cr ++ nl ++ lit "<script".

(** The pattern of [re.sub]: a first group with [closing_div], optional
    spaces, a newline, optional spaces, a second group with the opening
    of a script tag. *)
Definition format_re : list atom :=
  [Mark] ++ lits "themeResources}" ++ [Lit 34] ++ lits "></div>" ++ [Mark] ++
  [Spaces; Lit 10; Spaces] ++
  [Mark] ++ lits "<script" ++ [Mark].

(** The template of [re.sub]: group 1, a newline, four spaces, group 2. *)
Definition format_repl : list repl_item :=
  [RGroup 1; RText (nl ++ lit "    "); RGroup 2].

Definition fix_theme_resources_format (file_path : string) : M bool :=
  try_except
    (do content <- read_text file_path;
     let relative_path := replace file_path (String.append PROJECT_PATH "\") "" in
     if negb (contains unix_adjacency content) &&
        negb (contains windows_adjacency content) then
       print (FormatoOk relative_path);; ret false
     else
       print (Arreglando relative_path);;
       let content := sub no_flags format_re format_repl content in
       write_text file_path content;;
       print FormatoCorregido;;
       ret true)
    (print ErrorMsg;; ret false).

Definition main : M unit :=
  print Regla;; print TituloArreglar;; print ReglaNl;;
  do walk <- os_walk PROJECT_PATH;
  do fixed <-
    for_each walk (fun '(root, dirs, names) fixed =>
      for_each names (fun file fixed =>
        if endswith file ".html" then
          let file_path := path_join root file in
          do ok <- fix_theme_resources_format file_path;
          if ok then ret (fixed + 1) else ret fixed
        else ret fixed) fixed) 0;
  print NlRegla;; print (Corregidos fixed);; print Regla.

End Fixer.

(* ===================================================================== *)
(** ** Vocabulary of the specification                                    *)
(* ===================================================================== *)

(** Length of the longest prefix of [s] whose characters satisfy [p]. *)
Fixpoint span (p : N -> bool) (s : text) : nat :=
  match s with
  | x :: s' => if p x then S (span p s') else 0
  | [] => 0
  end.

(** [s] begins with the pattern letters [p], compared under the flags. *)
Fixpoint starts_like (fl : flags) (p s : text) : bool :=
  match p, s with
  | [], _ => true
  | _ :: _, [] => false
  | a :: p', b :: s' => chr_match fl a b && starts_like fl p' s'
  end.

(** [x] is [p] up to the comparison of the flags, letter by letter. *)
Fixpoint like (fl : flags) (p x : text) : bool :=
  match p, x with
  | [], [] => true
  | a :: p', b :: x' => chr_match fl a b && like fl p' x'
  | _, _ => false
  end.

(** [s] with [x] spliced in at offset [pos]: [s[:pos] + x + s[pos:]]. *)
Definition splice (pos : nat) (x s : text) : text :=
  take pos s ++ x ++ drop pos s.


Definition adjacency_here (s : text) : option nat :=
  if starts_like Injector.body_flags (lit "</script>") s then
    let n := span is_space (drop 9 s) in
    if starts_like Injector.body_flags (lit "</body>") (drop (9 + n) s)
    then Some (9 + n) else None
  else None.

Definition format_here (s : text) : option nat :=
  if starts_with Fixer.closing_div s then
    let t := drop 23 s in
    let n := span is_space t in
    if existsb (N.eqb 10) (take n t) && starts_with (lit "<script") (drop n t)
    then Some n else None
  else None.

Definition fixed_form : text :=
  Fixer.closing_div ++ nl ++ lit "    " ++ lit "<script".

Definition reformat (content : text) : text :=
  sub no_flags Fixer.format_re Fixer.format_repl content.

Definition overlap_form : text := lit "<scrip" ++ Fixer.closing_div.


(** The path a script prints for a file: [file_path] without the root. *)
Definition relative_path (file_path : string) : string :=
  replace file_path (String.append Injector.PROJECT_PATH "\") "".

(** A world with one writable file and nothing printed yet. *)
Definition one_file (path : string) (c : text) : world :=
  World (fun _ => []) {[ path := File (Some c) true ]} [].

(** A second marker that starts on the last letter of a script tag. *)
Definition overlapping : text :=
  Fixer.closing_div ++ nl ++ lit "<scrip" ++ Fixer.closing_div ++ nl ++ lit "<script".

(** The same, with the second script tag indented by eight spaces. *)
Definition overlapping_indented : text :=
  Fixer.closing_div ++ nl ++ lit "<scrip" ++
  Fixer.closing_div ++ nl ++ lit "        " ++ lit "<script".

(** An unindented occurrence and one indented by eight spaces. *)
Definition two_occurrences : text :=
  Fixer.unix_adjacency ++ lit "></script>" ++ nl ++
  Fixer.closing_div ++ nl ++ lit "        " ++ lit "<script></script>".

(** The leftmost offset of [s] at which [here] finds something, with what
    it finds there. *)
Fixpoint first_match (here : text -> option nat) (s : text) : option (nat * nat) :=
  match here s with
  | Some k => Some (0, k)
  | None =>
      match s with
      | [] => None
      | _ :: s' =>
          match first_match here s' with
          | Some (i, k) => Some (S i, k)
          | None => None
          end
      end
  end.

(** The closing script tag, whitespace and the closing body tag, leftmost
    in [s]: the offsets of the script tag and of the body tag. *)
Definition first_adjacency (s : text) : option (nat * nat) :=
  match first_match adjacency_here s with
  | Some (i, k) => Some (i, i + k)
  | None => None
  end.

Definition MATERIAL : text := lit "Material+Symbols+Outlined".
Definition REL_STYLESHEET : text := lit "rel=" ++ dq ++ lit "stylesheet" ++ dq.

(** The stylesheet attribute at the head of [t], whitespace, and the end of
    the tag, with or without a slash: the offset just past the tag. *)
Definition closed_tag_here (t : text) : option nat :=
  if starts_with REL_STYLESHEET t then
    let n := span is_space (drop 16 t) in
    if starts_with [47%N; 62%N] (drop (16 + n) t) then Some (16 + n + 2)
    else if starts_with [62%N] (drop (16 + n) t) then Some (16 + n + 1)
    else None
  else None.

(** The first closed stylesheet tag of [t]: the offset just past it. *)
Definition first_closed_tag (t : text) : option nat :=
  match first_match closed_tag_here t with
  | Some (j, g) => Some (j + g)
  | None => None
  end.

(** The head anchor at the head of [s]: the icon-font name and, after it,
    the first closed stylesheet tag; the offset just past that tag. *)
Definition anchor_here (s : text) : option nat :=
  if starts_with MATERIAL s then
    match first_closed_tag (drop 25 s) with
    | Some g => Some (25 + g)
    | None => None
    end
  else None.

(** The leftmost head anchor of [s]: where it starts and where its tag
    ends. *)
Definition first_anchor (s : text) : option (nat * nat) :=
  match first_match anchor_here s with
  | Some (i, g) => Some (i, i + g)
  | None => None
  end.

(** The offset [g] moved past the whitespace that follows it. *)
Definition after_spaces (g : nat) (s : text) : nat :=
  g + span is_space (drop g s).

(** What the two steps of [update_html_file] splice in. *)
Definition head_snippet : text := nl ++ Injector.THEME_RESOURCES ++ nl.
Definition body_snippet : text := Injector.THEME_SCRIPT ++ nl ++ lit "  ".

(** Step 1 as a function of the text: whether the anchor is found, and the
    text after the step. *)
Definition head_found (c : text) : bool :=
  if first_anchor c is Some _ then true else false.

Definition head_text (c : text) : text :=
  match first_anchor c with
  | Some (_, g) => splice (after_spaces g c) head_snippet c
  | None => c
  end.

(** Step 2 as a function of the text it receives. *)
Definition body_found (c : text) : bool :=
  negb (contains Injector.THEME_SCRIPT_PATTERN c) &&
  (if first_adjacency c is Some _ then true else false).

Definition body_text (c : text) : text :=
  if contains Injector.THEME_SCRIPT_PATTERN c then c
  else match first_adjacency c with
       | Some (_, p) => splice p body_snippet c
       | None => c
       end.

(** Both steps. *)
Definition injected (c : text) : text := body_text (head_text c).

Definition modified (c : text) : bool := head_found c || body_found (head_text c).

(** The lines [update_html_file] prints between "Procesando" and its last
    line. *)
Definition step_lines (c : text) : list msg :=
  (if head_found c then [CssAgregado] else []) ++
  (if body_found (head_text c) then [JsAgregado] else []).

(** The world with more lines printed. *)
Definition say (w : world) (lines : list msg) : world :=
  World (tree w) (files w) (stdout w ++ lines).

(** The world with the text of one file replaced. *)
Definition store (w : world) (path : string) (c : text) : world :=
  World (tree w) (<[path := File (Some c) true]> (files w)) (stdout w).

(** The HTML files of a listing, in the order [os.walk] yields them. *)
Definition html_paths (walk : list (string * list string * list string)) : list string :=
  flat_map (fun '(root, _, names) =>
              map (path_join root) (List.filter (fun n => endswith n ".html") names))
           walk.

(** A file that can be read and whose text has the CDN reference. *)
Definition is_candidate (fs : gmap string file) (path : string) : bool :=
  match fs !! path with
  | Some f =>
      match content f with
      | Some c =>
          if search no_flags Injector.TAILWIND_PATTERN c is Some _ then true else false
      | None => false
      end
  | None => false
  end.

(** A path at which opening or reading raises. *)
Definition unreadable (fs : gmap string file) (path : string) : bool :=
  match fs !! path with
  | Some f => if content f is Some _ then false else true
  | None => true
  end.

(** The candidate list of a world. *)
Definition candidates (w : world) : list string :=
  List.filter (is_candidate (files w)) (html_paths (tree w Injector.PROJECT_PATH)).

(** A counter moved by one result. *)
Definition count (r : Injector.result) (counters : nat * nat * nat) : nat * nat * nat :=
  let '(u, s, e) := counters in
  match r with
  | Injector.updated => (u + 1, s, e)
  | Injector.skipped => (u, s + 1, e)
  | Injector.error => (u, s, e + 1)
  end.

(** What [main] prints before its loop and after it. *)
Definition main_header (w : world) : list msg :=
  [Regla; TituloTemas; SubtituloTemas; ReglaNl; Buscando] ++
  map ErrorLeyendo
    (List.filter (unreadable (files w)) (html_paths (tree w Injector.PROJECT_PATH))) ++
  [Encontrados (length (candidates w))].

Definition main_summary (counters : nat * nat * nat) : list msg :=
  let '(u, s, e) := counters in
  [Regla; Resumen; Regla; Actualizados u; Omitidos s; Errores e;
   Blank; Completado; TodasLasPaginas; CadaDashboard].

(** Three pages: without the CDN reference; with it, both anchors and no
    marker; with it and the resource marker. *)
Definition page_a : text :=
  lit "<html><head></head><body><script></script></body></html>".

Definition page_b : text :=
  lit "<html><head><script src=" ++ dq ++ lit "https://cdn.tailwindcss.com" ++ dq ++
  lit "></script>" ++ nl ++
  lit "<link href=" ++ dq ++ lit "https://fonts.googleapis.com/css2?family=Material+Symbols+Outlined"
  ++ dq ++ lit " rel=" ++ dq ++ lit "stylesheet" ++ dq ++ lit "/>" ++ nl ++
  lit "</head><body><script></script>" ++ nl ++ lit "</body></html>".

Definition page_c : text :=
  lit "<html><head><script src=" ++ dq ++ lit "https://cdn.tailwindcss.com" ++ dq ++
  lit "></script>" ++ nl ++ head_snippet ++ lit "</head><body></body></html>".

Definition three_files : world :=
  World (fun _ => [(Injector.PROJECT_PATH, [], ["a.html"; "b.html"; "c.html"])])
        (<[path_join Injector.PROJECT_PATH "a.html" := File (Some page_a) true]>
           (<[path_join Injector.PROJECT_PATH "b.html" := File (Some page_b) true]>
              {[ path_join Injector.PROJECT_PATH "c.html" := File (Some page_c) true ]}))
        [].

(** The characters a case-insensitive comparison accepts for a letter. *)
Definition variants (c : N) : list N := c :: other_case c ++ unicode_variants c.

(** The rightmost offset of [s] at which [here] finds something. *)
Fixpoint last_match (here : text -> option nat) (s : text) : option (nat * nat) :=
  match
    match s with
    | [] => None
    | _ :: s' =>
        match last_match here s' with
        | Some (i, k) => Some (S i, k)
        | None => None
        end
    end
  with
  | Some r => Some r
  | None =>
      match here s with
      | Some k => Some (0, k)
      | None => None
      end
  end.

(** The last adjacency of [s]: the offsets of its script tag and of its
    body tag. *)
Definition last_adjacency (s : text) : option (nat * nat) :=
  match last_match adjacency_here s with
  | Some (i, k) => Some (i, i + k)
  | None => None
  end.

(** A text with two adjacencies. *)
Definition two_bodies : text :=
  lit "</script></body>" ++ nl ++ lit "</script></body>".

(** A page with the CDN reference and the adjacency, without the head
    anchor and without a marker. *)
Definition page_d : text :=
  lit "<html><head><script src=" ++ dq ++ lit "https://cdn.tailwindcss.com" ++ dq ++
  lit "></script></head><body><script></script></body></html>".

(** A tree with one page. *)
Definition single_page (c : text) : world :=
  World (fun _ => [(Injector.PROJECT_PATH, [], ["d.html"])])
        {[ path_join Injector.PROJECT_PATH "d.html" := File (Some c) true ]}
        [].

(** A file on which a call of [update_html_file] writes nothing: it cannot
    be read or written, or its text has the resource marker, or the two
    steps find nothing to do. *)
Definition settled (o : option file) : bool :=
  match o with
  | Some f =>
      match content f with
      | Some c =>
          negb (writable f) ||
          contains Injector.THEME_RESOURCES_PATTERN c || negb (modified c)
      | None => true
      end
  | None => true
  end.

(** What the loop of [main] prints for a file it updates with both
    insertions, and for a file it skips for its marker. *)
Definition updated_trace (path : string) : list msg :=
  [Procesando (relative_path path); CssAgregado; JsAgregado; ArchivoGuardado; Blank].

Definition skipped_trace (path : string) : list msg :=
  [Omitido (relative_path path); Blank].

(** What [main] prints before its loop when every file can be read. *)
Definition plain_header (found : nat) : list msg :=
  [Regla; TituloTemas; SubtituloTemas; ReglaNl; Buscando; Encontrados found].

(** A world with one file that can be read and not written. *)
Definition read_only_file (path : string) (c : text) : world :=
  World (fun _ => []) {[ path := File (Some c) false ]} [].

(** The files a loop has counted. *)
Definition total (counters : nat * nat * nat) : nat :=
  let '(u, s, e) := counters in u + s + e.

(** A path whose file the fixer rewrites: the file can be read and
    written and its text has one of the two tested adjacencies. *)
Definition needs_fix (fs : gmap string file) (path : string) : bool :=
  match fs !! path with
  | Some f =>
      match content f with
      | Some c =>
          writable f &&
          (contains Fixer.unix_adjacency c || contains Fixer.windows_adjacency c)
      | None => false
      end
  | None => false
  end.

(** The file at a path after a call of the fixer on it. *)
Definition fixed_file (fs : gmap string file) (path : string) : option file :=
  if needs_fix fs path
  then match fs !! path with
       | Some f =>
           match content f with
           | Some c => Some (File (Some (reformat c)) true)
           | None => Some f
           end
       | None => None
       end
  else fs !! path.

(** The body of the loops of the fixer's [main], over a list of paths. *)
Definition fix_each (paths : list string) (fixed : nat) : M nat :=
  for_each paths
    (fun file_path fixed =>
       do ok <- Fixer.fix_theme_resources_format file_path;
       if ok then ret (fixed + 1) else ret fixed) fixed.

(** The characters of a text that are not whitespace. *)
Definition solid (s : text) : text := List.filter (fun x => negb (is_space x)) s.

(** A tree with two pages in one directory. *)
Definition two_pages (c1 c2 : text) : world :=
  World (fun _ => [(Fixer.PROJECT_PATH, [], ["a.html"; "b.html"; "notes.txt"])])
        (<[path_join Fixer.PROJECT_PATH "a.html" := File (Some c1) true]>
           {[ path_join Fixer.PROJECT_PATH "b.html" := File (Some c2) true ]})
        [].

(** A page whose icon-font link is followed by a script tag on the next
    line. *)
Definition page_e : text :=
  lit "<html><head><link href=" ++ dq ++
  lit "https://fonts.googleapis.com/css2?family=Material+Symbols+Outlined" ++ dq ++
  lit " rel=" ++ dq ++ lit "stylesheet" ++ dq ++ lit "/>" ++ nl ++
  lit "<script src=" ++ dq ++ lit "https://cdn.tailwindcss.com" ++ dq ++
  lit "></script>" ++ nl ++
  lit "</head><body><script></script></body></html>".

(** A page with the icon-font link and no script before the end of its
    body. *)
Definition page_f : text :=
  lit "<html><head><link href=" ++ dq ++
  lit "https://fonts.googleapis.com/css2?family=Material+Symbols+Outlined" ++ dq ++
  lit " rel=" ++ dq ++ lit "stylesheet" ++ dq ++ lit "/>" ++ nl ++
  lit "</head><body><p>hola</p></body></html>".

(** The end of a page with its tags in capitals. *)
Definition page_caps : text :=
  lit "<BODY><SCRIPT></SCRIPT>" ++ nl ++ lit "</BODY>".

(** The adjacency with a carriage return alone as its line ending. *)
Definition mac_adjacency : text := Fixer.closing_div ++ cr ++ lit "<script".
(* ===================================================================== *)
(** ** Text lemmas                                                        *)
(* ===================================================================== *)

Section TextFacts.

Lemma starts_with_spec (p s : text) :
  starts_with p s = true <-> exists t, s = p ++ t.
Proof.
  revert s. induction p as [|a p IH]; intros s; simpl.
  - split; [intros _; by exists s | done].
  - destruct s as [|b s]; simpl.
    + split; [done | intros [t Ht]; discriminate].
    + rewrite andb_true_iff, N.eqb_eq, IH. split.
      * intros [-> [t ->]]. by exists t.
      * intros [t Ht]. injection Ht as -> ->. split; [done | by exists t].
Qed.

Lemma starts_with_app (p t : text) : starts_with p (p ++ t) = true.
Proof. apply starts_with_spec. by exists t. Qed.

Lemma starts_with_false (p s : text) :
  starts_with p s = false <-> forall t, s <> p ++ t.
Proof.
  rewrite <- not_true_iff_false, starts_with_spec. split.
  - intros H t Ht. apply H. by exists t.
  - intros H [t Ht]. by apply (H t).
Qed.

Lemma contains_spec (p s : text) :
  contains p s = true <-> exists a b, s = a ++ p ++ b.
Proof.
  induction s as [|x s IH]; simpl.
  - rewrite orb_false_r, starts_with_spec. split.
    + intros [t Ht]. by exists [], t.
    + intros [a [b Hab]]. destruct a; [by exists b | discriminate].
  - rewrite orb_true_iff, starts_with_spec, IH. split.
    + intros [[t Ht] | [a [b Hab]]].
      * by exists [], t.
      * exists (x :: a), b. by rewrite Hab.
    + intros [a [b Hab]]. destruct a as [|y a]; simpl in Hab.
      * left. by exists b.
      * right. injection Hab as -> ->. by exists a, b.
Qed.

Lemma contains_intro (p a b : text) : contains p (a ++ p ++ b) = true.
Proof. apply contains_spec. by exists a, b. Qed.

Lemma contains_false (p s : text) :
  contains p s = false <-> forall a b, s <> a ++ p ++ b.
Proof.
  rewrite <- not_true_iff_false, contains_spec. split.
  - intros H a b Hab. apply H. by exists a, b.
  - intros H [a [b Hab]]. by apply (H a b).
Qed.

Lemma contains_app_l (p a s : text) :
  contains p s = true -> contains p (a ++ s) = true.
Proof.
  rewrite !contains_spec. intros [u [v ->]].
  exists (a ++ u), v. by rewrite <- app_assoc.
Qed.

Lemma contains_app_r (p s b : text) :
  contains p s = true -> contains p (s ++ b) = true.
Proof.
  rewrite !contains_spec. intros [u [v ->]].
  exists u, (v ++ b). by rewrite <- !app_assoc.
Qed.

Lemma contains_cons (p : text) (x : N) (s : text) :
  contains p (x :: s) = starts_with p (x :: s) || contains p s.
Proof. reflexivity. Qed.

Lemma span_le (p : N -> bool) (s : text) : span p s <= length s.
Proof. induction s as [|x s IH]; simpl; [lia | destruct (p x); simpl; lia]. Qed.

Lemma span_app (p : N -> bool) (w t : text) :
  forallb p w = true ->
  span p (w ++ t) = length w + span p t.
Proof.
  induction w as [|x w IH]; simpl; [done |].
  rewrite andb_true_iff. intros [-> Hw]. by rewrite IH.
Qed.

Lemma span_take (p : N -> bool) (s : text) :
  forallb p (take (span p s) s) = true.
Proof.
  induction s as [|x s IH]; simpl; [done |].
  destruct (p x) eqn:Hx; simpl; [by rewrite Hx | done].
Qed.

Lemma span_stop (p : N -> bool) (s : text) :
  span p (drop (span p s) s) = 0.
Proof.
  induction s as [|x s IH]; simpl; [done |].
  destruct (p x) eqn:Hx; simpl; [done | by rewrite Hx].
Qed.

Lemma span_head (p : N -> bool) (x : N) (s : text) :
  span p (x :: s) = 0 -> p x = false.
Proof. simpl. by destruct (p x). Qed.

Lemma span_drop (p : N -> bool) (s : text) (j : nat) :
  j <= span p s -> span p (drop j s) = span p s - j.
Proof.
  revert j. induction s as [|x s IH]; intros j; simpl.
  - intros Hj. by replace j with 0 by lia.
  - destruct (p x) eqn:Hx.
    + destruct j as [|j]; simpl; [by rewrite Hx | intros Hj; apply IH; lia].
    + intros Hj. replace j with 0 by lia. simpl. by rewrite Hx.
Qed.

Lemma contains_offset (p s : text) :
  contains p s = true <-> exists q, starts_with p (drop q s) = true.
Proof.
  rewrite contains_spec. split.
  - intros (a & b & ->). exists (length a).
    rewrite drop_app_length. apply starts_with_app.
  - intros [q [t Ht]%starts_with_spec]. exists (take q s), t.
    by rewrite <- Ht, take_drop.
Qed.

Lemma absent_by_test (c : N) (l : text) :
  forallb (fun y => negb (y =? c)%N) l = true -> ~ In c l.
Proof.
  rewrite forallb_forall. intros H Hin. apply H in Hin.
  by rewrite N.eqb_refl in Hin.
Qed.

End TextFacts.



(* ===================================================================== *)
(** ** Counting occurrences and splicing                                 *)
(* ===================================================================== *)

Section SpliceFacts.

Lemma occurrences_cons (p : text) (x : N) (s : text) :
  occurrences p (x :: s) = (if starts_with p (x :: s) then 1 else 0) + occurrences p s.
Proof. reflexivity. Qed.

Lemma occurrences_zero (p s : text) :
  occurrences p s = 0 <-> contains p s = false.
Proof.
  induction s as [|x s IH]; simpl.
  - destruct (starts_with p []); simpl; split; (done || lia).
  - destruct (starts_with p (x :: s)); simpl; [split; (done || lia) |].
    apply IH.
Qed.

Lemma occurrences_pos (p s : text) :
  0 < occurrences p s <-> contains p s = true.
Proof.
  rewrite <- not_false_iff_true, <- occurrences_zero. lia.
Qed.

(** A separator that is not in the pattern cuts the count in two. *)
Lemma starts_with_sep (p a : text) (c : N) (b : text) :
  p <> [] -> ~ In c p ->
  starts_with p (a ++ c :: b) = starts_with p a.
Proof.
  intros Hp Hc. revert p Hp Hc. induction a as [|x a IH]; intros p Hp Hc.
  - destruct p as [|y p]; [done |]. simpl.
    destruct (N.eqb_spec y c) as [-> |]; [| done].
    destruct Hc. by left.
  - destruct p as [|y p]; [done |]. simpl.
    destruct (y =? x)%N; [| done]. simpl.
    destruct p as [|z p]; [by destruct a |].
    apply IH; [done |]. intros Hin. apply Hc. by right.
Qed.

Lemma occurrences_sep (p a : text) (c : N) (b : text) :
  p <> [] -> ~ In c p ->
  occurrences p (a ++ c :: b) = occurrences p a + occurrences p (c :: b).
Proof.
  intros Hp Hc. induction a as [|x a IH].
  - destruct p; [done |]. reflexivity.
  - change ((x :: a) ++ c :: b) with (x :: (a ++ c :: b)).
    rewrite (occurrences_cons p x (a ++ c :: b)), (occurrences_cons p x a), IH.
    change (x :: a ++ c :: b) with ((x :: a) ++ c :: b).
    rewrite starts_with_sep by done. lia.
Qed.

Lemma occurrences_skip (p : text) (c : N) (b : text) :
  head p <> Some c -> p <> [] ->
  occurrences p (c :: b) = occurrences p b.
Proof.
  intros Hh Hp. rewrite occurrences_cons.
  destruct p as [|y p]; [done |]. simpl in *.
  destruct (N.eqb_spec y c) as [-> |]; [by destruct Hh | done].
Qed.

Lemma occurrences_app_ge (p a b : text) :
  p <> [] ->
  occurrences p a + occurrences p b <= occurrences p (a ++ b).
Proof.
  intros Hp. induction a as [|x a IH].
  - destruct p; [done |]. simpl. lia.
  - change ((x :: a) ++ b) with (x :: (a ++ b)).
    rewrite (occurrences_cons p x (a ++ b)), (occurrences_cons p x a).
    destruct (starts_with p (x :: a)) eqn:Hs.
    + apply starts_with_spec in Hs as [t Ht].
      assert (starts_with p (x :: a ++ b) = true) as ->.
      { apply starts_with_spec. exists (t ++ b).
        change (x :: a ++ b) with ((x :: a) ++ b). by rewrite Ht, <- app_assoc. }
      lia.
    + destruct (starts_with p (x :: a ++ b)); lia.
Qed.

Lemma splice_app (s x : text) (p : nat) :
  p <= length s -> splice p x s = take p s ++ x ++ drop p s.
Proof. done. Qed.

Lemma splice_length (s x : text) (p : nat) :
  length (splice p x s) = length s + length x.
Proof.
  unfold splice. rewrite !length_app, length_take, length_drop. lia.
Qed.

Lemma drop_splice_after (s x : text) (p q : nat) :
  p <= q -> p <= length s ->
  drop (q + length x) (splice p x s) = drop q s.
Proof.
  intros Hpq Hp. unfold splice.
  rewrite drop_app_ge by (rewrite length_take; lia).
  rewrite length_take. replace (p `min` length s) with p by lia.
  rewrite drop_app_ge by lia.
  rewrite drop_drop. f_equal. lia.
Qed.

Lemma drop_splice_before (s x : text) (p q : nat) :
  q <= p -> p <= length s ->
  drop q (splice p x s) = drop q (take p s) ++ x ++ drop p s.
Proof.
  intros Hqp Hp. unfold splice.
  rewrite drop_app_le by (rewrite length_take; lia). done.
Qed.

End SpliceFacts.

(* ===================================================================== *)
(** ** Texts as they are read                                             *)
(* ===================================================================== *)

Section Newlines.

Lemma universal_newlines_cons (x : N) (s : text) :
  universal_newlines (x :: s) =
  if (x =? 13)%N then
    10%N :: match s with
            | y :: s' => if (y =? 10)%N then universal_newlines s' else universal_newlines s
            | [] => []
            end
  else x :: universal_newlines s.
Proof. reflexivity. Qed.

(** A text that was read holds no carriage return. *)
Lemma universal_newlines_no_cr (s : text) : ~ In 13%N (universal_newlines s).
Proof.
  remember (length s) as n eqn:Hn. revert s Hn.
  induction n as [n IH] using lt_wf_ind. intros [|x s] Hn; [by intros [] |].
  rewrite universal_newlines_cons. simpl in Hn.
  destruct (x =? 13)%N eqn:Hx.
  - intros [H | H]; [done |].
    destruct s as [|y s]; [done |]. simpl in Hn.
    destruct (y =? 10)%N; revert H; eapply IH; try reflexivity; simpl; lia.
  - intros [-> | H]; [done |]. revert H. eapply IH; try reflexivity. lia.
Qed.

(** Reading leaves a text without carriage returns as it is. *)
Lemma universal_newlines_id (s : text) : ~ In 13%N s -> universal_newlines s = s.
Proof.
  induction s as [|x s IH]; [done |]. intros Hcr. rewrite universal_newlines_cons.
  destruct (x =? 13)%N eqn:Hx.
  - apply N.eqb_eq in Hx. subst x. exfalso. apply Hcr. by left.
  - rewrite IH; [done |]. intros H. apply Hcr. by right.
Qed.

Lemma content_no_cr (f : file) (c : text) : content f = Some c -> ~ In 13%N c.
Proof.
  unfold content. destruct (stored f) as [s|]; [| done].
  intros [= <-]. apply universal_newlines_no_cr.
Qed.

(** A text without carriage returns reads back as it was written. *)
Lemma content_written (c : text) (wr : bool) :
  ~ In 13%N c -> content (File (Some c) wr) = Some c.
Proof. intros H. unfold content. simpl. by rewrite universal_newlines_id. Qed.

Lemma content_cases (f : file) :
  (exists c, content f = Some c /\ ~ In 13%N c) \/ content f = None.
Proof.
  destruct (content f) as [c|] eqn:Hc; [left | by right].
  exists c. split; [done |]. by apply (content_no_cr f).
Qed.

(** Reading goes through a text part by part at a character that is no
    line feed. *)
Lemma universal_newlines_app (a : text) (y : N) (r : text) :
  y <> 10%N ->
  universal_newlines (a ++ y :: r) = universal_newlines a ++ universal_newlines (y :: r).
Proof.
  intros Hy. remember (length a) as n eqn:Hn. revert a Hn.
  induction n as [n IH] using lt_wf_ind. intros [|x a] Hn; [done |].
  simpl in Hn. cbn [app]. rewrite !(universal_newlines_cons x).
  destruct (x =? 13)%N.
  - destruct a as [|z a].
    + cbn [app]. apply N.eqb_neq in Hy. by rewrite Hy.
    + cbn [app]. simpl in Hn. destruct (z =? 10)%N.
      * cbn [app]. f_equal. eapply IH; try reflexivity. lia.
      * cbn [app]. f_equal.
        exact (IH (length (z :: a)) ltac:(simpl; lia) (z :: a) eq_refl).
  - cbn [app]. f_equal. eapply IH; try reflexivity. lia.
Qed.
End Newlines.
(* ===================================================================== *)
(** ** The matcher: which split a star settles on                         *)
(* ===================================================================== *)

Section StarFacts.
Context {R : Type}.
Implicit Types (p : N -> bool) (k : nat -> text -> option R).

Lemma star_step k pos j x s :
  k (pos + S j) (drop (S j) (x :: s)) = k (S pos + j) (drop j s).
Proof. simpl. by rewrite Nat.add_succ_r. Qed.

Lemma star_zero k pos s : k (pos + 0) (drop 0 s) = k pos s.
Proof. by rewrite Nat.add_0_r. Qed.

Lemma greedy_none p k pos s :
  greedy_star p k pos s = None <->
  forall j, j <= span p s -> k (pos + j) (drop j s) = None.
Proof.
  revert pos. induction s as [|x s IH]; intros pos.
  - simpl. split.
    + intros H j Hj. replace j with 0 by lia. by rewrite star_zero.
    + intros H. rewrite <- (star_zero k). by apply H.
  - simpl greedy_star. simpl span. destruct (p x) eqn:Hx.
    + destruct (greedy_star p k (S pos) s) eqn:Hg.
      * split; [done |]. intros H.
        assert (greedy_star p k (S pos) s = None) as Hn; [| congruence].
        apply IH. intros j Hj. rewrite <- (star_step k pos j x s). apply H. lia.
      * split.
        -- intros H0 [|j] Hj; [by rewrite star_zero |].
           rewrite star_step. apply (proj1 (IH (S pos)) Hg). lia.
        -- intros H. rewrite <- (star_zero k). apply H. lia.
    + split.
      * intros H j Hj. replace j with 0 by lia. by rewrite star_zero.
      * intros H. rewrite <- (star_zero k). by apply H.
Qed.

Lemma greedy_some p k pos s r :
  greedy_star p k pos s = Some r <->
  exists j, j <= span p s /\ k (pos + j) (drop j s) = Some r /\
            forall j', j < j' -> j' <= span p s -> k (pos + j') (drop j' s) = None.
Proof.
  revert pos r. induction s as [|x s IH]; intros pos r.
  - simpl. split.
    + intros H. exists 0. rewrite star_zero. split_and!; [simpl; lia | done | lia].
    + intros [j (Hj & Hk & _)]. replace j with 0 in Hk by lia.
      by rewrite star_zero in Hk.
  - simpl greedy_star. simpl span. destruct (p x) eqn:Hx.
    + destruct (greedy_star p k (S pos) s) eqn:Hg.
      * apply IH in Hg as [j (Hj & Hk & Hmax)]. split.
        -- intros [= <-]. exists (S j). rewrite star_step.
           split_and!; [lia | done |].
           intros [|j'] Hlt Hle; [lia |].
           rewrite star_step. apply Hmax; lia.
        -- intros [j0 (Hj0 & Hk0 & Hmax0)].
           destruct (Nat.lt_trichotomy j0 (S j)) as [Hlt | [-> | Hgt]].
           ++ specialize (Hmax0 (S j) Hlt). rewrite star_step in Hmax0.
              rewrite Hk in Hmax0. discriminate Hmax0. lia.
           ++ rewrite star_step in Hk0. congruence.
           ++ destruct j0 as [|j0]; [lia |].
              rewrite star_step in Hk0.
              rewrite Hmax in Hk0; [done | lia | lia].
      * rewrite greedy_none in Hg. split.
        -- intros Hk. exists 0. rewrite star_zero.
           split_and!; [lia | done |].
           intros [|j'] Hlt Hle; [lia |].
           rewrite star_step. apply Hg. lia.
        -- intros [[|j] (Hj & Hk & _)]; [by rewrite star_zero in Hk |].
           rewrite star_step in Hk. rewrite Hg in Hk; [done | lia].
    + split.
      * intros Hk. exists 0. rewrite star_zero. split_and!; [simpl; lia | done | lia].
      * intros [j (Hj & Hk & _)]. replace j with 0 in Hk by lia.
        by rewrite star_zero in Hk.
Qed.

(** A continuation that cannot start on a [p]-character settles the
    split: the star takes the whole run. *)
Lemma greedy_commit p k pos s :
  (forall pos' x t, p x = true -> k pos' (x :: t) = None) ->
  greedy_star p k pos s = k (pos + span p s) (drop (span p s) s).
Proof.
  intros Hk. revert pos. induction s as [|x s IH]; intros pos.
  - simpl. by rewrite Nat.add_0_r.
  - simpl greedy_star. simpl span.
    destruct (p x) eqn:Hx; [| by rewrite star_zero].
    rewrite star_step, IH.
    destruct (k (S pos + span p s) (drop (span p s) s)); [done |].
    by apply Hk.
Qed.

(** A continuation that succeeds after the whole run is taken there. *)
Lemma greedy_full p k pos s r :
  k (pos + span p s) (drop (span p s) s) = Some r ->
  greedy_star p k pos s = Some r.
Proof.
  intros Hk. apply greedy_some. exists (span p s).
  split_and!; [lia | done | lia].
Qed.

Lemma lazy_none p k pos s :
  (forall x, p x = true) ->
  lazy_star p k pos s = None <->
  forall j, j <= length s -> k (pos + j) (drop j s) = None.
Proof.
  intros Hp. revert pos. induction s as [|x s IH]; intros pos.
  - simpl. destruct (k pos []) eqn:Hk.
    + split; [done |]. intros H. specialize (H 0).
      rewrite star_zero in H. rewrite H in Hk; [done | simpl; lia].
    + split; [| done]. intros _ j Hj. simpl in Hj.
      replace j with 0 by lia. by rewrite star_zero.
  - simpl lazy_star. simpl length. destruct (k pos (x :: s)) eqn:Hk.
    + split; [done |]. intros H. specialize (H 0).
      rewrite star_zero in H. rewrite H in Hk; [done | lia].
    + rewrite Hp, IH. split.
      * intros H [|j] Hj; [by rewrite star_zero |].
        rewrite star_step. apply H. lia.
      * intros H j Hj. rewrite <- (star_step k pos j x s). apply H. lia.
Qed.

Lemma lazy_some p k pos s r :
  (forall x, p x = true) ->
  lazy_star p k pos s = Some r <->
  exists j, j <= length s /\ k (pos + j) (drop j s) = Some r /\
            forall j', j' < j -> k (pos + j') (drop j' s) = None.
Proof.
  intros Hp. revert pos. induction s as [|x s IH]; intros pos.
  - simpl. destruct (k pos []) eqn:Hk.
    + split.
      * intros [= <-]. exists 0. rewrite star_zero.
        split_and!; [simpl; lia | done | lia].
      * intros [j (Hj & Hkj & _)]. replace j with 0 in Hkj by lia.
        rewrite star_zero in Hkj. congruence.
    + split; [done |]. intros [j (Hj & Hkj & _)].
      replace j with 0 in Hkj by lia.
      rewrite star_zero in Hkj. congruence.
  - simpl lazy_star. simpl length. destruct (k pos (x :: s)) eqn:Hk.
    + split.
      * intros [= <-]. exists 0. rewrite star_zero.
        split_and!; [lia | done | lia].
      * intros [[|j] (Hj & Hkj & Hmin)].
        -- rewrite star_zero in Hkj. congruence.
        -- specialize (Hmin 0). rewrite star_zero in Hmin.
           rewrite Hmin in Hk; [done | lia].
    + rewrite Hp, IH. split.
      * intros [j (Hj & Hkj & Hmin)]. exists (S j). rewrite star_step.
        split_and!; [lia | done |].
        intros [|j'] Hlt; [by rewrite star_zero |].
        rewrite star_step. apply Hmin. lia.
      * intros [[|j] (Hj & Hkj & Hmin)].
        -- rewrite star_zero in Hkj. congruence.
        -- exists j. rewrite star_step in Hkj.
           split_and!; [lia | done |].
           intros j' Hlt. rewrite <- (star_step k pos j' x s). apply Hmin. lia.
Qed.

End StarFacts.

(* ===================================================================== *)
(** ** The matcher: literals and search                                  *)
(* ===================================================================== *)

Section MatchFacts.
Implicit Types (fl : flags) (r : list atom) (s : text).

Lemma match_here_lits fl (l : text) r pos s :
  match_here fl (map Lit l ++ r) pos s =
  if starts_like fl l s
  then match_here fl r (pos + length l) (drop (length l) s)
  else None.
Proof.
  revert pos s. induction l as [|a l IH]; intros pos s.
  - simpl. by rewrite Nat.add_0_r.
  - destruct s as [|b s]; [done |].
    simpl. destruct (chr_match fl a b); [| done].
    rewrite IH. simpl. by rewrite Nat.add_succ_r.
Qed.

Lemma starts_like_no_flags (l s : text) :
  starts_like no_flags l s = starts_with l s.
Proof.
  revert s. induction l as [|a l IH]; intros [|b s]; simpl; try done.
  by rewrite IH.
Qed.

Lemma starts_like_case_sensitive fl (l s : text) :
  ignorecase fl = false -> starts_like fl l s = starts_with l s.
Proof.
  intros Hfl. revert s. induction l as [|a l IH]; intros [|b s]; simpl; try done.
  unfold chr_match. by rewrite Hfl, IH.
Qed.

Lemma starts_like_spec fl (l s : text) :
  starts_like fl l s = true <->
  exists x t, s = x ++ t /\ like fl l x = true.
Proof.
  revert s. induction l as [|a l IH]; intros s; simpl.
  - split; [intros _; by exists [], s |]. done.
  - destruct s as [|b s].
    + split; [done |]. intros (x & t & Hs & Hx).
      destruct x; [done | discriminate].
    + rewrite andb_true_iff, IH. split.
      * intros (Hab & x & t & -> & Hx). exists (b :: x), t.
        simpl. by rewrite Hab, Hx.
      * intros (x & t & Hs & Hx). destruct x as [|b' x]; [done |].
        injection Hs as -> ->. apply andb_true_iff in Hx as [Hab Hx].
        split; [done |]. by exists x, t.
Qed.

Lemma like_length fl (l x : text) : like fl l x = true -> length x = length l.
Proof.
  revert x. induction l as [|a l IH]; intros [|b x]; simpl; try done.
  rewrite andb_true_iff. intros [_ H]. by rewrite (IH x).
Qed.

Lemma search_from_none fl r pos s :
  search_from fl r pos s = None <->
  forall j, j <= length s -> match_here fl r (pos + j) (drop j s) = None.
Proof.
  revert pos. induction s as [|x s IH]; intros pos.
  - simpl. destruct (match_here fl r pos []) as [[marks e]|] eqn:Hm.
    + split; [done |]. intros H. specialize (H 0).
      rewrite Nat.add_0_r in H. simpl in H. rewrite H in Hm; [done | lia].
    + split; [| done]. intros _ j Hj. replace j with 0 by lia.
      by rewrite Nat.add_0_r.
  - simpl search_from. simpl length.
    destruct (match_here fl r pos (x :: s)) as [[marks e]|] eqn:Hm.
    + split; [done |]. intros H. specialize (H 0).
      rewrite Nat.add_0_r in H. simpl in H. rewrite H in Hm; [done | lia].
    + rewrite IH. split.
      * intros H [|j] Hj; [by rewrite Nat.add_0_r |].
        rewrite Nat.add_succ_r. apply (H j). lia.
      * intros H j Hj. specialize (H (S j)).
        rewrite Nat.add_succ_r in H. apply H. lia.
Qed.

Lemma search_from_some fl r pos s m :
  search_from fl r pos s = Some m <->
  exists j marks e,
    j <= length s /\
    match_here fl r (pos + j) (drop j s) = Some (marks, e) /\
    m = RMatch (pos + j) marks e /\
    forall j', j' < j -> match_here fl r (pos + j') (drop j' s) = None.
Proof.
  revert pos. induction s as [|x s IH]; intros pos.
  - simpl. destruct (match_here fl r pos []) as [[marks e]|] eqn:Hm.
    + split.
      * intros [= <-]. exists 0, marks, e. rewrite Nat.add_0_r.
        split_and!; [lia | done | done | lia].
      * intros (j & marks' & e' & Hj & Hmj & -> & _).
        replace j with 0 in * by lia. rewrite Nat.add_0_r in *.
        simpl in Hmj. congruence.
    + split; [done |]. intros (j & marks' & e' & Hj & Hmj & _).
      replace j with 0 in * by lia. rewrite Nat.add_0_r in *.
      simpl in Hmj. congruence.
  - simpl search_from. simpl length.
    destruct (match_here fl r pos (x :: s)) as [[marks e]|] eqn:Hm.
    + split.
      * intros [= <-]. exists 0, marks, e. rewrite Nat.add_0_r.
        split_and!; [lia | done | done | lia].
      * intros ([|j] & marks' & e' & Hj & Hmj & -> & Hmin).
        -- rewrite Nat.add_0_r in *. simpl in Hmj. congruence.
        -- specialize (Hmin 0). rewrite Nat.add_0_r in Hmin. simpl in Hmin.
           rewrite Hmin in Hm; [done | lia].
    + rewrite IH. split.
      * intros (j & marks' & e' & Hj & Hmj & -> & Hmin).
        exists (S j), marks', e'. rewrite Nat.add_succ_r.
        split_and!; [lia | done | done |].
        intros [|j'] Hlt; [by rewrite Nat.add_0_r |].
        rewrite Nat.add_succ_r. apply (Hmin j'). lia.
      * intros ([|j] & marks' & e' & Hj & Hmj & -> & Hmin).
        -- rewrite Nat.add_0_r in Hmj. simpl in Hmj. congruence.
        -- exists j, marks', e'. rewrite Nat.add_succ_r in *.
           split_and!; [lia | done | done |].
           intros j' Hlt. specialize (Hmin (S j')).
           rewrite Nat.add_succ_r in Hmin. apply Hmin. lia.
Qed.

(** No whitespace character is one of the visible characters the
    patterns name. *)
Lemma is_space_cases (x : N) :
  is_space x = true ->
  (9 <= x <= 13 \/ 28 <= x <= 32 \/ x = 133 \/ x = 160 \/ 5760 <= x)%N.
Proof.
  unfold is_space.
  rewrite !orb_true_iff, !andb_true_iff, !N.leb_le, !N.eqb_eq. lia.
Qed.

End MatchFacts.

(* ===================================================================== *)
(** ** The patterns of the two scripts                                  *)
(* ===================================================================== *)

Section PatternFacts.
Import Injector Fixer.

Lemma match_here_end fl (l : text) pos s :
  match_here fl (Mark :: map Lit l ++ [Mark]) pos s =
  if starts_like fl l s
  then Some ([pos; pos + length l], pos + length l)
  else None.
Proof.
  change (match_here fl (Mark :: map Lit l ++ [Mark]) pos s)
    with (match match_here fl (map Lit l ++ [Mark]) pos s with
          | Some (marks, e) => Some (pos :: marks, e)
          | None => None
          end).
  rewrite match_here_lits. by destruct (starts_like fl l s).
Qed.

Lemma starts_like_space fl (c : N) (l : text) (x : N) (t : text) :
  is_space x = true ->
  (forall y, chr_match fl c y = true -> is_space y = false) ->
  starts_like fl (c :: l) (x :: t) = false.
Proof.
  intros Hx Hc. simpl. destruct (chr_match fl c x) eqn:Hcx; [| done].
  apply Hc in Hcx. congruence.
Qed.

Lemma chr_match_elem fl (c y : N) :
  chr_match fl c y = true -> In y (c :: other_case c ++ unicode_variants c).
Proof.
  unfold chr_match. destruct (ignorecase fl).
  - rewrite existsb_exists. by intros (z & Hin & ->%N.eqb_eq).
  - intros ->%N.eqb_eq. by left.
Qed.

Lemma lt_not_space fl (y : N) : chr_match fl 60 y = true -> is_space y = false.
Proof.
  intros H%chr_match_elem. vm_compute in H.
  destruct H as [<- | []]. reflexivity.
Qed.

Lemma body_re_eq :
  body_re = Mark :: map Lit (lit "</script>") ++
            Spaces :: Mark :: Mark :: map Lit (lit "</body>") ++ [Mark].
Proof. reflexivity. Qed.

Lemma body_match_here pos s :
  match_here body_flags body_re pos s =
  match adjacency_here s with
  | Some k => Some ([pos; pos + k; pos + k; pos + k + 7], pos + k + 7)
  | None => None
  end.
Proof.
  rewrite body_re_eq.
  change (match_here body_flags (Mark :: ?r) pos s)
    with (match match_here body_flags r pos s with
          | Some (marks, e) => Some (pos :: marks, e)
          | None => None
          end).
  rewrite match_here_lits. unfold adjacency_here.
  destruct (starts_like body_flags (lit "</script>") s); [| done].
  change (match_here body_flags (Spaces :: ?r) ?p ?t)
    with (greedy_star is_space (match_here body_flags r) p t).
  change (length (lit "</script>")) with 9.
  rewrite greedy_commit.
  - set (n := span is_space (drop 9 s)).
    change (match_here body_flags (Mark :: ?r) ?p ?t)
      with (match match_here body_flags r p t with
            | Some (marks, e) => Some (p :: marks, e)
            | None => None
            end).
    rewrite match_here_end, drop_drop.
    destruct (starts_like body_flags (lit "</body>") (drop (9 + n) s)); [| done].
    change (length (lit "</body>")) with 7.
    by rewrite !Nat.add_assoc.
  - intros pos' x t Hx.
    change (match_here body_flags (Mark :: ?r) ?p ?t)
      with (match match_here body_flags r p t with
            | Some (marks, e) => Some (p :: marks, e)
            | None => None
            end).
    rewrite match_here_end.
    change (lit "</body>") with (60%N :: lit "/body>").
    rewrite (starts_like_space _ _ _ _ _ Hx); [done |].
    apply lt_not_space.
Qed.

Lemma tailwind_match_here pos s :
  match_here no_flags TAILWIND_PATTERN pos s =
  if starts_with (lit "cdn.tailwindcss.com") s then Some ([], pos + 19) else None.
Proof.
  unfold TAILWIND_PATTERN, lits.
  rewrite <- (app_nil_r (map Lit _)), match_here_lits, starts_like_no_flags.
  by destruct (starts_with _ s).
Qed.

Lemma format_re_eq :
  format_re = Mark :: map Lit closing_div ++
              Mark :: Spaces :: Lit 10 :: Spaces :: Mark :: map Lit (lit "<script") ++ [Mark].
Proof. reflexivity. Qed.

Lemma drop_cons_inv (j : nat) (t : text) (x : N) (t' : text) :
  drop j t = x :: t' -> drop (S j) t = t'.
Proof.
  intros H. change (S j) with (1 + j). rewrite Nat.add_comm, <- drop_drop, H. done.
Qed.

(** After the closing [div] and [j] characters of the whitespace run the
    pattern goes on with a newline, the rest of the run and the tag. *)
Lemma format_tail_here pos (t : text) (j : nat) :
  j <= span is_space t ->
  match_here no_flags
    (Lit 10 :: Spaces :: Mark :: map Lit (lit "<script") ++ [Mark])
    (pos + j) (drop j t) =
  if (if head (drop j t) is Some 10%N then true else false)
     && starts_with (lit "<script") (drop (span is_space t) t)
  then Some ([pos + span is_space t; pos + span is_space t + 7],
             pos + span is_space t + 7)
  else None.
Proof.
  intros Hj. set (n := span is_space t) in *.
  destruct (drop j t) as [|x t'] eqn:Hd; [done |].
  change (match_here no_flags (Lit 10 :: ?r) ?p (x :: t'))
    with (if chr_match no_flags 10 x then match_here no_flags r (S p) t' else None).
  change (chr_match no_flags 10 x) with (10 =? x)%N.
  simpl head. destruct (N.eqb_spec 10 x) as [<- | Hx].
  - assert (j < n) as Hlt.
    { destruct (decide (j = n)) as [-> |]; [| lia].
      pose proof (span_stop is_space t) as Hs. fold n in Hs.
      rewrite Hd in Hs. by apply span_head in Hs. }
    apply drop_cons_inv in Hd. subst t'.
    change (match_here no_flags (Spaces :: ?r) ?p ?u)
      with (greedy_star is_space (match_here no_flags r) p u).
    rewrite greedy_commit.
    + rewrite (span_drop _ _ (S j)) by lia. fold n.
      rewrite drop_drop. replace (S j + (n - S j)) with n by lia.
      replace (S (pos + j) + (n - S j)) with (pos + n) by lia.
      rewrite match_here_end, starts_like_no_flags.
      by destruct (starts_with _ _).
    + intros pos' y u Hy. rewrite match_here_end.
      change (lit "<script") with (60%N :: lit "script").
      rewrite (starts_like_space _ _ _ _ _ Hy); [done |].
      apply lt_not_space.
  - destruct x as [|q]; [done |].
    destruct (decide (q = 10%positive)) as [-> |]; [done |].
    do 4 (destruct q as [q|q|]; try done).
Qed.

Lemma has_newline_spec (t : text) (n : nat) :
  existsb (N.eqb 10) (take n t) = true <->
  exists j, j < n /\ head (drop j t) = Some 10%N.
Proof.
  rewrite existsb_exists. split.
  - intros (x & Hin & <-%N.eqb_eq).
    apply list_elem_of_In, list_elem_of_lookup in Hin as [j Hj].
    apply lookup_take_Some in Hj as [Hj Hlt].
    exists j. split; [done |]. by rewrite head_lookup, lookup_drop, Nat.add_0_r.
  - intros (j & Hlt & Hj). exists 10%N. split; [| apply N.eqb_refl].
    apply list_elem_of_In, list_elem_of_lookup. exists j.
    apply lookup_take_Some. split; [| done].
    by rewrite head_lookup, lookup_drop, Nat.add_0_r in Hj.
Qed.

Lemma format_match_here s :
  match_here no_flags format_re 0 s =
  match format_here s with
  | Some n => Some ([0; 23; 23 + n; 30 + n], 30 + n)
  | None => None
  end.
Proof.
  rewrite format_re_eq.
  change (match_here no_flags (Mark :: ?r) 0 s)
    with (match match_here no_flags r 0 s with
          | Some (marks, e) => Some (0 :: marks, e)
          | None => None
          end).
  rewrite match_here_lits, starts_like_no_flags. unfold format_here.
  destruct (starts_with closing_div s); [| done].
  change (length closing_div) with 23. change (0 + 23) with 23.
  set (t := drop 23 s). set (n := span is_space t).
  change (match_here no_flags (Mark :: ?r) ?p ?u)
    with (match match_here no_flags r p u with
          | Some (marks, e) => Some (p :: marks, e)
          | None => None
          end).
  change (match_here no_flags (Spaces :: ?r) ?p ?u)
    with (greedy_star is_space (match_here no_flags r) p u).
  destruct (greedy_star _ _ 23 t) as [[marks e]|] eqn:Hg.
  - apply greedy_some in Hg as (j & Hj & Hk & _).
    rewrite format_tail_here in Hk by done. fold n in Hk.
    destruct (head (drop j t)) as [x|] eqn:Hh; [| done].
    destruct (decide (x = 10%N)) as [-> |];
      [| by destruct x as [|q]; [| do 4 (destruct q as [q|q|]; try done)]].
    destruct (starts_with (lit "<script") (drop n t)) eqn:Hs; [| done].
    injection Hk as <- <-.
    assert (existsb (N.eqb 10) (take n t) = true) as ->.
    { apply has_newline_spec. exists j. split; [| done].
      destruct (decide (j = n)) as [-> |]; [| lia].
      pose proof (span_stop is_space t) as Hst. fold n in Hst.
      destruct (drop n t) as [|y u]; [done |].
      apply span_head in Hst. by injection Hh as ->. }
    cbn [andb]. repeat (f_equal; try lia).
  - destruct (existsb (N.eqb 10) (take n t)) eqn:He; [| done].
    destruct (starts_with (lit "<script") (drop n t)) eqn:Hs; [| done].
    apply has_newline_spec in He as (j & Hlt & Hh).
    rewrite greedy_none in Hg. specialize (Hg j).
    rewrite format_tail_here in Hg by (fold n; lia). fold n in Hg.
    rewrite Hh, Hs in Hg. simpl in Hg. discriminate Hg. fold n. lia.
Qed.
End PatternFacts.

(* ===================================================================== *)
(** ** Search: the leftmost match of the injector patterns               *)
(* ===================================================================== *)

Section SearchFacts.
Import Injector.

Lemma first_match_none here (s : text) :
  first_match here s = None <->
  forall j, j <= length s -> here (drop j s) = None.
Proof.
  induction s as [|x s IH]; simpl.
  - destruct (here []) eqn:Hh.
    + split; [done |]. intros H. specialize (H 0). simpl in H.
      rewrite H in Hh; [done | lia].
    + split; [| done]. intros _ j Hj. by replace j with 0 by lia.
  - destruct (here (x :: s)) eqn:Hh.
    + split; [done |]. intros H. specialize (H 0). simpl in H.
      rewrite H in Hh; [done | lia].
    + destruct (first_match here s) as [[i k]|] eqn:Hf.
      * split; [done |]. intros H.
        assert (Some (i, k) = @None (nat * nat)) as Habs; [| done].
        apply IH. intros j Hj. apply (H (S j)). lia.
      * split; [| done]. intros _ [|j] Hj; [done |].
        simpl. apply (proj1 IH); [done | lia].
Qed.

Lemma first_match_some here (s : text) (i k : nat) :
  first_match here s = Some (i, k) <->
  i <= length s /\ here (drop i s) = Some k /\
  forall j, j < i -> here (drop j s) = None.
Proof.
  revert i k. induction s as [|x s IH]; intros i k; simpl.
  - destruct (here []) eqn:Hh.
    + split.
      * intros [= <- <-]. split_and!; [lia | done | lia].
      * intros (Hi & Hk & _). assert (i = 0) as -> by lia.
        simpl in Hk. congruence.
    + split; [done |]. intros (Hi & Hk & _). assert (i = 0) as -> by lia.
      simpl in Hk. congruence.
  - destruct (here (x :: s)) eqn:Hh.
    + split.
      * intros [= <- <-]. split_and!; [lia | done | lia].
      * intros (Hi & Hk & Hmin). destruct i as [|i]; [simpl in Hk; congruence |].
        specialize (Hmin 0). simpl in Hmin. rewrite Hmin in Hh; [done | lia].
    + destruct (first_match here s) as [[i' k']|] eqn:Hf.
      * destruct (proj1 (IH i' k') eq_refl) as (Hi' & Hk' & Hmin'). split.
        -- intros [= <- <-]. split_and!; [lia | done |].
           intros [|j] Hj; [done |]. apply Hmin'. lia.
        -- intros (Hi & Hk & Hmin). destruct i as [|i]; [simpl in Hk; congruence |].
           simpl in Hk.
           destruct (Nat.lt_trichotomy i i') as [Hlt | [-> | Hgt]].
           ++ rewrite Hmin' in Hk; [done | lia].
           ++ congruence.
           ++ specialize (Hmin (S i')). simpl in Hmin.
              rewrite Hmin in Hk'; [done | lia].
      * split; [done |]. intros (Hi & Hk & Hmin).
        destruct i as [|i]; [simpl in Hk; congruence |].
        simpl in Hk.
        assert (@None (nat * nat) = Some (i, k)) as Habs; [| done].
        apply (IH i k). split_and!; [lia | done |].
        intros j Hj. apply (Hmin (S j)). lia.
Qed.

(** [re.search] with a pattern whose match at an offset is described by
    [here]. *)
Lemma search_from_first fl r here (mk : nat -> nat -> list nat * nat) pos (s : text) :
  (forall pos t, match_here fl r pos t =
                 match here t with Some k => Some (mk pos k) | None => None end) ->
  search_from fl r pos s =
  match first_match here s with
  | Some (i, k) => Some (RMatch (pos + i) (mk (pos + i) k).1 (mk (pos + i) k).2)
  | None => None
  end.
Proof.
  intros Hm. revert pos. induction s as [|x s IH]; intros pos; simpl.
  - rewrite Hm. destruct (here []); [| done].
    rewrite Nat.add_0_r. by destruct (mk pos n).
  - rewrite Hm. destruct (here (x :: s)).
    + rewrite Nat.add_0_r. by destruct (mk pos n).
    + rewrite IH. destruct (first_match here s) as [[i k]|]; [| done].
      by rewrite Nat.add_succ_r.
Qed.

Lemma body_search (s : text) :
  search body_flags body_re s =
  match first_adjacency s with
  | Some (i, p) => Some (RMatch i [i; p; p; p + 7] (p + 7))
  | None => None
  end.
Proof.
  unfold search, first_adjacency.
  rewrite (search_from_first _ _ adjacency_here
             (fun pos k => ([pos; pos + k; pos + k; pos + k + 7], pos + k + 7)))
    by apply body_match_here.
  by destruct (first_match adjacency_here s) as [[i k]|].
Qed.

Lemma tailwind_search (s : text) :
  search no_flags TAILWIND_PATTERN s = None <->
  contains (lit "cdn.tailwindcss.com") s = false.
Proof.
  unfold search. rewrite search_from_none. split.
  - intros H. apply not_true_iff_false. intros [q Hq]%contains_offset.
    destruct (decide (q <= length s)) as [Hle | Hgt].
    + specialize (H q Hle). by rewrite tailwind_match_here, Hq in H.
    + by rewrite drop_ge in Hq by lia.
  - intros H j Hj. rewrite tailwind_match_here.
    destruct (starts_with _ (drop j s)) eqn:Hs; [| done].
    assert (contains (lit "cdn.tailwindcss.com") s = true) as Hc; [| congruence].
    apply contains_offset. by exists j.
Qed.
End SearchFacts.

Section MaterialFacts.
Import Injector.

Lemma material_re_eq :
  material_re = Mark :: map Lit MATERIAL ++ AnyLazy :: map Lit REL_STYLESHEET ++
                [Spaces; Opt 47; Lit 62; Spaces; Mark].
Proof. reflexivity. Qed.

Lemma starts_with_cons (a : N) (p : text) (b : N) (s : text) :
  starts_with (a :: p) (b :: s) = (a =? b)%N && starts_with p s.
Proof. reflexivity. Qed.

Lemma starts_with_nil (s : text) : starts_with [] s = true.
Proof. by destruct s. Qed.

Lemma closing_bracket_here fl pos (u : text) :
  ignorecase fl = false ->
  match_here fl [Lit 62; Spaces; Mark] pos u =
  if starts_with [62%N] u
  then Some ([pos + 1 + span is_space (drop 1 u)], pos + 1 + span is_space (drop 1 u))
  else None.
Proof.
  intros Hfl. destruct u as [|x u]; [done |].
  change (match_here fl [Lit 62; Spaces; Mark] pos (x :: u))
    with (if chr_match fl 62 x
          then greedy_star is_space (match_here fl [Mark]) (S pos) u else None).
  unfold chr_match. rewrite Hfl, starts_with_cons, starts_with_nil, andb_true_r.
  destruct (62 =? x)%N; [| done].
  rewrite (greedy_full _ _ _ _ ([S pos + span is_space u], S pos + span is_space u))
    by done.
  simpl drop. by rewrite Nat.add_1_r.
Qed.

Lemma tag_tail_here fl pos (u : text) :
  ignorecase fl = false ->
  match_here fl [Opt 47; Lit 62; Spaces; Mark] pos u =
  if starts_with [47%N; 62%N] u
  then Some ([pos + 2 + span is_space (drop 2 u)], pos + 2 + span is_space (drop 2 u))
  else if starts_with [62%N] u
  then Some ([pos + 1 + span is_space (drop 1 u)], pos + 1 + span is_space (drop 1 u))
  else None.
Proof.
  intros Hfl.
  change (match_here fl [Opt 47; Lit 62; Spaces; Mark] pos u)
    with (match
             match u with
             | x :: u' => if chr_match fl 47 x
                          then match_here fl [Lit 62; Spaces; Mark] (S pos) u' else None
             | [] => None
             end
           with
           | Some res => Some res
           | None => match_here fl [Lit 62; Spaces; Mark] pos u
           end).
  rewrite (closing_bracket_here fl pos u Hfl).
  destruct u as [|x u]; [done |].
  rewrite (closing_bracket_here fl (S pos) u Hfl).
  unfold chr_match. rewrite Hfl, !starts_with_cons.
  destruct (N.eqb_spec 47 x) as [<- | Hx]; [| done].
  destruct u as [|y u]; [done |].
  rewrite !starts_with_cons, starts_with_nil, !andb_true_r.
  change (62 =? 47)%N with false. cbn [andb].
  destruct (62 =? y)%N; [| done].
  simpl drop. replace (S pos + 1) with (pos + 2) by lia. done.
Qed.

Lemma slash_not_space fl (y : N) :
  ignorecase fl = false -> is_space y = true -> chr_match fl 47 y = false.
Proof.
  intros Hfl Hy. unfold chr_match. rewrite Hfl.
  destruct (N.eqb_spec 47 y) as [<- |]; done.
Qed.

Lemma link_tail_here pos (t : text) :
  match_here material_flags
    (map Lit REL_STYLESHEET ++ [Spaces; Opt 47; Lit 62; Spaces; Mark]) pos t =
  match closed_tag_here t with
  | Some g => Some ([pos + after_spaces g t], pos + after_spaces g t)
  | None => None
  end.
Proof.
  rewrite match_here_lits, starts_like_case_sensitive by done.
  unfold closed_tag_here.
  destruct (starts_with REL_STYLESHEET t); [| done].
  change (length REL_STYLESHEET) with 16.
  change (match_here material_flags (Spaces :: ?r) ?p ?u)
    with (greedy_star is_space (match_here material_flags r) p u).
  rewrite greedy_commit.
  - set (n := span is_space (drop 16 t)).
    rewrite tag_tail_here, drop_drop by done. unfold after_spaces.
    destruct (starts_with [47%N; 62%N] (drop (16 + n) t)).
    + rewrite drop_drop.
      replace (pos + 16 + n + 2 + span is_space (drop (16 + n + 2) t))
        with (pos + (16 + n + 2 + span is_space (drop (16 + n + 2) t))) by lia.
      done.
    + destruct (starts_with [62%N] (drop (16 + n) t)); [| done].
      rewrite drop_drop.
      replace (pos + 16 + n + 1 + span is_space (drop (16 + n + 1) t))
        with (pos + (16 + n + 1 + span is_space (drop (16 + n + 1) t))) by lia.
      done.
  - intros pos' x u Hx. rewrite tag_tail_here by done.
    rewrite !starts_with_cons.
    destruct (N.eqb_spec 47 x) as [<- |]; [done |].
    destruct (N.eqb_spec 62 x) as [<- |]; done.
Qed.

Lemma lazy_star_unfold {R} p (k : nat -> text -> option R) pos (s : text) :
  lazy_star p k pos s =
  match k pos s with
  | Some r => Some r
  | None =>
      match s with
      | x :: s' => if p x then lazy_star p k (S pos) s' else None
      | [] => None
      end
  end.
Proof. by destruct s. Qed.

Lemma first_match_unfold here (s : text) :
  first_match here s =
  match here s with
  | Some k => Some (0, k)
  | None =>
      match s with
      | [] => None
      | _ :: s' =>
          match first_match here s' with
          | Some (i, k) => Some (S i, k)
          | None => None
          end
      end
  end.
Proof. by destruct s. Qed.

Lemma lazy_first_closed_tag pos (t : text) :
  lazy_star (any_char material_flags)
    (match_here material_flags
       (map Lit REL_STYLESHEET ++ [Spaces; Opt 47; Lit 62; Spaces; Mark])) pos t =
  match first_match closed_tag_here t with
  | Some (j, g) => Some ([pos + j + after_spaces g (drop j t)],
                         pos + j + after_spaces g (drop j t))
  | None => None
  end.
Proof.
  revert pos. induction t as [|x t IH]; intros pos;
    rewrite lazy_star_unfold, first_match_unfold, link_tail_here.
  - destruct (closed_tag_here []); [| done]. by rewrite Nat.add_0_r.
  - destruct (closed_tag_here (x :: t)); [by rewrite Nat.add_0_r |].
    change (any_char material_flags x) with true. cbv iota.
    rewrite IH. destruct (first_match closed_tag_here t) as [[j g]|]; [| done].
    cbn [drop]. by rewrite Nat.add_succ_r.
Qed.

Lemma material_match_here pos (s : text) :
  match_here material_flags material_re pos s =
  match anchor_here s with
  | Some g => Some ([pos; pos + after_spaces g s], pos + after_spaces g s)
  | None => None
  end.
Proof.
  rewrite material_re_eq.
  change (match_here material_flags (Mark :: ?r) pos s)
    with (match match_here material_flags r pos s with
          | Some (marks, e) => Some (pos :: marks, e)
          | None => None
          end).
  rewrite match_here_lits, starts_like_case_sensitive by done.
  unfold anchor_here, first_closed_tag.
  destruct (starts_with MATERIAL s); [| done].
  change (length MATERIAL) with 25.
  change (match_here material_flags (AnyLazy :: ?r) ?p ?u)
    with (lazy_star (any_char material_flags) (match_here material_flags r) p u).
  rewrite lazy_first_closed_tag.
  destruct (first_match closed_tag_here (drop 25 s)) as [[j g]|]; [| done].
  unfold after_spaces. rewrite !drop_drop.
  replace (25 + (j + g)) with (25 + j + g) by lia.
  replace (pos + 25 + j + (g + span is_space (drop (25 + j + g) s)))
    with (pos + (25 + j + g + span is_space (drop (25 + j + g) s))) by lia.
  done.
Qed.

Lemma first_match_map (f : text -> nat -> nat) here (s : text) :
  first_match (fun t => match here t with Some k => Some (f t k) | None => None end) s =
  match first_match here s with
  | Some (i, k) => Some (i, f (drop i s) k)
  | None => None
  end.
Proof.
  induction s as [|x s IH]; cbn [first_match].
  - by destruct (here []).
  - destruct (here (x :: s)); [done |]. rewrite IH.
    by destruct (first_match here s) as [[i k]|].
Qed.

Lemma material_search (s : text) :
  search material_flags material_re s =
  match first_anchor s with
  | Some (i, g) => Some (RMatch i [i; after_spaces g s] (after_spaces g s))
  | None => None
  end.
Proof.
  unfold search, first_anchor.
  rewrite (search_from_first _ _
             (fun t => match anchor_here t with
                       | Some g => Some (after_spaces g t)
                       | None => None
                       end)
             (fun pos k => ([pos; pos + k], pos + k))).
  - rewrite (first_match_map (fun t g => after_spaces g t)).
    destruct (first_match anchor_here s) as [[i g]|]; [| done].
    unfold after_spaces. cbn [fst snd Nat.add]. rewrite drop_drop.
    by rewrite !Nat.add_assoc.
  - intros pos t. rewrite material_match_here. by destruct (anchor_here t).
Qed.
End MaterialFacts.

(* ===================================================================== *)
(** ** Anchors and adjacencies under the two splices                    *)
(* ===================================================================== *)

Section AnchorFacts.
Import Injector.

Lemma span_app_lt (p : N -> bool) (a b b' : text) :
  span p (a ++ b) < length a -> span p (a ++ b') = span p (a ++ b).
Proof.
  induction a as [|x a IH]; simpl; [lia |].
  destruct (p x); [| done]. intros H. rewrite IH; [done | lia].
Qed.

Lemma span_all (p : N -> bool) (a : text) :
  span p a = length a -> forallb p a = true.
Proof.
  intros H. rewrite <- (take_ge a (span p a)) by lia. apply span_take.
Qed.

Lemma starts_like_app_within fl (p a b : text) :
  length p <= length a -> starts_like fl p (a ++ b) = starts_like fl p a.
Proof.
  revert a. induction p as [|c p IH]; intros a Hlen; [done |].
  destruct a as [|x a]; [simpl in Hlen; lia |].
  simpl. rewrite IH; [done | simpl in Hlen; lia].
Qed.

Lemma starts_with_app_within (p a b : text) :
  length p <= length a -> starts_with p (a ++ b) = starts_with p a.
Proof.
  intros H. rewrite <- !starts_like_no_flags. by apply starts_like_app_within.
Qed.

Lemma starts_like_length fl (p t : text) :
  starts_like fl p t = true -> length p <= length t.
Proof.
  revert t. induction p as [|c p IH]; intros t; simpl; [lia |].
  destruct t as [|x t]; [done |]. rewrite andb_true_iff. intros [_ H].
  apply IH in H. simpl. lia.
Qed.

Lemma starts_like_lookup fl (p t : text) (d : nat) (c : N) :
  starts_like fl p t = true -> p !! d = Some c ->
  exists y, t !! d = Some y /\ chr_match fl c y = true.
Proof.
  revert t d. induction p as [|a p IH]; intros t d; [done |].
  destruct t as [|x t]; [done |]. simpl. rewrite andb_true_iff.
  intros [Hax Hp]. destruct d as [|d]; simpl.
  - intros [= <-]. by exists x.
  - by apply IH.
Qed.

Lemma adjacency_here_some (t : text) (k : nat) :
  adjacency_here t = Some k <->
  starts_like body_flags (lit "</script>") t = true /\
  k = 9 + span is_space (drop 9 t) /\
  starts_like body_flags (lit "</body>") (drop k t) = true.
Proof.
  unfold adjacency_here.
  destruct (starts_like body_flags (lit "</script>") t);
    [| split; [done | by intros (? & _)]].
  destruct (starts_like body_flags (lit "</body>") _) eqn:Hb.
  - split; [intros [= <-]; done | intros (_ & -> & _); done].
  - split; [done |]. intros (_ & -> & Hb'). congruence.
Qed.

Lemma adjacency_here_within (a b b' : text) (k : nat) :
  adjacency_here (a ++ b) = Some k -> k + 7 <= length a ->
  adjacency_here (a ++ b') = Some k.
Proof.
  rewrite !adjacency_here_some. intros (Hs & Hk & Hb) Hlen.
  assert (9 <= k) by lia.
  rewrite !drop_app_le in * by lia.
  assert (span is_space (drop 9 a ++ b') = span is_space (drop 9 a ++ b)) as Hsp.
  { apply span_app_lt. rewrite length_drop. lia. }
  split_and!.
  - rewrite starts_like_app_within in * by (simpl; lia). done.
  - by rewrite Hsp.
  - rewrite starts_like_app_within in * by (rewrite length_drop; simpl; lia). done.
Qed.

Lemma first_adjacency_some (c : text) (j p : nat) :
  first_adjacency c = Some (j, p) ->
  j <= p /\ adjacency_here (drop j c) = Some (p - j).
Proof.
  unfold first_adjacency.
  destruct (first_match adjacency_here c) as [[i k]|] eqn:Hf; [| done].
  intros [= <- <-]. apply first_match_some in Hf as (_ & Hk & _).
  split; [lia |]. by replace (i + k - i) with k by lia.
Qed.

Lemma first_adjacency_exists (c : text) (q k : nat) :
  adjacency_here (drop q c) = Some k -> exists j p, first_adjacency c = Some (j, p).
Proof.
  intros Hq. unfold first_adjacency.
  destruct (first_match adjacency_here c) as [[i k']|] eqn:Hf; [by eexists _, _ |].
  rewrite first_match_none in Hf.
  destruct (decide (q <= length c)) as [Hle | Hgt].
  - rewrite Hf in Hq; done.
  - by rewrite drop_ge in Hq by lia.
Qed.

(** The body tag of an adjacency starts with the angle bracket. *)
Lemma first_adjacency_body (c : text) (j p : nat) :
  first_adjacency c = Some (j, p) ->
  p <= length c /\ exists rest, drop p c = 60%N :: rest.
Proof.
  intros (Hjp & Hk)%first_adjacency_some.
  apply adjacency_here_some in Hk as (_ & _ & Hb).
  rewrite drop_drop in Hb. replace (j + (p - j)) with p in Hb by lia.
  pose proof (starts_like_length _ _ _ Hb) as Hlen.
  rewrite length_drop in Hlen. simpl in Hlen. split; [lia |].
  destruct (drop p c) as [|y rest]; [done |]. exists rest.
  simpl in Hb. apply andb_true_iff in Hb as [Hy _].
  apply chr_match_elem in Hy. vm_compute in Hy. by destruct Hy as [<- | []].
Qed.

Lemma drop_drop_drop (s : text) (a b c : nat) :
  drop a (drop b (drop c s)) = drop (c + b + a) s.
Proof. rewrite !drop_drop. f_equal. lia. Qed.

Lemma first_anchor_none (s : text) :
  first_anchor s = None <->
  forall i j, starts_with MATERIAL (drop i s) = true -> i + 25 <= j ->
              closed_tag_here (drop j s) = None.
Proof.
  unfold first_anchor. split.
  - destruct (first_match anchor_here s) as [[i g]|] eqn:Hf; [done |].
    intros _ i j Hi Hj. rewrite first_match_none in Hf.
    destruct (decide (j <= length s)) as [Hle | Hgt];
      [| by rewrite drop_ge by lia].
    specialize (Hf i ltac:(lia)). unfold anchor_here in Hf. rewrite Hi in Hf.
    unfold first_closed_tag in Hf.
    destruct (first_match closed_tag_here (drop 25 (drop i s)))
      as [[j' g']|] eqn:Hc; [done |].
    rewrite first_match_none in Hc. specialize (Hc (j - (i + 25))).
    rewrite drop_drop_drop in Hc.
    replace (i + 25 + (j - (i + 25))) with j in Hc by lia.
    apply Hc. rewrite !length_drop. lia.
  - intros H. destruct (first_match anchor_here s) as [[i g]|] eqn:Hf; [| done].
    exfalso. apply first_match_some in Hf as (_ & Hg & _).
    unfold anchor_here in Hg.
    destruct (starts_with MATERIAL (drop i s)) eqn:Hi; [| done].
    unfold first_closed_tag in Hg.
    destruct (first_match closed_tag_here (drop 25 (drop i s)))
      as [[j' g']|] eqn:Hc; [| done].
    apply first_match_some in Hc as (_ & Hc & _).
    rewrite drop_drop_drop in Hc. rewrite (H i (i + 25 + j')) in Hc; [done | done | lia].
Qed.

Lemma first_anchor_some (s : text) (i g : nat) :
  first_anchor s = Some (i, g) ->
  exists j g', i + 25 <= j /\ closed_tag_here (drop j s) = Some g' /\ g = j + g'.
Proof.
  unfold first_anchor.
  destruct (first_match anchor_here s) as [[i0 g0]|] eqn:Hf; [| done].
  intros [= <- <-]. apply first_match_some in Hf as (_ & Hg & _).
  unfold anchor_here in Hg.
  destruct (starts_with MATERIAL (drop i0 s)); [| done].
  unfold first_closed_tag in Hg.
  destruct (first_match closed_tag_here (drop 25 (drop i0 s)))
    as [[j' g']|] eqn:Hc; [| done].
  injection Hg as <-. apply first_match_some in Hc as (_ & Hc & _).
  rewrite drop_drop_drop in Hc.
  exists (i0 + 25 + j'), g'. split_and!; [lia | done | lia].
Qed.
End AnchorFacts.

Section SpliceAnchors.
Import Injector.

Lemma starts_with_lookup (p t : text) :
  starts_with p t = true <-> forall d c, p !! d = Some c -> t !! d = Some c.
Proof.
  revert t. induction p as [|a p IH]; intros t.
  - split; [by intros _ d c | by intros _; rewrite starts_with_nil].
  - destruct t as [|x t].
    + split; [done |]. intros H. by specialize (H 0 a eq_refl).
    + rewrite starts_with_cons, andb_true_iff, N.eqb_eq, IH. split.
      * intros [-> H] [|d] c; [done |]. apply H.
      * intros H. split.
        -- specialize (H 0 a eq_refl). by injection H.
        -- intros d c. apply (H (S d) c).
Qed.

(** A literal that holds neither end of the snippet and has a letter the
    snippet lacks occurs in the spliced text only where it occurred. *)
Lemma literal_in_splice (P X A B : text) (x0 xl y : N) (X1 X2 : text) (q : nat) :
  X = x0 :: X1 -> X = X2 ++ [xl] ->
  ~ In x0 P -> ~ In xl P -> In y P -> ~ In y X ->
  starts_with P (drop q (A ++ X ++ B)) = true ->
  (q + length P <= length A /\ starts_with P (drop q (A ++ B)) = true) \/
  (length A + length X <= q /\ starts_with P (drop (q - length X) (A ++ B)) = true).
Proof.
  intros HX0 HXl Hx0 Hxl Hy HyX Hs.
  destruct (decide (q + length P <= length A)) as [H1 | H1].
  { left. split; [done |].
    rewrite drop_app_le in * by lia.
    rewrite starts_with_app_within in * by (rewrite length_drop; lia). done. }
  destruct (decide (length A + length X <= q)) as [H2 | H2].
  { right. split; [done |].
    rewrite app_assoc, drop_app_ge in Hs by (rewrite length_app; lia).
    rewrite length_app in Hs.
    rewrite drop_app_ge by lia.
    by replace (q - length X - length A) with (q - (length A + length X)) by lia. }
  exfalso. rewrite starts_with_lookup in Hs.
  destruct (decide (q < length A)) as [H3 | H3].
  - assert (length A - q < length P) as Hd by lia.
    apply lookup_lt_is_Some in Hd as [c Hc].
    pose proof (Hs _ _ Hc) as Ht.
    rewrite lookup_drop in Ht. replace (q + (length A - q)) with (length A) in Ht by lia.
    rewrite lookup_app_r, Nat.sub_diag, HX0 in Ht by lia. simpl in Ht.
    injection Ht as <-. apply Hx0. apply list_elem_of_In.
    by apply list_elem_of_lookup_2 in Hc.
  - destruct (decide (q + length P <= length A + length X)) as [H4 | H4].
    + apply list_elem_of_In, list_elem_of_lookup in Hy as [d Hd].
      pose proof (Hs _ _ Hd) as Ht. apply lookup_lt_Some in Hd as Hlt.
      rewrite lookup_drop, lookup_app_r, lookup_app_l in Ht by lia.
      apply HyX. apply list_elem_of_In. by apply list_elem_of_lookup_2 in Ht.
    + assert (length A + length X - 1 - q < length P) as Hd.
      { assert (0 < length X) by (rewrite HX0; simpl; lia). lia. }
      apply lookup_lt_is_Some in Hd as [c Hc].
      pose proof (Hs _ _ Hc) as Ht.
      assert (0 < length X) as HXpos by (rewrite HX0; simpl; lia).
      rewrite lookup_drop, lookup_app_r, lookup_app_l in Ht by lia.
      assert (length X = length X2 + 1) as HlX
        by (rewrite HXl at 1; rewrite length_app; simpl; lia).
      replace (q + (length A + length X - 1 - q) - length A) with (length X2)
        in Ht by lia.
      rewrite HXl, lookup_app_r, Nat.sub_diag in Ht by lia.
      simpl in Ht. injection Ht as <-. apply Hxl. apply list_elem_of_In.
      by apply list_elem_of_lookup_2 in Hc.
Qed.

Lemma body_snippet_ends :
  body_snippet = 10%N :: tail body_snippet /\
  body_snippet = removelast body_snippet ++ [32%N].
Proof. split; reflexivity. Qed.

Lemma material_in_body_splice (A B : text) (q : nat) :
  starts_with MATERIAL (drop q (A ++ body_snippet ++ B)) = true ->
  (q + 25 <= length A /\ starts_with MATERIAL (drop q (A ++ B)) = true) \/
  (length A + length body_snippet <= q /\
   starts_with MATERIAL (drop (q - length body_snippet) (A ++ B)) = true).
Proof.
  destruct body_snippet_ends as [H0 Hl].
  apply (literal_in_splice MATERIAL body_snippet A B 10 32 77 _ _ q H0 Hl).
  - by apply absent_by_test.
  - by apply absent_by_test.
  - vm_compute. tauto.
  - by apply absent_by_test.
Qed.

Lemma rel_in_body_splice (A B : text) (q : nat) :
  starts_with REL_STYLESHEET (drop q (A ++ body_snippet ++ B)) = true ->
  (q + 16 <= length A /\ starts_with REL_STYLESHEET (drop q (A ++ B)) = true) \/
  (length A + length body_snippet <= q /\
   starts_with REL_STYLESHEET (drop (q - length body_snippet) (A ++ B)) = true).
Proof.
  destruct body_snippet_ends as [H0 Hl].
  apply (literal_in_splice REL_STYLESHEET body_snippet A B 10 32 121 _ _ q H0 Hl).
  - by apply absent_by_test.
  - by apply absent_by_test.
  - vm_compute. tauto.
  - by apply absent_by_test.
Qed.
End SpliceAnchors.

Section SpliceTags.
Import Injector.

Lemma span_app_ge (p : N -> bool) (a b : text) :
  length a <= span p (a ++ b) -> forallb p a = true.
Proof.
  induction a as [|x a IH]; simpl; [done |].
  destruct (p x); [| lia]. intros H. apply IH. lia.
Qed.

Lemma body_snippet_span (B : text) : span is_space (body_snippet ++ B) = 5.
Proof. reflexivity. Qed.

Lemma body_snippet_after_span (B : text) :
  exists rest, drop 5 (body_snippet ++ B) = 60%N :: rest.
Proof. eexists. reflexivity. Qed.

Lemma closed_tag_prefix (a0 B : text) :
  16 <= length a0 ->
  closed_tag_here (a0 ++ body_snippet ++ B) <> None ->
  closed_tag_here (a0 ++ B) <> None.
Proof.
  intros Hlen. unfold closed_tag_here.
  rewrite !(starts_with_app_within REL_STYLESHEET a0) by done.
  destruct (starts_with REL_STYLESHEET a0); [| done].
  rewrite !(drop_app_le a0 _ 16) by done.
  set (a := drop 16 a0).
  assert (length a = length a0 - 16) as Hla by (unfold a; by rewrite length_drop).
  destruct (decide (span is_space (a ++ body_snippet ++ B) < length a)) as [Hlt | Hge].
  - rewrite (span_app_lt is_space a (body_snippet ++ B) B Hlt).
    set (n := span is_space (a ++ body_snippet ++ B)) in *.
    rewrite !(drop_app_le a0) by lia.
    replace (drop (16 + n) a0) with (drop n a)
      by (unfold a; rewrite drop_drop; done).
    destruct (drop n a) as [|y r] eqn:Hr.
    { apply (f_equal length) in Hr. rewrite length_drop in Hr. simpl in Hr. lia. }
    change ((y :: r) ++ ?u) with (y :: r ++ u).
    rewrite !starts_with_cons, !starts_with_nil, !andb_true_r.
    destruct (N.eqb_spec 47 y) as [<- | Hy].
    + change (62 =? 47)%N with false. cbv iota.
      destruct r as [|z r]; [done |].
      change ((z :: r) ++ ?u) with (z :: r ++ u).
      rewrite !starts_with_cons, !starts_with_nil, !andb_true_r.
      by destruct (62 =? z)%N.
    + cbn [andb]. by destruct (62 =? y)%N.
  - assert (forallb is_space a = true) as Ha by (apply (span_app_ge _ _ (body_snippet ++ B)); lia).
    rewrite (span_app _ a (body_snippet ++ B)), body_snippet_span by done.
    rewrite drop_app_ge by lia.
    replace (16 + (length a + 5) - length a0) with 5 by lia.
    intros H. exfalso. apply H.
    destruct (body_snippet_after_span B) as [rest ->].
    reflexivity.
Qed.

Lemma drop_past_snippet (A X B : text) (q : nat) :
  length A + length X <= q ->
  drop q (A ++ X ++ B) = drop (q - length X) (A ++ B).
Proof.
  intros H. rewrite app_assoc, !drop_app_ge by (rewrite ?length_app; lia).
  rewrite length_app. f_equal. lia.
Qed.

Lemma closed_tag_in_body_splice (A B : text) (q : nat) :
  closed_tag_here (drop q (A ++ body_snippet ++ B)) <> None ->
  (q + 16 <= length A /\ closed_tag_here (drop q (A ++ B)) <> None) \/
  (length A + length body_snippet <= q /\
   closed_tag_here (drop (q - length body_snippet) (A ++ B)) <> None).
Proof.
  intros H.
  assert (starts_with REL_STYLESHEET (drop q (A ++ body_snippet ++ B)) = true) as Hrel.
  { unfold closed_tag_here in H. by destruct (starts_with REL_STYLESHEET _). }
  apply rel_in_body_splice in Hrel as [[Hq _] | [Hq _]].
  - left. split; [done |].
    rewrite drop_app_le in * by lia.
    apply closed_tag_prefix; [rewrite length_drop; lia | done].
  - right. split; [done |]. by rewrite drop_past_snippet in H.
Qed.

(** Splicing the script fragment in creates no head anchor. *)
Lemma no_anchor_after_body_splice (c : text) (p : nat) :
  first_anchor c = None -> first_anchor (splice p body_snippet c) = None.
Proof.
  rewrite !first_anchor_none. intros H i j Hi Hj. unfold splice in *.
  destruct (closed_tag_here (drop j _)) as [g|] eqn:Hg; [| done].
  exfalso.
  assert (closed_tag_here (drop j (take p c ++ body_snippet ++ drop p c)) <> None)
    as Hg' by congruence.
  apply material_in_body_splice in Hi. apply closed_tag_in_body_splice in Hg'.
  rewrite !take_drop in *.
  destruct Hi as [[Hi1 Hi2] | [Hi1 Hi2]], Hg' as [[Hg1 Hg2] | [Hg1 Hg2]].
  - apply Hg2. by apply (H i j).
  - apply Hg2. apply (H i _ Hi2). lia.
  - lia.
  - apply Hg2. apply (H _ _ Hi2). lia.
Qed.
End SpliceTags.

Section AnchorEnd.
Import Injector.

Lemma span_lookup (p : N -> bool) (s : text) (d : nat) :
  d < span p s -> exists y, s !! d = Some y /\ p y = true.
Proof.
  revert d. induction s as [|x s IH]; intros d; simpl; [lia |].
  destruct (p x) eqn:Hx; [| lia]. destruct d as [|d]; [by exists x |].
  intros H. apply IH. lia.
Qed.

Lemma span_stop_lookup (p : N -> bool) (s : text) (y : N) :
  s !! span p s = Some y -> p y = false.
Proof.
  induction s as [|x s IH]; simpl; [done |].
  destruct (p x) eqn:Hx; simpl; [done | congruence].
Qed.

Lemma starts_with_drop_lookup (p t : text) (k d : nat) (c : N) :
  starts_with p (drop k t) = true -> p !! d = Some c -> t !! (k + d) = Some c.
Proof.
  rewrite starts_with_lookup. intros H Hd. rewrite <- lookup_drop. by apply H.
Qed.

(** Where a closed stylesheet tag ends: on the angle bracket, which
    follows a slash, the quote of the attribute or a space. *)
Lemma closed_tag_end (t : text) (g : nat) :
  closed_tag_here t = Some g ->
  17 <= g /\ g <= length t /\ t !! (g - 1) = Some 62%N /\
  exists y, t !! (g - 2) = Some y /\ (y = 47%N \/ y = 34%N \/ is_space y = true).
Proof.
  unfold closed_tag_here.
  destruct (starts_with REL_STYLESHEET t) eqn:Hrel; [| done].
  set (n := span is_space (drop 16 t)).
  destruct (starts_with [47%N; 62%N] (drop (16 + n) t)) eqn:H1.
  - intros Hg. assert (g = 16 + n + 2) as -> by congruence. clear Hg.
    pose proof (starts_with_drop_lookup _ _ _ 0 47%N H1 eq_refl) as Ha.
    pose proof (starts_with_drop_lookup _ _ _ 1 62%N H1 eq_refl) as Hb.
    apply lookup_lt_Some in Hb as Hlen.
    split_and!; [lia | lia | |].
    + by replace (16 + n + 2 - 1) with (16 + n + 1) by lia.
    + exists 47%N. replace (16 + n + 2 - 2) with (16 + n + 0) by lia. by split; [| left].
  - destruct (starts_with [62%N] (drop (16 + n) t)) eqn:H2; [| done].
    intros Hg. assert (g = 16 + n + 1) as -> by congruence. clear Hg.
    pose proof (starts_with_drop_lookup _ _ _ 0 62%N H2 eq_refl) as Ha.
    apply lookup_lt_Some in Ha as Hlen.
    split_and!; [lia | lia | |].
    + by replace (16 + n + 1 - 1) with (16 + n + 0) by lia.
    + destruct (decide (n = 0)) as [Hn | Hn].
      * exists 34%N. split; [| by right; left].
        replace (16 + n + 1 - 2) with (0 + 15) by lia.
        apply (starts_with_drop_lookup REL_STYLESHEET t 0 15 34%N); [done | reflexivity].
      * destruct (span_lookup is_space (drop 16 t) (n - 1)) as (y & Hy & Hsp);
          [fold n; lia |].
        exists y. rewrite lookup_drop in Hy.
        replace (16 + n + 1 - 2) with (16 + (n - 1)) by lia. by split; [| right; right].
Qed.

Lemma starts_like_variant fl (p t : text) (d : nat) :
  starts_like fl p t = true -> d < length p ->
  exists c y, p !! d = Some c /\ t !! d = Some y /\ In y (variants c).
Proof.
  intros Hs Hd. apply lookup_lt_is_Some in Hd as [c Hc].
  destruct (starts_like_lookup _ _ _ _ _ Hs Hc) as (y & Hy & Hm).
  exists c, y. split_and!; [done | done |]. by apply chr_match_elem in Hm.
Qed.

Lemma tag_letters_solid :
  forallb (fun c => forallb (fun y => negb (is_space y)) (variants c))
          (lit "</script>") = true /\
  forallb (fun c => forallb (fun y => negb (is_space y)) (variants c))
          (lit "</body>") = true /\
  forallb (fun c => forallb (fun y => negb (y =? 62)%N) (variants c))
          (take 8 (lit "</script>")) = true /\
  forallb (fun c => forallb (fun y => negb (y =? 62)%N) (variants c))
          (take 6 (lit "</body>")) = true.
Proof. split_and!; reflexivity. Qed.

Lemma forallb_lookup {A} (f : A -> bool) (l : list A) (d : nat) (x : A) :
  forallb f l = true -> l !! d = Some x -> f x = true.
Proof.
  rewrite forallb_forall. intros H Hd. apply H, list_elem_of_In.
  by apply list_elem_of_lookup_2 in Hd.
Qed.

Lemma forallb_In {A} (f : A -> bool) (l : list A) (x : A) :
  forallb f l = true -> In x l -> f x = true.
Proof. rewrite forallb_forall. auto. Qed.

(** The characters of an adjacency: two tags without whitespace, with
    their only closing brackets at their ends, around whitespace. *)
Lemma adjacency_chars (t : text) (k : nat) :
  adjacency_here t = Some k ->
  9 <= k /\
  (forall d, d < 9 -> exists y, t !! d = Some y /\ is_space y = false /\
                                (y = 62%N -> d = 8) /\
                                (d = 7 -> y <> 47%N /\ y <> 34%N)) /\
  (forall d, 9 <= d < k -> exists y, t !! d = Some y /\ is_space y = true) /\
  (forall d, d < 6 -> exists y, t !! (k + d) = Some y /\ is_space y = false /\ y <> 62%N).
Proof.
  destruct tag_letters_solid as (Hs1 & Hs2 & Hb1 & Hb2).
  intros (Hs & -> & Hb)%adjacency_here_some. split_and!.
  - lia.
  - intros d Hd.
    destruct (starts_like_variant _ _ _ d Hs) as (c & y & Hc & Hy & Hin); [simpl; lia |].
    exists y. split_and!; [done | | |].
    + pose proof (forallb_In _ _ _ (forallb_lookup _ _ _ _ Hs1 Hc) Hin) as H.
      by apply negb_true_iff in H.
    + intros ->. destruct (decide (d = 8)) as [| Hne]; [done |].
      assert (take 8 (lit "</script>") !! d = Some c) as Hc'
        by (rewrite lookup_take, decide_True by lia; done).
      by pose proof (forallb_In _ _ _ (forallb_lookup _ _ _ _ Hb1 Hc') Hin).
    + intros ->. injection Hc as <-. vm_compute in Hin.
      destruct Hin as [<- | [<- | []]]; done.
  - intros d Hd.
    destruct (span_lookup is_space (drop 9 t) (d - 9)) as (y & Hy & Hsp); [lia |].
    exists y. rewrite lookup_drop in Hy.
    by replace (9 + (d - 9)) with d in Hy by lia.
  - intros d Hd.
    destruct (starts_like_variant _ _ _ d Hb) as (c & y & Hc & Hy & Hin); [simpl; lia |].
    exists y. rewrite lookup_drop in Hy. split_and!; [done | |].
    + pose proof (forallb_In _ _ _ (forallb_lookup _ _ _ _ Hs2 Hc) Hin) as H.
      by apply negb_true_iff in H.
    + intros ->.
      assert (take 6 (lit "</body>") !! d = Some c) as Hc'
        by (rewrite lookup_take, decide_True by lia; done).
      by pose proof (forallb_In _ _ _ (forallb_lookup _ _ _ _ Hb2 Hc') Hin).
Qed.
End AnchorEnd.

Section HeadSplice.
Import Injector.

Lemma after_spaces_le (g : nat) (c : text) :
  g <= length c -> g <= after_spaces g c <= length c.
Proof.
  intros Hg. unfold after_spaces.
  pose proof (span_le is_space (drop g c)) as H. rewrite length_drop in H. lia.
Qed.

(** The offset at which step 1 splices lies in no adjacency. *)
Lemma anchor_end_outside (c : text) (i g q k : nat) :
  first_anchor c = Some (i, g) ->
  adjacency_here (drop q c) = Some k ->
  after_spaces g c <= q \/ q + k + 7 <= after_spaces g c.
Proof.
  intros (j & g' & Hj & Htag & ->)%first_anchor_some Hadj.
  apply closed_tag_end in Htag as (Hg17 & Hglen & Hbr & y3 & Hy3 & Hy3c).
  rewrite length_drop in Hglen. rewrite lookup_drop in Hbr, Hy3.
  apply adjacency_chars in Hadj as (Hk9 & Hscript & Hws & Hbody).
  set (g := j + g') in *. set (e := after_spaces g c).
  assert (g <= e <= length c) as He by (apply after_spaces_le; unfold g; lia).
  destruct (decide (e <= q)) as [| Hlo]; [by left |].
  destruct (decide (q + k + 7 <= e)) as [| Hhi]; [by right |].
  exfalso.
  assert (forall d, g <= d < e -> exists y, c !! d = Some y /\ is_space y = true) as Hrun.
  { intros d Hd.
    destruct (span_lookup is_space (drop g c) (d - g)) as (y & Hy & Hsp);
      [unfold e, after_spaces in Hd; lia |].
    exists y. rewrite lookup_drop in Hy.
    by replace (g + (d - g)) with d in Hy by lia. }
  assert (forall y, c !! e = Some y -> is_space y = false) as Hstop.
  { intros y Hy. apply (span_stop_lookup is_space (drop g c)).
    rewrite lookup_drop. exact Hy. }
  assert (c !! (g - 1) = Some 62%N) as Hbr'
    by (replace (g - 1) with (j + (g' - 1)) by (unfold g; lia); done).
  assert (c !! (g - 2) = Some y3) as Hy3'
    by (replace (g - 2) with (j + (g' - 2)) by (unfold g; lia); done).
  assert (forall d y, c !! (q + d) = Some y -> drop q c !! d = Some y) as Hq
    by (intros d y Hd; by rewrite lookup_drop).
  (* the tag of the anchor ends on the bracket of the script tag *)
  assert (g - 1 = q + 8 -> False) as Hclash.
  { intros Hg8. destruct (Hscript 7 ltac:(lia)) as (y & Hy & Hsp & _ & H7).
    rewrite lookup_drop in Hy. replace (q + 7) with (g - 2) in Hy by lia.
    rewrite Hy3' in Hy. injection Hy as ->.
    destruct (H7 eq_refl) as [H47 H34].
    destruct Hy3c as [-> | [-> | Hy3c]]; [done | done | congruence]. }
  destruct (decide (e - 1 - q < 9)) as [Hd1 | Hd1].
  - destruct (Hscript (e - 1 - q) Hd1) as (y & Hy & Hsp & H62 & _).
    rewrite lookup_drop in Hy. replace (q + (e - 1 - q)) with (e - 1) in Hy by lia.
    destruct (decide (g = e)) as [Hge | Hge].
    + rewrite <- Hge, Hbr' in Hy. injection Hy as <-.
      specialize (H62 eq_refl). apply Hclash. lia.
    + destruct (Hrun (e - 1) ltac:(lia)) as (y' & Hy' & Hsp'). congruence.
  - destruct (decide (e - 1 - q < k)) as [Hd2 | Hd2].
    + destruct (decide (e - q < k)) as [Hlt | Hge].
      * destruct (Hws (e - q) ltac:(lia)) as (y & Hy & Hsp).
        rewrite lookup_drop in Hy. replace (q + (e - q)) with e in Hy by lia.
        apply Hstop in Hy. congruence.
      * destruct (decide (q + 9 <= g - 1)) as [Hin | Hout].
        -- destruct (Hws (g - 1 - q) ltac:(lia)) as (y & Hy & Hsp).
           rewrite lookup_drop in Hy.
           replace (q + (g - 1 - q)) with (g - 1) in Hy by lia.
           rewrite Hbr' in Hy. by injection Hy as <-.
        -- destruct (decide (g - 1 = q + 8)) as [Heq | Hne]; [by apply Hclash |].
           destruct (Hscript 8 ltac:(lia)) as (y & Hy & Hsp & _).
           rewrite lookup_drop in Hy.
           destruct (Hrun (q + 8) ltac:(lia)) as (y' & Hy' & Hsp'). congruence.
    + destruct (Hbody (e - 1 - q - k) ltac:(lia)) as (y & Hy & Hsp & H62).
      rewrite lookup_drop in Hy.
      replace (q + (k + (e - 1 - q - k))) with (e - 1) in Hy by lia.
      destruct (decide (g = e)) as [Hge | Hge].
      * rewrite <- Hge, Hbr' in Hy. by injection Hy as <-.
      * destruct (Hrun (e - 1) ltac:(lia)) as (y' & Hy' & Hsp'). congruence.
Qed.

(** The adjacency of the original text is still there after step 1. *)
Lemma adjacency_survives_head (c : text) (i g q p : nat) :
  first_anchor c = Some (i, g) -> first_adjacency c = Some (q, p) ->
  exists q' p', first_adjacency (head_text c) = Some (q', p').
Proof.
  intros Ha (Hqp & Hadj)%first_adjacency_some.
  unfold head_text. rewrite Ha.
  pose proof (first_anchor_some _ _ _ Ha) as (j & g' & _ & Htag & Hg).
  apply closed_tag_end in Htag as (Hg17 & Hglen & _). rewrite length_drop in Hglen.
  assert (g <= after_spaces g c <= length c) as He by (apply after_spaces_le; lia).
  destruct (anchor_end_outside c i g q (p - q) Ha Hadj) as [Hlo | Hhi].
  - apply (first_adjacency_exists _ (q + length head_snippet) (p - q)).
    by rewrite drop_splice_after by lia.
  - apply (first_adjacency_exists _ q (p - q)).
    rewrite drop_splice_before by lia.
    rewrite <- (take_drop (after_spaces g c) c) in Hadj at 1.
    rewrite drop_app_le in Hadj by (rewrite length_take; lia).
    apply (adjacency_here_within _ _ _ _ Hadj).
    rewrite length_drop, length_take. lia.
Qed.
End HeadSplice.

(* ===================================================================== *)
(** ** The substitution of the fixer                                    *)
(* ===================================================================== *)

Section SubFacts.
Import Fixer.

Lemma starts_with_take (p s : text) :
  starts_with p s = true -> take (length p) s = p.
Proof.
  intros [t ->]%starts_with_spec. by rewrite take_app_length.
Qed.

Lemma sub_from_skip fl r repl (skip : nat) (s : text) :
  sub_from fl r repl skip s = sub_from fl r repl 0 (drop skip s).
Proof.
  revert skip. induction s as [|x s IH]; intros [|skip]; try done.
  simpl. apply IH.
Qed.

Lemma format_here_some (s : text) (n : nat) :
  format_here s = Some n ->
  exists w rest,
    s = closing_div ++ w ++ lit "<script" ++ rest /\
    length w = n /\ forallb is_space w = true /\ In 10%N w.
Proof.
  unfold format_here.
  destruct (starts_with closing_div s) eqn:Hc; [| done].
  apply starts_with_spec in Hc as [t ->].
  change 23 with (length closing_div). rewrite drop_app_length.
  destruct (existsb _ _) eqn:He; [| done].
  destruct (starts_with (lit "<script") _) eqn:Hs; [| done].
  intros [= <-]. apply starts_with_spec in Hs as [rest Hrest].
  exists (take (span is_space t) t), rest. split_and!.
  - by rewrite <- Hrest, take_drop.
  - rewrite length_take. pose proof (span_le is_space t). lia.
  - apply span_take.
  - apply existsb_exists in He as (x & Hin & <-%N.eqb_eq). done.
Qed.

Lemma span_script (rest : text) : span is_space (lit "<script" ++ rest) = 0.
Proof. reflexivity. Qed.

Lemma format_here_intro (w rest : text) :
  forallb is_space w = true -> In 10%N w ->
  format_here (closing_div ++ w ++ lit "<script" ++ rest) = Some (length w).
Proof.
  intros Hw Hin. unfold format_here.
  rewrite starts_with_app.
  change 23 with (length closing_div). rewrite drop_app_length.
  rewrite span_app, span_script, Nat.add_0_r by done.
  rewrite take_app_length, drop_app_length, starts_with_app.
  assert (existsb (N.eqb 10) w = true) as ->; [| done].
  apply existsb_exists. exists 10%N. split; [done | apply N.eqb_refl].
Qed.

Lemma sub_from_cons fl r repl (x : N) (s : text) :
  sub_from fl r repl 0 (x :: s) =
  match match_here fl r 0 (x :: s) with
  | Some (marks, S n) =>
      expand repl (RMatch 0 marks (S n)) (x :: s) ++ sub_from fl r repl n s
  | _ => x :: sub_from fl r repl 0 s
  end.
Proof. reflexivity. Qed.

Lemma reformat_nil : reformat [] = [].
Proof. reflexivity. Qed.

Lemma reformat_copy (x : N) (s : text) :
  format_here (x :: s) = None -> reformat (x :: s) = x :: reformat s.
Proof.
  intros H. unfold reformat, sub.
  by rewrite sub_from_cons, format_match_here, H.
Qed.

Lemma expand_format (a b c d e : nat) (s : text) :
  expand format_repl (RMatch 0 [a; b; c; d] e) s =
  slice a b s ++ (nl ++ lit "    ") ++ slice c d s.
Proof. unfold expand. simpl. by rewrite app_nil_r. Qed.

Lemma reformat_match (s : text) (n : nat) :
  format_here s = Some n ->
  reformat s = fixed_form ++ reformat (drop (30 + n) s).
Proof.
  intros H. pose proof (format_here_some _ _ H) as (w & rest & Hs & Hn & _ & _).
  destruct s as [|x s']; [done |].
  unfold reformat, sub.
  rewrite sub_from_cons, format_match_here, H. change (30 + n) with (S (29 + n)).
  f_equal; [| by rewrite sub_from_skip].
  rewrite Hs, expand_format. unfold slice.
  change (drop 0 ?l) with l. rewrite Nat.sub_0_r.
  change 23 with (length closing_div) at 1. rewrite take_app_length.
  replace (S (29 + n) - (23 + n)) with (length (lit "<script")) by (simpl; lia).
  replace (23 + n) with (length (closing_div ++ w))
    by (rewrite length_app; simpl; lia).
  by rewrite (app_assoc closing_div w), drop_app_length, take_app_length.
Qed.

Lemma fixed_form_here (u : text) : format_here (fixed_form ++ u) = Some 5.
Proof. reflexivity. Qed.

Lemma reformat_fixed_form (u : text) :
  reformat (fixed_form ++ u) = fixed_form ++ reformat u.
Proof.
  rewrite (reformat_match _ 5) by apply fixed_form_here.
  change (30 + 5) with (length fixed_form). by rewrite drop_app_length.
Qed.

End SubFacts.

Section ReformatFacts.
Import Fixer.

(** Every match begins with the letter t, and so does what replaces it:
    up to its first t the output is the input. *)
Lemma reformat_prefix (x s : text) :
  ~ In 116%N x ->
  starts_with (x ++ [116%N]) (reformat s) = true ->
  starts_with (x ++ [116%N]) s = true.
Proof.
  revert s. induction x as [|a x IH]; intros s Hx.
  - destruct (format_here s) as [n|] eqn:Hf.
    + intros _. apply format_here_some in Hf as (w & rest & -> & _). done.
    + destruct s as [|y s]; [done |]. by rewrite reformat_copy.
  - destruct (format_here s) as [n|] eqn:Hf.
    + rewrite (reformat_match _ _ Hf).
      change (starts_with ((a :: x) ++ [116%N]) (fixed_form ++ ?u))
        with ((a =? 116)%N && starts_with (x ++ [116%N]) (tail fixed_form ++ u)).
      destruct (N.eqb_spec a 116) as [-> |]; [| done].
      destruct Hx. by left.
    + destruct s as [|y s]; [done |]. rewrite reformat_copy by done.
      simpl. rewrite !andb_true_iff. intros [Hay Hs]. split; [done |].
      apply IH; [| done]. intros Hin. apply Hx. by right.
Qed.

Lemma space_not_t (w : text) : forallb is_space w = true -> ~ In 116%N w.
Proof.
  intros Hw Hin. rewrite forallb_forall in Hw. by apply Hw in Hin.
Qed.

(** A match in front of scanned text was a match in front of the text. *)
Lemma format_here_reformat (y : N) (s : text) (n : nat) :
  format_here (y :: reformat s) = Some n -> format_here (y :: s) = Some n.
Proof.
  intros Hf. apply format_here_some in Hf as (w & rest & Hs & <- & Hw & Hnl).
  change closing_div with (116%N :: tail closing_div) in Hs.
  injection Hs as -> Hs.
  assert (starts_with ((tail closing_div ++ w ++ lit "<scrip") ++ [116%N])
                      (reformat s) = true) as Hp.
  { apply starts_with_spec. exists rest. rewrite Hs.
    rewrite <- !app_assoc. reflexivity. }
  apply reformat_prefix in Hp as [rest' ->]%starts_with_spec.
  - replace (116%N :: ((tail closing_div ++ w ++ lit "<scrip") ++ [116%N]) ++ rest')
      with (closing_div ++ w ++ lit "<script" ++ rest').
    + by apply format_here_intro.
    + change closing_div with (116%N :: tail closing_div).
      rewrite <- !app_assoc. reflexivity.
  - rewrite !in_app_iff. intros [Hin | [Hin | Hin]].
    + by apply absent_by_test in Hin.
    + by apply space_not_t in Hin.
    + by apply absent_by_test in Hin.
Qed.

Theorem reformat_idempotent (s : text) : reformat (reformat s) = reformat s.
Proof.
  induction s as [s IH] using (induction_ltof1 _ (@length N)).
  unfold ltof in IH.
  destruct (format_here s) as [n|] eqn:Hf.
  - rewrite (reformat_match _ _ Hf), reformat_fixed_form. f_equal.
    apply IH. apply format_here_some in Hf as (w & rest & -> & _).
    rewrite length_drop, !length_app. simpl. lia.
  - destruct s as [|y s]; [done |]. rewrite reformat_copy by done.
    rewrite reformat_copy.
    + f_equal. apply IH. simpl. lia.
    + destruct (format_here (y :: reformat s)) as [m|] eqn:Hm; [| done].
      apply format_here_reformat in Hm. congruence.
Qed.

(** What follows an offset of the output: the output for a suffix of the
    input, or the rest of a replacement and then such an output. *)
Lemma reformat_tails (s : text) (q : nat) :
  q <= length (reformat s) ->
  (exists i, drop q (reformat s) = reformat (drop i s)) \/
  (exists i n k,
      format_here (drop i s) = Some n /\ 0 < k < 35 /\
      drop q (reformat s) = drop k fixed_form ++ reformat (drop (i + (30 + n)) s)).
Proof.
  revert q. induction s as [s IH] using (induction_ltof1 _ (@length N)).
  unfold ltof in IH. intros q Hq.
  destruct (decide (q = 0)) as [-> | Hq0]; [left; by exists 0 |].
  destruct (format_here s) as [n|] eqn:Hf.
  - rewrite (reformat_match _ _ Hf) in *.
    destruct (decide (q < 35)) as [Hlt | Hge].
    + right. exists 0, n, q. split_and!; [done | lia | lia |].
      rewrite drop_app_le; [done |]. change (length fixed_form) with 35. lia.
    + rewrite drop_app_ge by (change (length fixed_form) with 35; lia).
      change (length fixed_form) with 35.
      rewrite length_app in Hq. change (length fixed_form) with 35 in Hq.
      destruct (IH (drop (30 + n) s)) with (q := q - 35)
        as [[i Hi] | (i & m & k & Hm & Hk & Hi)].
      * apply format_here_some in Hf as (w & rest & -> & _).
        rewrite length_drop, !length_app. simpl. lia.
      * lia.
      * left. exists (30 + n + i). by rewrite Hi, drop_drop.
      * right. exists (30 + n + i), m, k. rewrite drop_drop in Hm, Hi.
        split_and!; [done | lia | lia |].
        replace (30 + n + i + (30 + m)) with (30 + n + (i + (30 + m))) by lia.
        done.
  - destruct s as [|y s]; [simpl in Hq; lia |].
    rewrite reformat_copy in * by done.
    destruct q as [|q]; [done |]. simpl in Hq. cbn [drop].
    destruct (IH s) with (q := q)
      as [[i Hi] | (i & m & k & Hm & Hk & Hi)]; [simpl; lia | lia | |].
    + left. by exists (S i).
    + right. by exists (S i), m, k.
Qed.

End ReformatFacts.

Section ReformatOccurrences.
Import Fixer.

Lemma rest_of_fixed_form (k : nat) (u : text) (n : nat) :
  0 < k < 35 -> format_here (drop k fixed_form ++ u) = Some n -> k = 34.
Proof.
  intros Hk Hf.
  do 35 (destruct k as [|k]; [first [lia | done | by vm_compute in Hf] |]).
  lia.
Qed.

Lemma overlap_form_eq : overlap_form = lit "<script" ++ tail closing_div.
Proof. reflexivity. Qed.

(** Unless a marker starts on the last letter of a matched script tag,
    every occurrence left in the output is in the normal form. *)
Lemma reformat_normal (c : text) (q n : nat) :
  contains overlap_form c = false ->
  format_here (drop q (reformat c)) = Some n ->
  n = 5 /\ starts_with fixed_form (drop q (reformat c)) = true.
Proof.
  intros Hov Hf.
  destruct (decide (q <= length (reformat c))) as [Hq | Hq];
    [| by rewrite drop_ge in Hf by lia].
  destruct (reformat_tails c q Hq) as [[i Hi] | (i & m & k & Hm & Hk & Hi)];
    rewrite Hi in *.
  - destruct (format_here (drop i c)) as [m|] eqn:Hm.
    + rewrite (reformat_match _ _ Hm) in *.
      rewrite fixed_form_here in Hf. injection Hf as <-.
      by rewrite starts_with_app.
    + destruct (drop i c) as [|y t]; [done |].
      rewrite reformat_copy in Hf by done.
      apply format_here_reformat in Hf. congruence.
  - pose proof (rest_of_fixed_form _ _ _ Hk Hf) as ->.
    change (drop 34 fixed_form ++ ?u) with (116%N :: u) in Hf.
    apply format_here_reformat, format_here_some in Hf
      as (w & rest & Hs & _).
    apply format_here_some in Hm as (w0 & rest0 & Hs0 & Hw0 & _).
    rewrite <- drop_drop, Hs0 in Hs.
    replace (30 + m) with (length (closing_div ++ w0 ++ lit "<script")) in Hs
      by (rewrite !length_app; simpl; lia).
    rewrite !app_assoc, drop_app_length in Hs.
    rewrite <- !app_assoc in Hs.
    change closing_div with (116%N :: tail closing_div) in Hs.
    injection Hs as ->.
    assert (contains overlap_form c = true) as Hc; [| congruence].
    apply contains_spec.
    exists (take i c ++ closing_div ++ w0), (w ++ lit "<script" ++ rest).
    rewrite <- (take_drop i c) at 1. rewrite Hs0, overlap_form_eq.
    by rewrite <- !app_assoc.
Qed.

Lemma unix_adjacency_here (b : text) : format_here (unix_adjacency ++ b) = Some 1.
Proof. reflexivity. Qed.

Lemma windows_adjacency_here (b : text) :
  format_here (windows_adjacency ++ b) = Some 2.
Proof. reflexivity. Qed.

Lemma reformat_clears (c : text) :
  contains overlap_form c = false ->
  contains unix_adjacency (reformat c) = false /\
  contains windows_adjacency (reformat c) = false.
Proof.
  intros Hov. split; apply not_true_iff_false;
    intros [q [t Ht]%starts_with_spec]%contains_offset.
  - pose proof (unix_adjacency_here t) as Hf. rewrite <- Ht in Hf.
    by apply reformat_normal in Hf as [? _].
  - pose proof (windows_adjacency_here t) as Hf. rewrite <- Ht in Hf.
    by apply reformat_normal in Hf as [? _].
Qed.

Lemma reformat_fixes (c : text) :
  contains unix_adjacency c = true ->
  contains fixed_form (reformat c) = true.
Proof.
  induction c as [|x c IH]; [done |].
  destruct (format_here (x :: c)) as [n|] eqn:Hf.
  - intros _. rewrite (reformat_match _ _ Hf).
    apply (contains_intro fixed_form []).
  - rewrite reformat_copy, contains_cons by done.
    destruct (starts_with unix_adjacency (x :: c)) eqn:Hs.
    + apply starts_with_spec in Hs as [t Ht].
      by rewrite Ht, unix_adjacency_here in Hf.
    + simpl. intros Hc. rewrite (IH Hc). apply orb_true_r.
Qed.

Lemma format_here_app (s t : text) (n : nat) :
  format_here s = Some n -> format_here (s ++ t) = Some n.
Proof.
  intros (w & rest & -> & <- & Hw & Hnl)%format_here_some.
  rewrite <- !app_assoc. by apply format_here_intro.
Qed.

Lemma format_here_within (s t : text) (n : nat) :
  format_here (s ++ t) = Some n -> 30 + n <= length s ->
  format_here s = Some n.
Proof.
  intros (w & rest & Hs & <- & Hw & Hnl)%format_here_some Hlen.
  assert (s = closing_div ++ w ++ lit "<script" ++ drop (30 + length w) s) as ->.
  { rewrite <- (take_drop (30 + length w) s) at 1.
    rewrite !app_assoc. f_equal.
    rewrite <- (take_app_le s t) by done. rewrite Hs, !app_assoc.
    rewrite take_app_length'; [done |]. rewrite !length_app. simpl. lia. }
  by apply format_here_intro.
Qed.

(** Scanning a text in two parts, when no match straddles the cut. *)
Lemma reformat_app (s t : text) :
  (forall i n, format_here (drop i s ++ t) = Some n -> i < length s ->
               i + (30 + n) <= length s) ->
  reformat (s ++ t) = reformat s ++ reformat t.
Proof.
  induction s as [s IH] using (induction_ltof1 _ (@length N)).
  unfold ltof in IH. intros Hcut.
  destruct s as [|x s]; [done |].
  destruct (format_here ((x :: s) ++ t)) as [n|] eqn:Hf.
  - pose proof (Hcut 0 n Hf ltac:(simpl; lia)) as Hlen.
    pose proof (format_here_within _ _ _ Hf Hlen) as Hs.
    rewrite (reformat_match _ _ Hf), (reformat_match _ _ Hs).
    rewrite drop_app_le by done. rewrite <- app_assoc. f_equal.
    apply IH.
    + rewrite length_drop. simpl. lia.
    + intros i m Hm Hi. rewrite drop_drop in Hm. rewrite length_drop in *.
      specialize (Hcut _ _ Hm). lia.
  - assert (format_here (x :: s) = None) as Hs.
    { destruct (format_here (x :: s)) as [m|] eqn:Hm; [| done].
      apply (format_here_app _ t) in Hm. congruence. }
    change ((x :: s) ++ t) with (x :: s ++ t) in *.
    rewrite !reformat_copy by done. simpl. f_equal. apply IH; [simpl; lia |].
    intros i m Hm Hi. specialize (Hcut (S i) m Hm). simpl in Hcut. lia.
Qed.

(** A match cannot run past the first letter of a marker, and reaches
    that letter only as the last letter of its script tag. *)
Lemma no_straddle (s t : text) (i n : nat) :
  contains overlap_form (s ++ closing_div ++ t) = false ->
  format_here (drop i s ++ closing_div ++ t) = Some n -> i < length s ->
  i + (30 + n) <= length s.
Proof.
  intros Hov (w & rest & Hs & <- & Hw & Hnl)%format_here_some Hi.
  destruct (decide (i + (30 + length w) <= length s)) as [| Hgt]; [done |].
  exfalso.
  remember (closing_div ++ w ++ lit "<scrip") as m eqn:Em.
  assert (drop i s ++ closing_div ++ t = m ++ 116%N :: rest) as Hm.
  { rewrite Hs, Em. rewrite <- !app_assoc. reflexivity. }
  assert (~ In 116%N (tail m)) as Hnot.
  { rewrite Em. change (tail (closing_div ++ ?u)) with (tail closing_div ++ u).
    rewrite !in_app_iff. intros [Hin | [Hin | Hin]].
    - by apply absent_by_test in Hin.
    - by apply space_not_t in Hin.
    - by apply absent_by_test in Hin. }
  assert (length m = 29 + length w) as Hlm.
  { rewrite Em, !length_app. simpl. lia. }
  assert (length (drop i s) = length m) as Hlen.
  { rewrite length_drop.
    destruct (decide (length s - i = length m)) as [| Hne]; [done |].
    exfalso. apply Hnot.
    pose proof (f_equal (fun l => l !! (length s - i)) Hm) as Hx.
    cbv beta in Hx.
    rewrite lookup_app_r in Hx by (rewrite length_drop; lia).
    rewrite length_drop, Nat.sub_diag in Hx.
    change (closing_div ++ t) with (116%N :: tail closing_div ++ t) in Hx.
    rewrite (lookup_app_l m) in Hx by lia.
    symmetry in Hx.
    apply list_elem_of_In. destruct m as [|y m']; [simpl in *; lia |].
    destruct (length s - i) as [|d] eqn:Hd; [lia |].
    simpl in Hx |- *. by apply list_elem_of_lookup_2 in Hx. }
  apply app_inj_1 in Hm as [Hds _]; [| done].
  assert (contains overlap_form (s ++ closing_div ++ t) = true) as Hc; [| congruence].
  apply contains_spec.
  exists (take i s ++ closing_div ++ w), t.
  rewrite <- (take_drop i s) at 1. rewrite Hds, Em. unfold overlap_form.
  by rewrite <- !app_assoc.
Qed.

Lemma reformat_occurrence (pre w rest : text) :
  forallb is_space w = true -> In 10%N w ->
  contains overlap_form (pre ++ closing_div ++ w ++ lit "<script" ++ rest) = false ->
  reformat (pre ++ closing_div ++ w ++ lit "<script" ++ rest) =
  reformat pre ++ fixed_form ++ reformat rest.
Proof.
  intros Hw Hnl Hov. rewrite reformat_app.
  - f_equal. rewrite (reformat_match _ (length w)) by by apply format_here_intro.
    f_equal. f_equal.
    replace (30 + length w) with (length (closing_div ++ w ++ lit "<script"))
      by (rewrite !length_app; simpl; lia).
    by rewrite !app_assoc, drop_app_length.
  - intros i n Hf Hi. by apply (no_straddle _ _ _ _ Hov Hf).
Qed.

(** The substitution brings in no character but those of the four-space
    form. *)
Lemma reformat_In (y : N) (s : text) :
  In y (reformat s) -> In y s \/ In y fixed_form.
Proof.
  remember (length s) as n eqn:Hn. revert s Hn.
  induction n as [n IH] using lt_wf_ind. intros s ->.
  destruct s as [|x s]; [rewrite reformat_nil; by left |].
  destruct (format_here (x :: s)) as [k|] eqn:Hf.
  - rewrite (reformat_match _ _ Hf). rewrite in_app_iff. intros [H | H]; [by right |].
    destruct (IH (length (drop (30 + k) (x :: s)))
                ltac:(rewrite length_drop; simpl; lia) _ eq_refl H) as [H' | H'];
      [left | by right].
    rewrite <- (take_drop (30 + k) (x :: s)). apply in_or_app. by right.
  - rewrite reformat_copy by done. intros [<- | H]; [left; by left |].
    destruct (IH (length s) ltac:(simpl; lia) s eq_refl H) as [H' | H'];
      [left; by right | by right].
Qed.

Lemma reformat_no_cr (s : text) : ~ In 13%N s -> ~ In 13%N (reformat s).
Proof.
  intros Hs [H | H]%reformat_In; [done |].
  revert H. by apply absent_by_test.
Qed.

End ReformatOccurrences.

(* ===================================================================== *)
(** ** arreglar_formato.py: runs and claims                               *)
(* ===================================================================== *)

Section FixerRuns.
Import Fixer.

Lemma fixer_path_eq : Fixer.PROJECT_PATH = Injector.PROJECT_PATH.
Proof. reflexivity. Qed.

(** One call of the fixer on a readable file, by cases. *)
Lemma fix_run (w : world) (path : string) (f : file) (c : text) :
  files w !! path = Some f -> content f = Some c ->
  fix_theme_resources_format path w =
  if negb (contains unix_adjacency c) && negb (contains windows_adjacency c)
  then (World (tree w) (files w) (stdout w ++ [FormatoOk (relative_path path)]),
        Some false)
  else if writable f
  then (World (tree w) (<[path := File (Some (reformat c)) true]> (files w))
              (stdout w ++ [Arreglando (relative_path path); FormatoCorregido]),
        Some true)
  else (World (tree w) (files w)
              (stdout w ++ [Arreglando (relative_path path); ErrorMsg]),
        Some false).
Proof.
  intros Hf Hc.
  unfold fix_theme_resources_format, try_except, bind, read_text.
  rewrite Hf, Hc.
  destruct (negb (contains unix_adjacency c) && negb (contains windows_adjacency c));
    [reflexivity |].
  unfold write_text, print, ret. simpl. rewrite Hf.
  destruct (writable f); simpl; by rewrite <- app_assoc.
Qed.
(** Whatever line ending stands between the closing [div] and the script
    tag in the stored text, the text read has a line feed there. *)
Lemma adjacency_as_read (d : text) :
  contains unix_adjacency d = true \/ contains windows_adjacency d = true \/
  contains mac_adjacency d = true ->
  contains unix_adjacency (universal_newlines d) = true.
Proof.
  assert (forall a P b, P = unix_adjacency \/ P = windows_adjacency \/ P = mac_adjacency ->
            universal_newlines (a ++ P ++ b) =
            universal_newlines a ++ unix_adjacency ++ universal_newlines b) as Hparts.
  { intros a P b HP.
    assert (exists r, P ++ b = 116%N :: r /\
                      universal_newlines (116%N :: r) =
                      unix_adjacency ++ universal_newlines b) as (r & -> & <-)
      by (destruct HP as [-> | [-> | ->]]; eexists; split; reflexivity).
    by apply universal_newlines_app. }
  intros [H | [H | H]]; apply contains_spec in H as (a & b & ->);
    rewrite Hparts by auto; apply contains_intro.
Qed.

(** The second membership test of the fixer never holds of a text that
    was read. *)
Lemma windows_adjacency_never (c : text) :
  ~ In 13%N c -> contains windows_adjacency c = false.
Proof.
  intros Hcr. destruct (contains windows_adjacency c) eqn:H; [| done].
  apply contains_spec in H as (a & b & ->). exfalso. apply Hcr.
  rewrite !in_app_iff. right. left. unfold windows_adjacency.
  rewrite !in_app_iff. right. left. by left.
Qed.
End FixerRuns.

Section FixerClaims.
Import Fixer.




(** C9, as stated, fails: on a text where a second marker starts on the
    last letter of the first script tag, the adjacency is still present
    after one application and the second application rewrites again. *)
Lemma C9_counterexample :
  contains unix_adjacency (reformat overlapping) = true /\
  (fix_theme_resources_format "a.html"
     (fix_theme_resources_format "a.html" (one_file "a.html" overlapping)).1).2
  = Some true.
Proof. split; vm_compute; reflexivity. Qed.

(** C9, amended. On a writable file a second application never changes
    the store: the substitution is idempotent on texts.  When no marker
    of the text starts on the last letter of a script tag, neither form
    of the adjacency is left after one application, and the second
    application takes the OK branch and returns [False]. *)
Theorem C9_second_application (w : world) (path : string) (f : file) (c : text) :
  files w !! path = Some f -> content f = Some c -> writable f = true ->
  let w1 := (fix_theme_resources_format path w).1 in
  files (fix_theme_resources_format path w1).1 = files w1 /\
  (contains overlap_form c = false ->
     fix_theme_resources_format path w1 =
       (World (tree w1) (files w1) (stdout w1 ++ [FormatoOk (relative_path path)]),
        Some false)).
Proof.
  intros Hf Hc Hw. cbv zeta. rewrite (fix_run w path f c Hf Hc), Hw.
  destruct (negb (contains unix_adjacency c) && negb (contains windows_adjacency c))
    eqn:Hok; cbn [fst].
  - rewrite (fix_run (World (tree w) (files w) _) path f c Hf Hc), Hok. by split.
  - rewrite (fix_run _ path (File (Some (reformat c)) true) (reformat c))
      by (try apply lookup_insert_eq;
          apply content_written, reformat_no_cr, (content_no_cr f), Hc).
    cbn [files writable tree stdout]. split.
    + destruct (negb (contains unix_adjacency (reformat c)) && _);
        cbn [fst files]; [done |].
      by rewrite reformat_idempotent, insert_insert_eq.
    + intros [-> ->]%reformat_clears. done.
Qed.

Lemma C9_witness :
  files (fix_theme_resources_format "a.html"
           (fix_theme_resources_format "a.html"
              (one_file "a.html" unix_adjacency)).1).1
  = files (fix_theme_resources_format "a.html" (one_file "a.html" unix_adjacency)).1 /\
  (contains overlap_form unix_adjacency = false ->
   fix_theme_resources_format "a.html"
     (fix_theme_resources_format "a.html" (one_file "a.html" unix_adjacency)).1
   = (World (tree (fix_theme_resources_format "a.html" (one_file "a.html" unix_adjacency)).1)
            (files (fix_theme_resources_format "a.html" (one_file "a.html" unix_adjacency)).1)
            (stdout (fix_theme_resources_format "a.html" (one_file "a.html" unix_adjacency)).1
               ++ [FormatoOk (relative_path "a.html")]),
      Some false)).
Proof.
  apply (C9_second_application (one_file "a.html" unix_adjacency) "a.html"
           (File (Some unix_adjacency) true) unix_adjacency); reflexivity.
Defined.

(** C10, as stated, fails: the second occurrence below, indented by eight
    spaces, starts on the last letter of the first script tag and is
    written back as it was. *)
Lemma C10_counterexample :
  contains unix_adjacency overlapping_indented = true /\
  overlapping_indented =
    (closing_div ++ nl ++ lit "<scrip") ++
    closing_div ++ (nl ++ lit "        ") ++ lit "<script" ++ [] /\
  reformat overlapping_indented =
    fixed_form ++ tail closing_div ++ nl ++ lit "        " ++ lit "<script" /\
  reformat overlapping_indented <>
    reformat (closing_div ++ nl ++ lit "<scrip") ++ fixed_form ++ reformat [].
Proof. split_and!; [reflexivity | reflexivity | reflexivity | discriminate]. Qed.

(** C10, amended. When the file contains the adjacency in either form
    and no marker of its text starts on the last letter of a script tag,
    the fixer writes the substituted text, in which every occurrence of
    the closing [div], whitespace with a newline and the script tag has
    been replaced in place by the closing [div], one newline, four
    spaces and the script tag, whatever the whitespace was; no other
    form of the occurrence is left. *)
Theorem C10_every_occurrence_normalised
        (w : world) (path : string) (f : file) (c : text) :
  files w !! path = Some f -> content f = Some c -> writable f = true ->
  contains unix_adjacency c = true \/ contains windows_adjacency c = true ->
  contains overlap_form c = false ->
  fix_theme_resources_format path w =
    (World (tree w) (<[path := File (Some (reformat c)) true]> (files w))
           (stdout w ++ [Arreglando (relative_path path); FormatoCorregido]),
     Some true) /\
  (forall pre ws rest,
      c = pre ++ closing_div ++ ws ++ lit "<script" ++ rest ->
      forallb is_space ws = true -> In 10%N ws ->
      reformat c = reformat pre ++ fixed_form ++ reformat rest) /\
  (forall q n,
      format_here (drop q (reformat c)) = Some n ->
      n = 5 /\ starts_with fixed_form (drop q (reformat c)) = true).
Proof.
  intros Hf Hc Hw Hbad Hov. split_and!.
  - rewrite (fix_run w path f c Hf Hc), Hw.
    by destruct Hbad as [-> | ->]; rewrite ?andb_false_r.
  - intros pre ws rest -> Hws Hnl. by apply reformat_occurrence.
  - intros q n. by apply reformat_normal.
Qed.

Lemma C10_witness :
  fix_theme_resources_format "a.html" (one_file "a.html" two_occurrences) =
    (World (fun _ => [])
           (<["a.html" := File (Some (reformat two_occurrences)) true]>
              {[ "a.html" := File (Some two_occurrences) true ]})
           [Arreglando (relative_path "a.html"); FormatoCorregido],
     Some true) /\
  (forall pre ws rest,
      two_occurrences = pre ++ closing_div ++ ws ++ lit "<script" ++ rest ->
      forallb is_space ws = true -> In 10%N ws ->
      reformat two_occurrences = reformat pre ++ fixed_form ++ reformat rest) /\
  (forall q n,
      format_here (drop q (reformat two_occurrences)) = Some n ->
      n = 5 /\ starts_with fixed_form (drop q (reformat two_occurrences)) = true).
Proof.
  apply (C10_every_occurrence_normalised
           (one_file "a.html" two_occurrences) "a.html"
           (File (Some two_occurrences) true));
    first [reflexivity | left; reflexivity].
Defined.

Example two_occurrences_fixed :
  reformat two_occurrences =
    fixed_form ++ lit "></script>" ++ nl ++ fixed_form ++ lit "></script>".
Proof. reflexivity. Qed.
End FixerClaims.

(* ===================================================================== *)
(** ** aplicar_tema_automatico.py: what one call does                     *)
(* ===================================================================== *)

Section InjectorRuns.
Import Injector.

Lemma say_nil (w : world) : say w [] = w.
Proof. destruct w. unfold say. simpl. by rewrite app_nil_r. Qed.

Lemma say_say (w : world) (l1 l2 : list msg) : say (say w l1) l2 = say w (l1 ++ l2).
Proof. unfold say. simpl. by rewrite app_assoc. Qed.

Lemma print_say (m : msg) (w : world) : print m w = (say w [m], Some tt).
Proof. reflexivity. Qed.

Lemma head_insertion_run (c : text) (m : bool) (w : world) :
  head_insertion c m w =
  (say w (if head_found c then [CssAgregado] else []),
   Some (head_text c, head_found c || m)).
Proof.
  unfold head_insertion, head_found, head_text. rewrite material_search.
  destruct (first_anchor c) as [[i g]|]; [done |].
  by rewrite say_nil.
Qed.

Lemma body_insertion_run (c : text) (m : bool) (w : world) :
  body_insertion c m w =
  (say w (if body_found c then [JsAgregado] else []),
   Some (body_text c, body_found c || m)).
Proof.
  unfold body_insertion, body_found, body_text.
  destruct (contains THEME_SCRIPT_PATTERN c); [by rewrite say_nil |].
  rewrite body_search.
  destruct (first_adjacency c) as [[i p]|]; [done |].
  by rewrite say_nil.
Qed.

Lemma bind_read {B} (path : string) (k : text -> M B) (w : world) (f : file) (c : text) :
  files w !! path = Some f -> content f = Some c ->
  bind (read_text path) k w = k c w.
Proof. unfold bind, read_text. by intros -> ->. Qed.

Lemma bind_print {B} (m : msg) (k : unit -> M B) (w : world) :
  bind (print m) k w = k tt (say w [m]).
Proof. reflexivity. Qed.

Lemma bind_ret {A B} (a : A) (k : A -> M B) (w : world) : bind (ret a) k w = k a w.
Proof. reflexivity. Qed.

Lemma bind_run {A B} (c : M A) (k : A -> M B) (w w' : world) (a : A) :
  c w = (w', Some a) -> bind c k w = k a w'.
Proof. unfold bind. by intros ->. Qed.

(** One call of [update_html_file] on a readable file, by cases. *)
Lemma update_run (w : world) (path : string) (f : file) (c : text) :
  files w !! path = Some f -> content f = Some c ->
  update_html_file path w =
  if contains THEME_RESOURCES_PATTERN c
  then (say w [Omitido (relative_path path)], Some skipped)
  else if modified c
  then if writable f
       then (say (store w path (injected c))
                 (Procesando (relative_path path) :: step_lines c ++ [ArchivoGuardado]),
             Some updated)
       else (say w (Procesando (relative_path path) :: step_lines c ++ [ErrorMsg]),
             Some error)
  else (say w (Procesando (relative_path path) :: step_lines c ++ [NoSePudoModificar]),
        Some skipped).
Proof.
  intros Hf Hc.
  unfold update_html_file, try_except. rewrite (bind_read _ _ _ _ _ Hf Hc).
  fold (relative_path path).
  destruct (contains THEME_RESOURCES_PATTERN c); [done |].
  rewrite bind_print.
  rewrite (bind_run _ _ _ _ _ (head_insertion_run _ _ _)).
  rewrite (bind_run _ _ _ _ _ (body_insertion_run _ _ _)).
  rewrite orb_false_r, orb_comm. fold (modified c). fold (injected c).
  rewrite !say_say.
  change ([Procesando (relative_path path)] ++ ?l ++ ?l')
    with (Procesando (relative_path path) :: l ++ l').
  fold (step_lines c).
  destruct (modified c).
  - unfold bind at 1, write_text. cbn [files say]. rewrite Hf.
    destruct (writable f).
    + rewrite bind_print. unfold ret, store, say. cbn [tree files stdout].
      by rewrite <- app_assoc.
    + rewrite bind_print. unfold ret. by rewrite say_say.
  - rewrite bind_print. unfold ret. by rewrite say_say.
Qed.

(** A file that cannot be read is an error and nothing else happens. *)
Lemma update_unreadable (w : world) (path : string) :
  (files w !! path = None \/
   exists f, files w !! path = Some f /\ content f = None) ->
  update_html_file path w = (say w [ErrorMsg], Some error).
Proof.
  intros H. unfold update_html_file, try_except, bind at 1, read_text.
  destruct H as [-> | (f & -> & ->)]; done.
Qed.
End InjectorRuns.

(* ===================================================================== *)
(** ** aplicar_tema_automatico.py: the scanner, the loop and main         *)
(* ===================================================================== *)

Section InjectorLoops.
Import Injector.

Lemma find_names_run (root : string) (names : list string) (acc : list string) (w : world) :
  for_each names
    (fun file html_files =>
       if endswith file ".html" then
         let file_path := path_join root file in
         try_except
           (do content <- read_text file_path;
            match search no_flags TAILWIND_PATTERN content with
            | Some _ => ret (html_files ++ [file_path])
            | None => ret html_files
            end)
           (print (ErrorLeyendo file_path);; ret html_files)
       else ret html_files) acc w =
  (say w (map ErrorLeyendo
            (List.filter (unreadable (files w))
               (map (path_join root) (List.filter (fun n => endswith n ".html") names)))),
   Some (acc ++ List.filter (is_candidate (files w))
                  (map (path_join root) (List.filter (fun n => endswith n ".html") names)))).
Proof.
  revert acc w. induction names as [|n names IH]; intros acc w.
  - simpl. by rewrite say_nil, app_nil_r.
  - cbn [for_each List.filter]. destruct (endswith n ".html") eqn:Hn.
    + cbn [map List.filter]. unfold is_candidate at 1, unreadable at 1.
      unfold bind at 1, try_except, bind at 1, read_text.
      destruct (files w !! path_join root n) as [f|] eqn:Hf;
        [destruct (content f) as [c|] eqn:Hc |].
      * destruct (search no_flags TAILWIND_PATTERN c); unfold ret; rewrite IH.
        -- by rewrite <- app_assoc.
        -- done.
      * rewrite bind_print. unfold ret. rewrite IH, say_say. done.
      * rewrite bind_print. unfold ret. rewrite IH, say_say. done.
    + rewrite bind_ret. apply IH.
Qed.

Lemma find_walk_run (walk : list (string * list string * list string))
      (acc : list string) (w : world) :
  for_each walk
    (fun '(root, dirs, names) html_files =>
       for_each names
         (fun file html_files =>
            if endswith file ".html" then
              let file_path := path_join root file in
              try_except
                (do content <- read_text file_path;
                 match search no_flags TAILWIND_PATTERN content with
                 | Some _ => ret (html_files ++ [file_path])
                 | None => ret html_files
                 end)
                (print (ErrorLeyendo file_path);; ret html_files)
            else ret html_files) html_files) acc w =
  (say w (map ErrorLeyendo (List.filter (unreadable (files w)) (html_paths walk))),
   Some (acc ++ List.filter (is_candidate (files w)) (html_paths walk))).
Proof.
  revert w acc.
  induction walk as [|[[root dirs] names] walk IH]; intros w acc.
  - cbn [for_each html_paths flat_map List.filter map].
    by rewrite say_nil, app_nil_r.
  - cbn [for_each]. rewrite (bind_run _ _ _ _ _ (find_names_run _ _ _ _)).
    rewrite IH. cbn [html_paths flat_map files say].
    rewrite !List.filter_app, map_app, say_say, <- app_assoc. done.
Qed.

Lemma find_run (base : string) (w : world) :
  find_html_files_with_tailwind base w =
  (say w (map ErrorLeyendo (List.filter (unreadable (files w)) (html_paths (tree w base)))),
   Some (List.filter (is_candidate (files w)) (html_paths (tree w base)))).
Proof.
  unfold find_html_files_with_tailwind, os_walk. unfold bind at 1.
  apply find_walk_run.
Qed.
End InjectorLoops.

Section InjectorMain.
Import Injector.

(** A call always returns a result, keeps the listing and touches no
    other file. *)
Lemma update_total (w : world) (p : string) :
  exists w1 r,
    update_html_file p w = (w1, Some r) /\
    tree w1 = tree w /\
    forall p', p' <> p -> files w1 !! p' = files w !! p'.
Proof.
  destruct (files w !! p) as [f|] eqn:Hf.
  - destruct (content f) as [c|] eqn:Hc.
    + rewrite (update_run w p f c Hf Hc).
      destruct (contains THEME_RESOURCES_PATTERN c); [by eexists _, _ |].
      destruct (modified c); [| by eexists _, _].
      destruct (writable f); [| by eexists _, _].
      eexists _, _. split_and!; [done | done |].
      intros p' Hp'. cbn [say store files]. by rewrite lookup_insert_ne.
    + rewrite update_unreadable by (right; by exists f). by eexists _, _.
  - rewrite update_unreadable by by left. by eexists _, _.
Qed.

Lemma tally_step_run (p : string) (acc : nat * nat * nat) (w w1 : world) (r : result) :
  update_html_file p w = (w1, Some r) ->
  tally_step p acc w = (say w1 [Blank], Some (count r acc)).
Proof.
  intros Hu. destruct acc as [[u s] e]. unfold tally_step.
  rewrite (bind_run _ _ _ _ _ Hu), bind_print. by destruct r.
Qed.

(** What holds before the loop and is kept by every call and by printing
    holds after the loop; the loop always ends with its counters. *)
Lemma tally_invariant (P : world -> Prop) (l : list string)
      (acc : nat * nat * nat) (w : world) :
  (forall p w, In p l -> P w -> P (update_html_file p w).1) ->
  (forall w lines, P w -> P (say w lines)) ->
  P w ->
  exists w' counters,
    for_each l tally_step acc w = (w', Some counters) /\ P w'.
Proof.
  intros Hupd Hsay. revert acc w.
  induction l as [|p l IH]; intros acc w HP.
  - by exists w, acc.
  - destruct (update_total w p) as (w1 & r & Hu & _).
    cbn [for_each]. rewrite (bind_run _ _ _ _ _ (tally_step_run _ acc _ _ _ Hu)).
    apply IH.
    + intros p' w' Hin. apply Hupd. by right.
    + apply Hsay. specialize (Hupd p w (or_introl eq_refl) HP).
      by rewrite Hu in Hupd.
Qed.

Lemma main_run (w w' : world) (counters : nat * nat * nat) :
  tally (candidates w) (say w (main_header w)) = (w', Some counters) ->
  main w = (say w' (main_summary counters), Some tt).
Proof.
  intros Ht. unfold main. rewrite !bind_print, !say_say.
  rewrite (bind_run _ _ _ _ _ (find_run _ _)), bind_print, !say_say.
  cbn [files tree say]. fold (candidates w).
  change (say w _) with (say w (main_header w)).
  rewrite (bind_run _ _ _ _ _ Ht). destruct counters as [[u s] e].
  rewrite !bind_print, !say_say, print_say, say_say. reflexivity.
Qed.

(** [main] changes the world only through the calls of its loop and by
    printing. *)
Lemma main_invariant (P : world -> Prop) (w : world) :
  (forall p w0, In p (candidates w) -> P w0 -> P (update_html_file p w0).1) ->
  (forall w0 lines, P w0 -> P (say w0 lines)) ->
  P w -> P (main w).1.
Proof.
  intros Hupd Hsay HP.
  destruct (tally_invariant P (candidates w) (0, 0, 0) (say w (main_header w)))
    as (w' & counters & Ht & HP'); [done | done | by apply Hsay |].
  rewrite (main_run w w' counters Ht). by apply Hsay.
Qed.
End InjectorMain.

(* ===================================================================== *)
(** ** aplicar_tema_automatico.py: the text after the two steps           *)
(* ===================================================================== *)

Section InjectedText.
Import Injector.

Lemma head_snippet_app (B : text) :
  head_snippet ++ B = 10%N :: THEME_RESOURCES ++ 10%N :: B.
Proof.
  unfold head_snippet, nl. rewrite <- !app_assoc. reflexivity.
Qed.

Lemma body_snippet_app (B : text) :
  body_snippet ++ B = 10%N :: tail THEME_SCRIPT ++ 10%N :: 32%N :: 32%N :: B.
Proof.
  unfold body_snippet, nl. rewrite <- !app_assoc. reflexivity.
Qed.

Lemma head_not_newline (pat : text) (c : N) : ~ In c pat -> head pat <> Some c.
Proof. destruct pat as [|y pat]; [done |]. intros H [= ->]. apply H. by left. Qed.

(** Counting a pattern without newlines in a text with a snippet
    spliced in. *)
Lemma occurrences_head_splice (pat A B : text) :
  pat <> [] -> ~ In 10%N pat ->
  occurrences pat (A ++ head_snippet ++ B) =
  occurrences pat A + occurrences pat THEME_RESOURCES + occurrences pat B.
Proof.
  intros Hp Hnl. rewrite head_snippet_app.
  rewrite occurrences_sep, occurrences_skip by auto using head_not_newline.
  rewrite occurrences_sep, occurrences_skip by auto using head_not_newline.
  lia.
Qed.

Lemma occurrences_body_splice (pat A B : text) :
  pat <> [] -> ~ In 10%N pat -> head pat <> Some 32%N ->
  occurrences pat (A ++ body_snippet ++ B) =
  occurrences pat A + occurrences pat (tail THEME_SCRIPT) + occurrences pat B.
Proof.
  intros Hp Hnl Hsp. rewrite body_snippet_app.
  rewrite occurrences_sep, occurrences_skip by auto using head_not_newline.
  rewrite occurrences_sep, !occurrences_skip by auto using head_not_newline.
  lia.
Qed.

Lemma occurrences_cut (pat c : text) (p : nat) :
  pat <> [] ->
  occurrences pat (take p c) + occurrences pat (drop p c) <= occurrences pat c.
Proof.
  intros Hp. rewrite <- (take_drop p c) at 3. by apply occurrences_app_ge.
Qed.

Lemma occurrences_cut_at (pat c : text) (p : nat) (x : N) (rest : text) :
  pat <> [] -> ~ In x pat -> drop p c = x :: rest ->
  occurrences pat c = occurrences pat (take p c) + occurrences pat (drop p c).
Proof.
  intros Hp Hx Hd. rewrite <- (take_drop p c) at 1. rewrite Hd.
  by apply occurrences_sep.
Qed.

(** The four counts of a marker in a fragment. *)
Lemma marker_counts :
  occurrences THEME_RESOURCES_PATTERN THEME_RESOURCES = 1 /\
  occurrences THEME_SCRIPT_PATTERN THEME_RESOURCES = 0 /\
  occurrences THEME_RESOURCES_PATTERN (tail THEME_SCRIPT) = 0 /\
  occurrences THEME_SCRIPT_PATTERN (tail THEME_SCRIPT) = 1.
Proof. split_and!; reflexivity. Qed.

Lemma head_text_some (c : text) (i g : nat) :
  first_anchor c = Some (i, g) ->
  head_text c = splice (after_spaces g c) head_snippet c /\
  after_spaces g c <= length c.
Proof.
  intros Ha. unfold head_text. rewrite Ha. split; [done |].
  pose proof (first_anchor_some _ _ _ Ha) as (j & g' & _ & Htag & Hg).
  apply closed_tag_end in Htag as (Hg17 & Hglen & _). rewrite length_drop in Hglen.
  apply after_spaces_le. lia.
Qed.

Lemma head_text_count (pat c : text) (i g : nat) :
  first_anchor c = Some (i, g) -> pat <> [] -> ~ In 10%N pat ->
  occurrences pat (head_text c) =
  occurrences pat (take (after_spaces g c) c) + occurrences pat THEME_RESOURCES +
  occurrences pat (drop (after_spaces g c) c).
Proof.
  intros Ha Hp Hnl. destruct (head_text_some c i g Ha) as [-> _].
  by apply occurrences_head_splice.
Qed.

Lemma body_text_some (c : text) (j p : nat) :
  contains THEME_SCRIPT_PATTERN c = false -> first_adjacency c = Some (j, p) ->
  body_text c = splice p body_snippet c.
Proof. intros Hs Ha. unfold body_text. by rewrite Hs, Ha. Qed.

Lemma body_text_count (pat c : text) (j p : nat) :
  contains THEME_SCRIPT_PATTERN c = false -> first_adjacency c = Some (j, p) ->
  pat <> [] -> ~ In 10%N pat -> head pat <> Some 32%N -> ~ In 60%N pat ->
  occurrences pat (body_text c) =
  occurrences pat c + occurrences pat (tail THEME_SCRIPT).
Proof.
  intros Hs Ha Hp Hnl Hsp Hlt. rewrite (body_text_some c j p Hs Ha).
  unfold splice. rewrite occurrences_body_splice by done.
  destruct (first_adjacency_body c j p Ha) as (_ & rest & Hd).
  rewrite (occurrences_cut_at pat c p 60 rest) by done. lia.
Qed.

Lemma markers_plain :
  THEME_RESOURCES_PATTERN <> [] /\ ~ In 10%N THEME_RESOURCES_PATTERN /\
  head THEME_RESOURCES_PATTERN <> Some 32%N /\ ~ In 60%N THEME_RESOURCES_PATTERN /\
  THEME_SCRIPT_PATTERN <> [] /\ ~ In 10%N THEME_SCRIPT_PATTERN /\
  head THEME_SCRIPT_PATTERN <> Some 32%N /\ ~ In 60%N THEME_SCRIPT_PATTERN.
Proof.
  split_and!; try done; by apply absent_by_test.
Qed.

(** Both steps on a text with both anchors and no marker: one marker of
    each kind. *)
Lemma injected_counts (c : text) (i g q p : nat) :
  first_anchor c = Some (i, g) -> first_adjacency c = Some (q, p) ->
  contains THEME_RESOURCES_PATTERN c = false ->
  contains THEME_SCRIPT_PATTERN c = false ->
  occurrences THEME_RESOURCES_PATTERN (injected c) = 1 /\
  occurrences THEME_SCRIPT_PATTERN (injected c) = 1 /\
  contains THEME_SCRIPT_PATTERN (head_text c) = false /\
  exists q' p', first_adjacency (head_text c) = Some (q', p') /\
                injected c = splice p' body_snippet
                               (splice (after_spaces g c) head_snippet c).
Proof.
  intros Ha Hb Hr Hs.
  destruct markers_plain as (R1 & R2 & R3 & R4 & S1 & S2 & S3 & S4).
  destruct marker_counts as (M1 & M2 & M3 & M4).
  apply occurrences_zero in Hr, Hs.
  pose proof (occurrences_cut THEME_RESOURCES_PATTERN c (after_spaces g c) R1) as Hr'.
  pose proof (occurrences_cut THEME_SCRIPT_PATTERN c (after_spaces g c) S1) as Hs'.
  assert (occurrences THEME_RESOURCES_PATTERN (head_text c) = 1) as Hr1
    by (rewrite (head_text_count _ c i g) by done; lia).
  assert (occurrences THEME_SCRIPT_PATTERN (head_text c) = 0) as Hs1
    by (rewrite (head_text_count _ c i g) by done; lia).
  destruct (adjacency_survives_head c i g q p Ha Hb) as (q' & p' & Hb').
  pose proof (proj1 (occurrences_zero _ _) Hs1) as Hs1'.
  unfold injected. split_and!.
  - rewrite (body_text_count _ _ q' p') by done. lia.
  - rewrite (body_text_count _ _ q' p') by done. lia.
  - done.
  - exists q', p'. split; [done |].
    rewrite (body_text_some _ q' p') by done.
    by destruct (head_text_some c i g Ha) as [-> _].
Qed.

(** After a call that wrote, the text has the resource marker or gives
    the two steps nothing to do. *)
Lemma injected_settled (c : text) :
  modified c = true ->
  contains THEME_RESOURCES_PATTERN (injected c) = true \/
  modified (injected c) = false.
Proof.
  destruct markers_plain as (R1 & R2 & R3 & R4 & S1 & S2 & S3 & S4).
  destruct marker_counts as (M1 & M2 & M3 & M4).
  unfold modified, head_found.
  destruct (first_anchor c) as [[i g]|] eqn:Ha.
  - intros _. left. apply occurrences_pos.
    assert (0 < occurrences THEME_RESOURCES_PATTERN (head_text c)) as Hpos
      by (rewrite (head_text_count _ c i g) by done; lia).
    unfold injected, body_text.
    destruct (contains THEME_SCRIPT_PATTERN (head_text c)) eqn:Hs; [done |].
    destruct (first_adjacency (head_text c)) as [[q p]|] eqn:Hb; [| done].
    fold (splice p body_snippet (head_text c)).
    rewrite <- (body_text_some _ q p Hs Hb).
    rewrite (body_text_count _ _ q p) by done. lia.
  - assert (head_text c = c) as Hc by (unfold head_text; by rewrite Ha).
    unfold injected. rewrite Hc. cbn [orb]. unfold body_found.
    destruct (contains THEME_SCRIPT_PATTERN c) eqn:Hs; [done |].
    destruct (first_adjacency c) as [[q p]|] eqn:Hb; [| done].
    intros _. right. rewrite (body_text_some c q p Hs Hb).
    rewrite (no_anchor_after_body_splice c p Ha).
    assert (head_text (splice p body_snippet c) = splice p body_snippet c) as ->.
    { unfold head_text. by rewrite (no_anchor_after_body_splice c p Ha). }
    assert (contains THEME_SCRIPT_PATTERN (splice p body_snippet c) = true) as ->; [| done].
    unfold splice. apply contains_app_l, contains_app_r. reflexivity.
Qed.
Lemma splice_In (y : N) (p : nat) (x s : text) :
  In y (splice p x s) -> In y s \/ In y x.
Proof.
  unfold splice. rewrite !in_app_iff. intros [H | [H | H]]; [left | by right | left].
  - rewrite <- (take_drop p s). apply in_or_app. by left.
  - rewrite <- (take_drop p s). apply in_or_app. by right.
Qed.

(** The two steps bring in no carriage return. *)
Lemma injected_no_cr (c : text) : ~ In 13%N c -> ~ In 13%N (injected c).
Proof.
  intros Hc. unfold injected.
  assert (~ In 13%N (head_text c)) as Hh.
  { unfold head_text. destruct (first_anchor c) as [[i g]|]; [| done].
    intros [H | H]%splice_In; [done |]. revert H. by apply absent_by_test. }
  unfold body_text. destruct (contains THEME_SCRIPT_PATTERN (head_text c)); [done |].
  destruct (first_adjacency (head_text c)) as [[q p]|]; [| done].
  intros [H | H]%splice_In; [done |]. revert H. by apply absent_by_test.
Qed.

End InjectedText.
(* ===================================================================== *)
(** ** aplicar_tema_automatico.py: whole calls and the second run         *)
(* ===================================================================== *)

Section InjectorRuns.
Import Injector.

Lemma both_steps (c : text) (i g q p : nat) :
  first_anchor c = Some (i, g) -> first_adjacency c = Some (q, p) ->
  contains THEME_RESOURCES_PATTERN c = false ->
  contains THEME_SCRIPT_PATTERN c = false ->
  modified c = true /\ step_lines c = [CssAgregado; JsAgregado].
Proof.
  intros Ha Hb Hr Hs.
  destruct (injected_counts c i g q p Ha Hb Hr Hs) as (_ & _ & Hs1 & q' & p' & Hb' & _).
  unfold modified, step_lines, head_found, body_found. by rewrite Ha, Hs1, Hb'.
Qed.

Lemma update_marked (w : world) (path : string) (f : file) (c : text) :
  files w !! path = Some f -> content f = Some c ->
  contains THEME_RESOURCES_PATTERN c = true ->
  update_html_file path w = (say w [Omitido (relative_path path)], Some skipped).
Proof. intros Hf Hc Hm. by rewrite (update_run w path f c Hf Hc), Hm. Qed.

Lemma update_both_steps (w : world) (path : string) (f : file) (c : text)
      (i g q p : nat) :
  files w !! path = Some f -> content f = Some c -> writable f = true ->
  first_anchor c = Some (i, g) -> first_adjacency c = Some (q, p) ->
  contains THEME_RESOURCES_PATTERN c = false ->
  contains THEME_SCRIPT_PATTERN c = false ->
  update_html_file path w =
    (say (store w path (injected c))
         [Procesando (relative_path path); CssAgregado; JsAgregado; ArchivoGuardado],
     Some updated).
Proof.
  intros Hf Hc Hw Ha Hb Hr Hs.
  destruct (both_steps c i g q p Ha Hb Hr Hs) as [Hm Hl].
  by rewrite (update_run w path f c Hf Hc), Hr, Hm, Hw, Hl.
Qed.

Lemma filter_Permutation_bool {A} (f : A -> bool) (l l' : list A) :
  Permutation l l' -> Permutation (List.filter f l) (List.filter f l').
Proof.
  induction 1 as [| x l l' _ IH | x y l | l l' l'' _ IH1 _ IH2]; simpl.
  - constructor.
  - destruct (f x); [by constructor | done].
  - destruct (f x), (f y); first [apply perm_swap | reflexivity].
  - by etransitivity.
Qed.

Lemma is_candidate_true (fs : gmap string file) (path : string) (f : file) (c : text) :
  fs !! path = Some f -> content f = Some c ->
  is_candidate fs path = contains (lit "cdn.tailwindcss.com") c.
Proof.
  intros Hf Hc. unfold is_candidate. rewrite Hf, Hc.
  destruct (contains (lit "cdn.tailwindcss.com") c) eqn:Hcdn.
  - destruct (search no_flags TAILWIND_PATTERN c) eqn:Hs; [done |].
    apply tailwind_search in Hs. congruence.
  - apply tailwind_search in Hcdn. by rewrite Hcdn.
Qed.

Lemma tally_two (w : world) (p1 p2 : string) (w1 w2 : world) (r1 r2 : result) :
  update_html_file p1 w = (w1, Some r1) ->
  update_html_file p2 (say w1 [Blank]) = (w2, Some r2) ->
  tally [p1; p2] w = (say w2 [Blank], Some (count r2 (count r1 (0, 0, 0)))).
Proof.
  intros H1 H2. unfold tally. cbn [for_each].
  rewrite (bind_run _ _ _ _ _ (tally_step_run _ _ _ _ _ H1)).
  rewrite (bind_run _ _ _ _ _ (tally_step_run _ _ _ _ _ H2)).
  reflexivity.
Qed.
End InjectorRuns.

Section SecondRun.
Import Injector.

Lemma injected_has_marker (c : text) (i g : nat) :
  first_anchor c = Some (i, g) ->
  contains THEME_RESOURCES_PATTERN (injected c) = true.
Proof.
  intros Ha.
  assert (modified c = true) as Hm by (unfold modified, head_found; by rewrite Ha).
  destruct (injected_settled c Hm) as [| Hm']; [done |].
  destruct markers_plain as (R1 & R2 & R3 & R4 & _).
  destruct marker_counts as (M1 & _).
  apply occurrences_pos.
  assert (0 < occurrences THEME_RESOURCES_PATTERN (head_text c)) as Hpos
    by (rewrite (head_text_count _ c i g) by done; lia).
  unfold injected, body_text.
  destruct (contains THEME_SCRIPT_PATTERN (head_text c)) eqn:Hs; [done |].
  destruct (first_adjacency (head_text c)) as [[q p]|] eqn:Hb; [| done].
  fold (splice p body_snippet (head_text c)).
  rewrite <- (body_text_some _ q p Hs Hb).
  rewrite (body_text_count _ _ q p) by done. lia.
Qed.

Lemma modified_false (c : text) :
  modified c = false -> head_found c = false /\ step_lines c = [].
Proof.
  unfold modified, step_lines. intros [-> ->]%orb_false_iff. done.
Qed.

Lemma injected_without_anchor (c : text) :
  first_anchor c = None -> contains THEME_RESOURCES_PATTERN c = false ->
  contains THEME_RESOURCES_PATTERN (injected c) = false.
Proof.
  intros Ha Hr. destruct markers_plain as (R1 & R2 & R3 & R4 & _).
  destruct marker_counts as (_ & _ & M3 & _).
  unfold injected, head_text. rewrite Ha. unfold body_text.
  destruct (contains THEME_SCRIPT_PATTERN c) eqn:Hs; [done |].
  destruct (first_adjacency c) as [[q p]|] eqn:Hb; [| done].
  fold (splice p body_snippet c). rewrite <- (body_text_some _ q p Hs Hb).
  apply occurrences_zero. rewrite (body_text_count _ _ q p) by done.
  apply occurrences_zero in Hr. lia.
Qed.

(** The call that follows a call without error on the same file. *)
Lemma second_call (w : world) (path : string) (f : file) (c : text) :
  files w !! path = Some f -> content f = Some c ->
  (update_html_file path w).2 <> Some error ->
  update_html_file path (update_html_file path w).1 =
    (say (update_html_file path w).1
         (if contains THEME_RESOURCES_PATTERN c || head_found c
          then [Omitido (relative_path path)]
          else [Procesando (relative_path path); NoSePudoModificar]),
     Some skipped).
Proof.
  intros Hf Hc. rewrite (update_run w path f c Hf Hc).
  destruct (contains THEME_RESOURCES_PATTERN c) eqn:Hr.
  - intros _. cbn [fst orb]. by rewrite (update_run (say w _) path f c Hf Hc), Hr.
  - destruct (modified c) eqn:Hm.
    + destruct (writable f); [intros _ | done]. cbn [fst orb].
      rewrite (update_run (say (store w path (injected c)) _) path
                 (File (Some (injected c)) true) (injected c)
                 (lookup_insert_eq _ _ _)
                 (content_written _ _ (injected_no_cr c (content_no_cr f c Hc)))).
      unfold head_found. destruct (first_anchor c) as [[i g]|] eqn:Ha.
      * by rewrite (injected_has_marker c i g Ha).
      * rewrite (injected_without_anchor c Ha Hr).
        destruct (injected_settled c Hm) as [Hx | Hm'];
          [by rewrite (injected_without_anchor c Ha Hr) in Hx |].
        rewrite Hm'. by destruct (modified_false _ Hm') as [_ ->].
    + intros _. cbn [fst orb].
      rewrite (update_run (say w _) path f c Hf Hc), Hr, Hm.
      by destruct (modified_false _ Hm) as [-> ->].
Qed.

Lemma update_settled (w : world) (p : string) :
  settled (files w !! p) = true -> files (update_html_file p w).1 = files w.
Proof.
  destruct (files w !! p) as [f|] eqn:Hf; [destruct (content f) as [c|] eqn:Hc |].
  - rewrite (update_run w p f c Hf Hc). unfold settled. rewrite Hc.
    destruct (contains THEME_RESOURCES_PATTERN c); [done |].
    destruct (modified c); [| done]. by destruct (writable f).
  - intros _. rewrite update_unreadable; [done |]. right. by eexists.
  - intros _. rewrite update_unreadable; [done |]. by left.
Qed.

Lemma update_settles (w : world) (p : string) :
  settled (files (update_html_file p w).1 !! p) = true.
Proof.
  destruct (files w !! p) as [f|] eqn:Hf; [destruct (content f) as [c|] eqn:Hc |].
  - rewrite (update_run w p f c Hf Hc).
    destruct (contains THEME_RESOURCES_PATTERN c) eqn:Hr.
    { cbn [fst say files]. rewrite Hf. unfold settled. rewrite Hc, Hr.
      apply orb_true_iff. left. apply orb_true_r. }
    destruct (modified c) eqn:Hm.
    + destruct (writable f) eqn:Hw.
      * cbn [fst say store files]. rewrite lookup_insert_eq. unfold settled.
        rewrite (content_written _ _ (injected_no_cr c (content_no_cr f c Hc))).
        cbn [writable negb orb].
        destruct (injected_settled c Hm) as [-> | ->]; [done | apply orb_true_r].
      * cbn [fst say files]. rewrite Hf. unfold settled. by rewrite Hc, Hw.
    + cbn [fst say files]. rewrite Hf. unfold settled. rewrite Hc, Hm.
      apply orb_true_r.
  - rewrite update_unreadable by (right; by eexists). cbn [fst say files].
    rewrite Hf. unfold settled. by rewrite Hc.
  - rewrite update_unreadable by by left. cbn [fst say files]. by rewrite Hf.
Qed.

Lemma update_keeps_settled (w : world) (p p' : string) :
  settled (files w !! p') = true ->
  settled (files (update_html_file p w).1 !! p') = true.
Proof.
  intros H. destruct (decide (p' = p)) as [-> | Hne]; [apply update_settles |].
  destruct (update_total w p) as (w1 & r & -> & _ & Hother).
  cbn [fst]. by rewrite Hother.
Qed.

(** After the loop every file it visited is settled, and no other file
    has changed. *)
Lemma tally_settles (l : list string) (acc : nat * nat * nat) (w : world) :
  exists w' counters,
    for_each l tally_step acc w = (w', Some counters) /\
    tree w' = tree w /\
    (forall p, In p l -> settled (files w' !! p) = true) /\
    (forall p, settled (files w !! p) = true -> settled (files w' !! p) = true) /\
    (forall p, ~ In p l -> files w' !! p = files w !! p).
Proof.
  revert acc w. induction l as [|p0 l IH]; intros acc w.
  - exists w, acc. split_and!; done.
  - destruct (update_total w p0) as (w1 & r & Hu & Ht & Hother).
    cbn [for_each]. rewrite (bind_run _ _ _ _ _ (tally_step_run _ acc _ _ _ Hu)).
    destruct (IH (count r acc) (say w1 [Blank])) as (w' & cnt & Hrun & Ht' & Hin & Hkeep & Hout).
    exists w', cnt.
    assert (forall p, settled (files w !! p) = true -> settled (files w1 !! p) = true)
      as Hstep.
    { intros p Hp. pose proof (update_keeps_settled w p0 p Hp) as H.
      by rewrite Hu in H. }
    split_and!.
    + done.
    + by rewrite Ht'.
    + intros p [<- | Hp]; [| by apply Hin].
      apply Hkeep. cbn [files say].
      pose proof (update_settles w p0) as H. by rewrite Hu in H.
    + intros p Hp. apply Hkeep. cbn [files say]. by apply Hstep.
    + intros p Hp. rewrite Hout by (intros H; apply Hp; by right).
      cbn [files say]. apply Hother. intros ->. apply Hp. by left.
Qed.

(** A second run of [main] writes nothing. *)
Lemma main_twice (w : world) : files (main (main w).1).1 = files (main w).1.
Proof.
  destruct (tally_settles (candidates w) (0, 0, 0) (say w (main_header w)))
    as (w' & cnt & Hrun & Ht & Hin & _ & Hout).
  rewrite (main_run w w' cnt Hrun). cbn [fst].
  assert (forall p, In p (candidates (say w' (main_summary cnt))) ->
                    settled (files w' !! p) = true) as Hset.
  { intros p Hp.
    destruct (in_dec string_dec p (candidates w)) as [Hc | Hc]; [by apply Hin |].
    exfalso. apply Hc. unfold candidates in Hp |- *.
    cbn [tree files say] in Hp. rewrite Ht in Hp. cbn [tree say] in Hp.
    apply filter_In in Hp as [Hp1 Hp2]. apply filter_In. split; [done |].
    unfold is_candidate in *. rewrite Hout in Hp2; [done |].
    intros Hin'. apply Hc. unfold candidates. by apply filter_In. }
  apply (main_invariant (fun w0 => files w0 = files (say w' (main_summary cnt))));
    [| done | done].
  intros p w0 Hp Hw0. rewrite <- Hw0. apply update_settled.
  rewrite Hw0. by apply Hset.
Qed.
End SecondRun.


(* ===================================================================== *)
(** ** aplicar_tema_automatico.py: claims                                 *)
(* ===================================================================== *)

Section InjectorClaims.
Import Injector.

(** C6. A file whose text already contains the theme-resource marker is
    reported skipped at once: the call prints the one line for it,
    attempts no insertion and no write, and leaves every file as it was;
    a whole run of the injector leaves the file as it was too. *)
Theorem C6_marked_file_untouched (w : world) (path : string) (f : file) (c : text) :
  files w !! path = Some f -> content f = Some c ->
  contains THEME_RESOURCES_PATTERN c = true ->
  update_html_file path w = (say w [Omitido (relative_path path)], Some skipped) /\
  files (update_html_file path w).1 = files w /\
  files (main w).1 !! path = Some f.
Proof.
  intros Hf Hc Hm.
  assert (forall w0, files w0 !! path = Some f ->
                     update_html_file path w0 =
                     (say w0 [Omitido (relative_path path)], Some skipped)) as Hskip.
  { intros w0 Hf0. by rewrite (update_run w0 path f c Hf0 Hc), Hm. }
  split_and!.
  - by apply Hskip.
  - by rewrite Hskip.
  - apply (main_invariant (fun w0 => files w0 !! path = Some f)); [| done | done].
    intros p w0 _ Hf0. destruct (decide (p = path)) as [-> | Hp].
    + by rewrite Hskip.
    + destruct (update_total w0 p) as (w1 & r & -> & _ & Hother).
      cbn [fst]. by rewrite Hother.
Qed.

Lemma C6_witness :
  update_html_file (path_join PROJECT_PATH "c.html") three_files =
    (say three_files [Omitido (relative_path (path_join PROJECT_PATH "c.html"))],
     Some skipped) /\
  files (update_html_file (path_join PROJECT_PATH "c.html") three_files).1 =
    files three_files /\
  files (main three_files).1 !! path_join PROJECT_PATH "c.html" =
    Some (File (Some page_c) true).
Proof.
  apply (C6_marked_file_untouched three_files (path_join PROJECT_PATH "c.html")
           (File (Some page_c) true) page_c); reflexivity.
Defined.

(** C8. A file whose text has no occurrence of cdn.tailwindcss.com,
    compared case-sensitively, is not in the list the scanner returns,
    and a run of the injector leaves it as it was. *)
Theorem C8_no_cdn_not_candidate (w : world) (path : string) (f : file) (c : text) :
  files w !! path = Some f -> content f = Some c ->
  contains (lit "cdn.tailwindcss.com") c = false ->
  (forall base w' html_files,
      find_html_files_with_tailwind base w = (w', Some html_files) ->
      ~ In path html_files) /\
  files (main w).1 !! path = Some f.
Proof.
  intros Hf Hc Hcdn.
  assert (is_candidate (files w) path = false) as Hcand.
  { unfold is_candidate. rewrite Hf, Hc.
    apply tailwind_search in Hcdn. by rewrite Hcdn. }
  split.
  - intros base w' l. rewrite find_run. intros [= _ <-].
    rewrite filter_In. intros [_ Hin]. congruence.
  - apply (main_invariant (fun w0 => files w0 !! path = Some f)); [| done | done].
    intros p w0 Hin Hf0.
    assert (p <> path) as Hp.
    { intros ->. unfold candidates in Hin. apply filter_In in Hin as [_ Hin]. congruence. }
    destruct (update_total w0 p) as (w1 & r & -> & _ & Hother).
    cbn [fst]. by rewrite Hother.
Qed.

Lemma C8_witness :
  (forall base w' html_files,
      find_html_files_with_tailwind base three_files = (w', Some html_files) ->
      ~ In (path_join PROJECT_PATH "a.html") html_files) /\
  files (main three_files).1 !! path_join PROJECT_PATH "a.html" =
    Some (File (Some page_a) true).
Proof.
  apply (C8_no_cdn_not_candidate three_files (path_join PROJECT_PATH "a.html")
           (File (Some page_a) true) page_a); reflexivity.
Defined.
End InjectorClaims.
(* ===================================================================== *)
(** ** aplicar_tema_automatico.py: claims on the insertions and the runs  *)
(* ===================================================================== *)

Section InjectorStepClaims.
Import Injector.

(** C3, as stated, fails: in a text with two adjacencies step 2 splices
    before the body tag of the first one, at offset 9, and not before
    that of the last one, at offset 26. *)
Lemma C3_counterexample :
  contains THEME_SCRIPT_PATTERN two_bodies = false /\
  last_adjacency two_bodies = Some (17, 26) /\
  body_insertion two_bodies false (one_file "a.html" two_bodies) =
    (say (one_file "a.html" two_bodies) [JsAgregado],
     Some (splice 9 body_snippet two_bodies, true)) /\
  splice 9 body_snippet two_bodies <> splice 26 body_snippet two_bodies.
Proof. split_and!; [reflexivity | reflexivity | reflexivity | discriminate]. Qed.

(** C3, amended. When the text has no theme-script marker, step 2 takes
    the first (leftmost) place where a closing script tag, compared
    without case, is followed across whitespace by a closing body tag,
    and splices the script fragment, a newline and two spaces just
    before that body tag; when there is no such place it returns the
    text and the flag as they were and prints nothing. *)
Theorem C3_body_insertion_leftmost (c : text) (m : bool) (w : world) :
  contains THEME_SCRIPT_PATTERN c = false ->
  (forall i p, first_adjacency c = Some (i, p) ->
     body_insertion c m w =
       (say w [JsAgregado],
        Some (take p c ++ THEME_SCRIPT ++ nl ++ lit "  " ++ drop p c, true))) /\
  (first_adjacency c = None -> body_insertion c m w = (w, Some (c, m))).
Proof.
  intros Hs. rewrite body_insertion_run. unfold body_found, body_text. rewrite Hs.
  split.
  - intros i p ->. unfold splice, body_snippet. by rewrite <- !app_assoc.
  - intros ->. by rewrite say_nil.
Qed.

Lemma C3_witness :
  (forall i p, first_adjacency two_bodies = Some (i, p) ->
     body_insertion two_bodies false (one_file "a.html" two_bodies) =
       (say (one_file "a.html" two_bodies) [JsAgregado],
        Some (take p two_bodies ++ THEME_SCRIPT ++ nl ++ lit "  " ++ drop p two_bodies,
              true))) /\
  (first_adjacency two_bodies = None ->
     body_insertion two_bodies false (one_file "a.html" two_bodies) =
       (one_file "a.html" two_bodies, Some (two_bodies, false))).
Proof.
  apply (C3_body_insertion_leftmost two_bodies false (one_file "a.html" two_bodies)).
  reflexivity.
Defined.

(** C4, as stated, fails: in [page_b] the closed stylesheet tag of the
    anchor ends at offset 162 and a newline follows it; step 1 splices
    at offset 163, after the newline, and not at the end of the tag. *)
Lemma C4_counterexample :
  first_anchor page_b = Some (117, 162) /\
  head_insertion page_b false (one_file "b.html" page_b) =
    (say (one_file "b.html" page_b) [CssAgregado],
     Some (splice 163 head_snippet page_b, true)) /\
  splice 163 head_snippet page_b <> splice 162 head_snippet page_b /\
  splice 163 head_snippet page_b <> splice 162 THEME_RESOURCES page_b.
Proof. split_and!; [reflexivity | reflexivity | discriminate | discriminate]. Qed.

(** C4, amended. When the head anchor (the icon-font name and the first
    closed stylesheet tag after it, leftmost in the text) is found,
    step 1 splices a newline, the CSS fragment and a newline after the
    whitespace that follows the tag of the anchor; when it is not found
    step 1 returns the text and the flag as they were, prints nothing and
    raises nothing. *)
Theorem C4_head_insertion_after_spaces (c : text) (m : bool) (w : world) :
  (forall i g, first_anchor c = Some (i, g) ->
     head_insertion c m w =
       (say w [CssAgregado],
        Some (take (after_spaces g c) c ++ nl ++ THEME_RESOURCES ++ nl
                ++ drop (after_spaces g c) c, true))) /\
  (first_anchor c = None -> head_insertion c m w = (w, Some (c, m))).
Proof.
  rewrite head_insertion_run. unfold head_found, head_text. split.
  - intros i g ->. unfold splice, head_snippet. by rewrite <- !app_assoc.
  - intros ->. by rewrite say_nil.
Qed.

Lemma C4_witness :
  (forall i g, first_anchor page_b = Some (i, g) ->
     head_insertion page_b false (one_file "b.html" page_b) =
       (say (one_file "b.html" page_b) [CssAgregado],
        Some (take (after_spaces g page_b) page_b ++ nl ++ THEME_RESOURCES ++ nl
                ++ drop (after_spaces g page_b) page_b, true))) /\
  (first_anchor page_b = None ->
     head_insertion page_b false (one_file "b.html" page_b) =
       (one_file "b.html" page_b, Some (page_b, false))).
Proof.
  apply (C4_head_insertion_after_spaces page_b false (one_file "b.html" page_b)).
Defined.



End InjectorStepClaims.

Section SecondRunClaim.
Import Injector.

(** C1, as stated, fails: [page_d] has the CDN reference and no head
    anchor; the first run inserts the script fragment only, and on the
    second run the file is reported as one that could not be modified,
    not as one that already has the theme. *)
Lemma C1_counterexample :
  candidates (single_page page_d) = [path_join PROJECT_PATH "d.html"] /\
  candidates (main (single_page page_d)).1 = [path_join PROJECT_PATH "d.html"] /\
  (update_html_file (path_join PROJECT_PATH "d.html") (main (single_page page_d)).1).2 =
    Some skipped /\
  stdout (update_html_file (path_join PROJECT_PATH "d.html")
            (main (single_page page_d)).1).1 =
    stdout (main (single_page page_d)).1 ++ [Procesando "d.html"; NoSePudoModificar] /\
  stdout (update_html_file (path_join PROJECT_PATH "d.html")
            (main (single_page page_d)).1).1 <>
    stdout (main (single_page page_d)).1 ++ [Omitido "d.html"].
Proof.
  assert (stdout (update_html_file (path_join PROJECT_PATH "d.html")
                    (main (single_page page_d)).1).1 =
          stdout (main (single_page page_d)).1 ++
            [Procesando "d.html"; NoSePudoModificar]) as Hsecond
    by (vm_compute; reflexivity).
  split; [| split; [| split; [| split]]].
  - vm_compute. reflexivity.
  - vm_compute. reflexivity.
  - vm_compute. reflexivity.
  - exact Hsecond.
  - intros H. pose proof (eq_trans (eq_sym Hsecond) H) as H'.
    by apply app_inv_head in H'.
Qed.

(** C1, amended. A second run of the injector changes no file.  For a
    file of the candidate list whose first call reported no error, the
    second call returns skipped and writes nothing; it prints that the
    theme is already there when the text had the resource marker or the
    head anchor, and that the file could not be modified otherwise. *)
Theorem C1_second_run (w : world) :
  files (main (main w).1).1 = files (main w).1 /\
  forall path f c,
    In path (candidates w) ->
    files w !! path = Some f -> content f = Some c ->
    (update_html_file path w).2 <> Some error ->
    update_html_file path (update_html_file path w).1 =
      (say (update_html_file path w).1
           (if contains THEME_RESOURCES_PATTERN c || head_found c
            then [Omitido (relative_path path)]
            else [Procesando (relative_path path); NoSePudoModificar]),
       Some skipped).
Proof.
  split; [apply main_twice |].
  intros path f c _. apply second_call.
Qed.

Lemma C1_witness :
  files (main (main three_files).1).1 = files (main three_files).1 /\
  update_html_file (path_join PROJECT_PATH "b.html")
    (update_html_file (path_join PROJECT_PATH "b.html") three_files).1 =
    (say (update_html_file (path_join PROJECT_PATH "b.html") three_files).1
         (if contains THEME_RESOURCES_PATTERN page_b || head_found page_b
          then [Omitido (relative_path (path_join PROJECT_PATH "b.html"))]
          else [Procesando (relative_path (path_join PROJECT_PATH "b.html"));
                NoSePudoModificar]),
     Some skipped).
Proof.
  destruct (C1_second_run three_files) as [H1 H2]. split; [exact H1 |].
  apply (H2 (path_join PROJECT_PATH "b.html") (File (Some page_b) true) page_b).
  - vm_compute. tauto.
  - reflexivity.
  - reflexivity.
  - vm_compute. discriminate.
Defined.
End SecondRunClaim.

Section ThreeFilesClaim.
Import Injector.

(** C2, as stated, fails: [three_files] is the scenario, with (a), (b)
    and (c) in this order; the run ends with the counters updated 1,
    skipped 1, errors 0, and not with skipped 2, because (a) is left out
    of the candidate list and never counted. *)
Lemma C2_counterexample :
  html_paths (tree three_files PROJECT_PATH) =
    [path_join PROJECT_PATH "a.html"; path_join PROJECT_PATH "b.html";
     path_join PROJECT_PATH "c.html"] /\
  contains (lit "cdn.tailwindcss.com") page_a = false /\
  (contains (lit "cdn.tailwindcss.com") page_b = true /\
   contains THEME_RESOURCES_PATTERN page_b = false /\
   contains THEME_SCRIPT_PATTERN page_b = false /\
   first_anchor page_b = Some (117, 162) /\
   first_adjacency page_b = Some (184, 194)) /\
  (contains (lit "cdn.tailwindcss.com") page_c = true /\
   contains THEME_RESOURCES_PATTERN page_c = true) /\
  (main three_files).2 = Some tt /\
  stdout (main three_files).1 =
    plain_header 2 ++
    updated_trace (path_join PROJECT_PATH "b.html") ++
    skipped_trace (path_join PROJECT_PATH "c.html") ++
    main_summary (1, 1, 0) /\
  ~ exists lines, stdout (main three_files).1 = lines ++ main_summary (1, 2, 0).
Proof.
  assert (Hrun : stdout (main three_files).1 =
                 (plain_header 2 ++
                  updated_trace (path_join PROJECT_PATH "b.html") ++
                  skipped_trace (path_join PROJECT_PATH "c.html")) ++
                 main_summary (1, 1, 0))
    by (vm_compute; reflexivity).
  split_and!; try (vm_compute; reflexivity).
  intros [lines Hl].
  pose proof (eq_trans (eq_sym Hrun) Hl) as Heq.
  apply app_inj_2 in Heq; [| reflexivity].
  destruct Heq as [_ Heq]. discriminate Heq.
Qed.

(** C2. A tree whose HTML files are three: (a) without the CDN
    reference, (b) writable, with the CDN reference, both anchors and no
    marker, (c) with the CDN reference and the resource marker. The
    candidate list holds (b) and (c) only; one run writes (b) with both
    snippets and changes no other file, prints the trace of an updated
    file for (b) and of a skipped file for (c), in the order of the
    listing, and ends with the counters updated 1, skipped 1, errors 0:
    (a) is not counted. *)
Theorem C2_three_files (w : world) (pa pb pc : string) (fa fb fc : file)
        (ca cb cc : text) (i g q p : nat) :
  Permutation (html_paths (tree w PROJECT_PATH)) [pa; pb; pc] ->
  files w !! pa = Some fa -> content fa = Some ca ->
  contains (lit "cdn.tailwindcss.com") ca = false ->
  files w !! pb = Some fb -> content fb = Some cb -> writable fb = true ->
  contains (lit "cdn.tailwindcss.com") cb = true ->
  contains THEME_RESOURCES_PATTERN cb = false ->
  contains THEME_SCRIPT_PATTERN cb = false ->
  first_anchor cb = Some (i, g) -> first_adjacency cb = Some (q, p) ->
  files w !! pc = Some fc -> content fc = Some cc ->
  contains (lit "cdn.tailwindcss.com") cc = true ->
  contains THEME_RESOURCES_PATTERN cc = true ->
  (candidates w = [pb; pc] \/ candidates w = [pc; pb]) /\
  exists trace,
    (trace = updated_trace pb ++ skipped_trace pc \/
     trace = skipped_trace pc ++ updated_trace pb) /\
    main w =
      (World (tree w)
             (<[pb := File (Some (injected cb)) true]> (files w))
             (stdout w ++ plain_header 2 ++ trace ++ main_summary (1, 1, 0)),
       Some tt).
Proof.
  intros Hperm Hfa Hca Hna Hfb Hcb Hwb Hnb Hrb Hsb Hab Hbb Hfc Hcc Hnc Hrc.
  assert (Hbc : pb <> pc) by (intros ->; congruence).
  pose proof (is_candidate_true _ _ _ _ Hfa Hca) as Ia. rewrite Hna in Ia.
  pose proof (is_candidate_true _ _ _ _ Hfb Hcb) as Ib. rewrite Hnb in Ib.
  pose proof (is_candidate_true _ _ _ _ Hfc Hcc) as Ic. rewrite Hnc in Ic.
  assert (Hcand : Permutation [pb; pc] (candidates w)).
  { symmetry. unfold candidates.
    rewrite (filter_Permutation_bool _ _ _ Hperm). simpl.
    by rewrite Ia, Ib, Ic. }
  assert (Hhdr : main_header w = plain_header 2).
  { unfold main_header, plain_header.
    rewrite <- (Permutation_length Hcand).
    assert (Hu : List.filter (unreadable (files w))
                   (html_paths (tree w PROJECT_PATH)) = []).
    { apply Permutation_nil. symmetry.
      rewrite (filter_Permutation_bool _ _ _ Hperm). simpl.
      unfold unreadable. by rewrite Hfa, Hfb, Hfc, Hca, Hcb, Hcc. }
    by rewrite Hu. }
  pose (w0 := say w (plain_header 2)).
  assert (Hub : forall l, update_html_file pb (say w l) =
            (say (store (say w l) pb (injected cb))
                 [Procesando (relative_path pb); CssAgregado; JsAgregado;
                  ArchivoGuardado], Some updated)).
  { intros l. by apply (update_both_steps (say w l) pb fb cb i g q p). }
  assert (Huc : forall w1, files w1 !! pc = Some fc ->
            update_html_file pc w1 = (say w1 [Omitido (relative_path pc)], Some skipped)).
  { intros w1 H1. by apply (update_marked w1 pc fc cc). }
  pose proof (main_run w) as Hm. rewrite Hhdr in Hm.
  apply Permutation_length_2_inv in Hcand.
  destruct Hcand as [Hcand | Hcand]; rewrite Hcand in Hm; (split; [by auto |]).
  - exists (updated_trace pb ++ skipped_trace pc). split; [by left |].
    pose proof (Hub (plain_header 2)) as H1.
    match type of H1 with _ = (?w1, _) =>
      assert (H2 : files (say w1 [Blank]) !! pc = Some fc)
        by (simpl; by rewrite lookup_insert_ne);
      apply Huc in H2
    end.
    pose proof (tally_two _ pb pc _ _ _ _ H1 H2) as Ht.
    rewrite (Hm _ _ Ht).
    unfold say, store, updated_trace, skipped_trace. simpl.
    by rewrite <- !app_assoc.
  - exists (skipped_trace pc ++ updated_trace pb). split; [by right |].
    pose proof (Huc (say w (plain_header 2)) Hfc) as H1.
    pose proof (Hub (plain_header 2 ++ [Omitido (relative_path pc)] ++ [Blank])) as H2.
    rewrite <- !say_say in H2.
    pose proof (tally_two _ pc pb _ _ _ _ H1 H2) as Ht.
    rewrite (Hm _ _ Ht).
    unfold say, store, updated_trace, skipped_trace. simpl.
    by rewrite <- !app_assoc.
Qed.

Lemma C2_witness :
  (candidates three_files =
     [path_join PROJECT_PATH "b.html"; path_join PROJECT_PATH "c.html"] \/
   candidates three_files =
     [path_join PROJECT_PATH "c.html"; path_join PROJECT_PATH "b.html"]) /\
  exists trace,
    (trace = updated_trace (path_join PROJECT_PATH "b.html") ++
             skipped_trace (path_join PROJECT_PATH "c.html") \/
     trace = skipped_trace (path_join PROJECT_PATH "c.html") ++
             updated_trace (path_join PROJECT_PATH "b.html")) /\
    main three_files =
      (World (tree three_files)
             (<[path_join PROJECT_PATH "b.html" := File (Some (injected page_b)) true]>
                (files three_files))
             (stdout three_files ++ plain_header 2 ++ trace ++ main_summary (1, 1, 0)),
       Some tt).
Proof.
  apply (C2_three_files three_files
           (path_join PROJECT_PATH "a.html") (path_join PROJECT_PATH "b.html")
           (path_join PROJECT_PATH "c.html")
           (File (Some page_a) true) (File (Some page_b) true) (File (Some page_c) true)
           page_a page_b page_c 117 162 184 194); reflexivity.
Defined.
End ThreeFilesClaim.

(* ===================================================================== *)
(** ** Further facts on calls, loops, paths and the snippets             *)
(* ===================================================================== *)

Section CallFacts.
Import Injector.

Lemma splice_sublist (p : nat) (x s : text) : s `sublist_of` splice p x s.
Proof.
  unfold splice. rewrite <- (take_drop p s) at 1.
  apply sublist_app; [done |]. by apply sublist_inserts_l.
Qed.

Lemma head_text_sublist (c : text) : c `sublist_of` head_text c.
Proof.
  unfold head_text. destruct (first_anchor c) as [[i g]|]; [| done].
  apply splice_sublist.
Qed.

Lemma body_text_sublist (c : text) : c `sublist_of` body_text c.
Proof.
  unfold body_text. destruct (contains THEME_SCRIPT_PATTERN c); [done |].
  destruct (first_adjacency c) as [[q p]|]; [| done]. apply splice_sublist.
Qed.

Lemma injected_sublist (c : text) : c `sublist_of` injected c.
Proof.
  unfold injected. etransitivity; [apply head_text_sublist | apply body_text_sublist].
Qed.

Lemma injected_length (c : text) :
  length (injected c) =
  length c + (if head_found c then length head_snippet else 0)
           + (if body_found (head_text c) then length body_snippet else 0).
Proof.
  unfold injected, body_found, body_text.
  assert (length (head_text c) =
          length c + (if head_found c then length head_snippet else 0)) as Hh.
  { unfold head_text, head_found. destruct (first_anchor c) as [[i g]|].
    - apply splice_length.
    - simpl. lia. }
  destruct (contains THEME_SCRIPT_PATTERN (head_text c)); cbn [negb andb];
    [rewrite Hh; lia |].
  destruct (first_adjacency (head_text c)) as [[q p]|];
    [rewrite splice_length | ]; rewrite Hh; lia.
Qed.

Lemma unreadable_cases (fs : gmap string file) (path : string) :
  unreadable fs path = true ->
  fs !! path = None \/ exists f, fs !! path = Some f /\ content f = None.
Proof.
  unfold unreadable. destruct (fs !! path) as [f|]; [| by left].
  destruct (content f) eqn:Hc; [done |]. intros _. right. by exists f.
Qed.

Lemma unreadable_false (fs : gmap string file) (path : string) :
  unreadable fs path = false ->
  exists f c, fs !! path = Some f /\ content f = Some c.
Proof.
  unfold unreadable. destruct (fs !! path) as [f|]; [| done].
  destruct (content f) as [c|] eqn:Hc; [| done]. by exists f, c.
Qed.
End CallFacts.

Section RunFacts.
Import Injector.

Lemma update_frame (w : world) (path : string) :
  exists w1 r lines,
    update_html_file path w = (w1, Some r) /\
    tree w1 = tree w /\
    stdout w1 = stdout w ++ lines /\
    (forall p, p <> path -> files w1 !! p = files w !! p) /\
    (forall p, files w1 !! p = None <-> files w !! p = None).
Proof.
  destruct (files w !! path) as [f|] eqn:Hf.
  - destruct (content f) as [c|] eqn:Hc.
    + rewrite (update_run w path f c Hf Hc).
      destruct (contains THEME_RESOURCES_PATTERN c); [by eexists _, _, _ |].
      destruct (modified c); [| by eexists _, _, _].
      destruct (writable f); [| by eexists _, _, _].
      eexists _, _, _. split_and!; [done | done | done | |].
      * intros p Hp. cbn [say store files]. by rewrite lookup_insert_ne.
      * intros p. cbn [say store files].
        destruct (decide (p = path)) as [-> | Hp].
        -- rewrite lookup_insert_eq, Hf. done.
        -- by rewrite lookup_insert_ne.
    + rewrite update_unreadable by (right; by exists f). by eexists _, _, _.
  - rewrite update_unreadable by by left. by eexists _, _, _.
Qed.

Lemma update_grows (w : world) (path : string) (f : file) (c : text) :
  files w !! path = Some f -> content f = Some c ->
  exists f' c',
    files (update_html_file path w).1 !! path = Some f' /\
    content f' = Some c' /\ c `sublist_of` c'.
Proof.
  intros Hf Hc. rewrite (update_run w path f c Hf Hc).
  destruct (contains THEME_RESOURCES_PATTERN c); [by exists f, c |].
  destruct (modified c); [| by exists f, c].
  destruct (writable f); [| by exists f, c].
  exists (File (Some (injected c)) true), (injected c).
  cbn [fst say store files]. rewrite lookup_insert_eq.
  split_and!; [done | | apply injected_sublist].
  apply content_written, injected_no_cr, (content_no_cr f), Hc.
Qed.

Lemma update_settled_result (w : world) (p : string) :
  settled (files w !! p) = true -> (update_html_file p w).2 <> Some updated.
Proof.
  destruct (files w !! p) as [f|] eqn:Hf; [destruct (content f) as [c|] eqn:Hc |].
  - rewrite (update_run w p f c Hf Hc). unfold settled. rewrite Hc.
    destruct (contains THEME_RESOURCES_PATTERN c); [done |].
    destruct (modified c); [| done]. by destruct (writable f).
  - intros _. rewrite update_unreadable; [done |]. right. by eexists.
  - intros _. rewrite update_unreadable; [done |]. by left.
Qed.

Lemma total_count (r : result) (acc : nat * nat * nat) :
  total (count r acc) = total acc + 1.
Proof. destruct acc as [[u s] e], r; simpl; lia. Qed.

(** The loop of [main] counts every path it is given and only prints
    after what was printed. *)
Lemma tally_counts (l : list string) (acc : nat * nat * nat) (w : world) :
  exists w' lines counters,
    for_each l tally_step acc w = (w', Some counters) /\
    stdout w' = stdout w ++ lines /\
    total counters = total acc + length l.
Proof.
  revert acc w. induction l as [|p l IH]; intros acc w.
  - exists w, [], acc. split_and!; [done | by rewrite app_nil_r | simpl; lia].
  - destruct (update_frame w p) as (w1 & r & lines & Hu & _ & Hout & _).
    cbn [for_each]. rewrite (bind_run _ _ _ _ _ (tally_step_run _ acc _ _ _ Hu)).
    destruct (IH (count r acc) (say w1 [Blank])) as (w' & lines' & cnt & Hrun & Hout' & Htot).
    exists w', (lines ++ [Blank] ++ lines'), cnt. split_and!; [done | |].
    + rewrite Hout'. cbn [say stdout]. rewrite Hout. by rewrite <- !app_assoc.
    + rewrite Htot, total_count. simpl. lia.
Qed.

(** On paths that are settled the loop updates nothing and writes
    nothing. *)
Lemma tally_settled (l : list string) (u s e : nat) (w : world) :
  (forall p, In p l -> settled (files w !! p) = true) ->
  exists w' lines s' e',
    for_each l tally_step (u, s, e) w = (w', Some (u, s', e')) /\
    files w' = files w /\
    stdout w' = stdout w ++ lines /\
    s' + e' = s + e + length l.
Proof.
  revert s e w. induction l as [|p l IH]; intros s e w Hall.
  - exists w, [], s, e. split_and!; [done | done | by rewrite app_nil_r | simpl; lia].
  - destruct (update_frame w p) as (w1 & r & lines & Hu & _ & Hout & _).
    pose proof (update_settled w p (Hall p (or_introl eq_refl))) as Hfiles.
    pose proof (update_settled_result w p (Hall p (or_introl eq_refl))) as Hres.
    rewrite Hu in Hfiles, Hres. cbn [fst snd] in Hfiles, Hres.
    cbn [for_each]. rewrite (bind_run _ _ _ _ _ (tally_step_run _ (u, s, e) _ _ _ Hu)).
    assert (exists s1 e1, count r (u, s, e) = (u, s1, e1) /\ s1 + e1 = s + e + 1)
      as (s1 & e1 & -> & Hse).
    { destruct r; [done | |]; simpl; eexists _, _; split; try done; lia. }
    destruct (IH s1 e1 (say w1 [Blank])) as (w' & lines' & s' & e' & Hrun & Hf' & Hout' & Htot).
    { intros p' Hp'. cbn [say files]. rewrite Hfiles. apply Hall. by right. }
    exists w', (lines ++ [Blank] ++ lines'), s', e'. split_and!; [done | | |].
    + by rewrite Hf'.
    + rewrite Hout'. cbn [say stdout]. rewrite Hout. by rewrite <- !app_assoc.
    + simpl. lia.
Qed.

Lemma html_paths_In (walk : list (string * list string * list string)) (path : string) :
  In path (html_paths walk) <->
  exists root dirs names name,
    In (root, dirs, names) walk /\ In name names /\
    endswith name ".html" = true /\ path = path_join root name.
Proof.
  unfold html_paths. rewrite in_flat_map. split.
  - intros ([[root dirs] names] & Hin & Hp).
    apply in_map_iff in Hp as (name & <- & Hn). apply filter_In in Hn as [Hn He].
    by exists root, dirs, names, name.
  - intros (root & dirs & names & name & Hin & Hn & He & ->).
    exists (root, dirs, names). split; [done |].
    apply in_map. by apply filter_In.
Qed.

Lemma filter_sublist_bool {A} (f : A -> bool) (l : list A) :
  List.filter f l `sublist_of` l.
Proof.
  induction l as [|x l IH]; simpl; [done |].
  destruct (f x); [by apply sublist_skip | by apply sublist_cons].
Qed.

Lemma is_candidate_spec (fs : gmap string file) (path : string) :
  is_candidate fs path = true <->
  exists f c, fs !! path = Some f /\ content f = Some c /\
              contains (lit "cdn.tailwindcss.com") c = true.
Proof.
  split.
  - unfold is_candidate. destruct (fs !! path) as [f|] eqn:Hf; [| done].
    destruct (content f) as [c|] eqn:Hcf; [| done].
    intros H. exists f, c. split_and!; [done | done |].
    destruct (search no_flags TAILWIND_PATTERN c) eqn:Hs; [| done].
    destruct (contains (lit "cdn.tailwindcss.com") c) eqn:Hc; [done |].
    apply tailwind_search in Hc. congruence.
  - intros (f & c & Hf & Hc & Hcdn). by rewrite (is_candidate_true fs path f c Hf Hc).
Qed.
End RunFacts.

Section FixerFacts.
Import Fixer.

Lemma fix_unreadable (w : world) (path : string) :
  unreadable (files w) path = true ->
  fix_theme_resources_format path w = (say w [ErrorMsg], Some false).
Proof.
  intros H. unfold fix_theme_resources_format, try_except, bind, read_text.
  destruct (unreadable_cases _ _ H) as [-> | (f & -> & ->)]; reflexivity.
Qed.

(** One call of the fixer, whatever the path. *)
Lemma fix_call (w : world) (path : string) :
  exists lines,
    fix_theme_resources_format path w =
      (World (tree w)
             (if needs_fix (files w) path
              then match files w !! path ≫= content with
                   | Some c => <[path := File (Some (reformat c)) true]> (files w)
                   | None => files w
                   end
              else files w)
             (stdout w ++ lines),
       Some (needs_fix (files w) path)).
Proof.
  destruct (unreadable (files w) path) eqn:Hu.
  - rewrite (fix_unreadable _ _ Hu). exists [ErrorMsg]. unfold needs_fix.
    by destruct (unreadable_cases _ _ Hu) as [-> | (f & -> & ->)].
  - destruct (unreadable_false _ _ Hu) as (f & c & Hf & Hc).
    rewrite (fix_run w path f c Hf Hc). unfold needs_fix. rewrite Hf. simpl.
    rewrite Hc.
    destruct (contains unix_adjacency c), (contains windows_adjacency c), (writable f);
      cbn [negb andb orb]; by eexists.
Qed.

Lemma fix_call_lookup (w : world) (path p : string) :
  files (fix_theme_resources_format path w).1 !! p =
  if decide (p = path) then fixed_file (files w) path else files w !! p.
Proof.
  destruct (fix_call w path) as [lines ->]. cbn [fst files].
  unfold fixed_file. destruct (needs_fix (files w) path) eqn:Hn.
  - unfold needs_fix in Hn.
    destruct (files w !! path) as [f|] eqn:Hf; [| done]. simpl.
    destruct (content f) as [c|] eqn:Hc; [| done].
    destruct (decide (p = path)) as [-> | Hne].
    + by rewrite lookup_insert_eq.
    + by rewrite lookup_insert_ne.
  - by destruct (decide (p = path)) as [-> | Hne].
Qed.

Lemma needs_fix_other (w : world) (path p : string) :
  p <> path ->
  needs_fix (files (fix_theme_resources_format path w).1) p = needs_fix (files w) p.
Proof.
  intros Hne. unfold needs_fix. rewrite fix_call_lookup.
  by destruct (decide (p = path)).
Qed.

Lemma fixed_file_other (w : world) (path p : string) :
  p <> path ->
  fixed_file (files (fix_theme_resources_format path w).1) p = fixed_file (files w) p.
Proof.
  intros Hne. unfold fixed_file. rewrite needs_fix_other by done.
  rewrite fix_call_lookup. by destruct (decide (p = path)).
Qed.

Lemma for_each_app {A S} (l1 l2 : list A) (body : A -> S -> M S) (s : S) (w : world) :
  for_each (l1 ++ l2) body s w = bind (for_each l1 body s) (for_each l2 body) w.
Proof.
  revert s w. induction l1 as [|a l1 IH]; intros s w; [done |].
  cbn [for_each app]. unfold bind in *.
  destruct (body a s w) as [w1 [s1|]]; [apply IH | done].
Qed.

Lemma bind_congr {A B} (c1 c2 : M A) (k1 k2 : A -> M B) (w : world) :
  c1 w = c2 w -> (forall a w', k1 a w' = k2 a w') -> bind c1 k1 w = bind c2 k2 w.
Proof. intros Hc Hk. unfold bind. rewrite Hc. by destruct (c2 w) as [w' [a|]]. Qed.

Lemma fix_each_cons (p : string) (l : list string) (fixed : nat) (w : world) :
  fix_each (p :: l) fixed w =
  bind (do ok <- fix_theme_resources_format p;
        if ok then ret (fixed + 1) else ret fixed) (fix_each l) w.
Proof. reflexivity. Qed.

(** The loop over the names of one directory is the loop over its HTML
    paths. *)
Lemma fix_names_run (root : string) (names : list string) (fixed : nat) (w : world) :
  for_each names
    (fun file fixed =>
       if endswith file ".html" then
         let file_path := path_join root file in
         do ok <- fix_theme_resources_format file_path;
         if ok then ret (fixed + 1) else ret fixed
       else ret fixed) fixed w =
  fix_each (map (path_join root) (List.filter (fun n => endswith n ".html") names)) fixed w.
Proof.
  revert fixed w. induction names as [|n names IH]; intros fixed w; [done |].
  cbn [for_each List.filter]. destruct (endswith n ".html").
  - cbn [map]. rewrite fix_each_cons. by apply bind_congr.
  - rewrite bind_ret. apply IH.
Qed.

Lemma fix_walk_run (walk : list (string * list string * list string))
      (fixed : nat) (w : world) :
  for_each walk
    (fun '(root, dirs, names) fixed =>
       for_each names
         (fun file fixed =>
            if endswith file ".html" then
              let file_path := path_join root file in
              do ok <- fix_theme_resources_format file_path;
              if ok then ret (fixed + 1) else ret fixed
            else ret fixed) fixed) fixed w =
  fix_each (html_paths walk) fixed w.
Proof.
  revert fixed w. induction walk as [|[[root dirs] names] walk IH]; intros fixed w; [done |].
  cbn [for_each html_paths flat_map]. unfold fix_each at 1. rewrite for_each_app.
  fold (fix_each (map (path_join root) (List.filter (fun n => endswith n ".html") names))).
  fold (fix_each (html_paths walk)).
  apply bind_congr; [apply fix_names_run | apply IH].
Qed.

(** The loop over distinct paths: every path is treated as it was before
    the loop. *)
Lemma fix_each_run (l : list string) (fixed : nat) (w : world) :
  List.NoDup l ->
  exists w' lines,
    fix_each l fixed w = (w', Some (fixed + length (List.filter (needs_fix (files w)) l))) /\
    tree w' = tree w /\
    stdout w' = stdout w ++ lines /\
    (forall p, In p l -> files w' !! p = fixed_file (files w) p) /\
    (forall p, ~ In p l -> files w' !! p = files w !! p).
Proof.
  intros Hnd. revert fixed w. induction Hnd as [|p0 l Hnotin Hnd IH]; intros fixed w.
  - exists w, []. split_and!; [| done | by rewrite app_nil_r | by intros p [] | done].
    unfold fix_each. simpl. by rewrite Nat.add_0_r.
  - rewrite fix_each_cons.
    pose proof (fix_call_lookup w p0) as Hlook.
    assert (forall p, In p l ->
              needs_fix (files (fix_theme_resources_format p0 w).1) p =
              needs_fix (files w) p) as Hneeds.
    { intros p Hp. apply needs_fix_other. by intros ->. }
    assert (forall p, In p l ->
              fixed_file (files (fix_theme_resources_format p0 w).1) p =
              fixed_file (files w) p) as Hfixed.
    { intros p Hp. apply fixed_file_other. by intros ->. }
    destruct (fix_call w p0) as [lines Hcall]. rewrite Hcall in Hlook, Hneeds, Hfixed.
    cbn [fst] in Hlook, Hneeds, Hfixed.
    unfold bind at 1. unfold bind at 1. rewrite Hcall.
    match goal with |- context [World ?t ?fs ?o] => set (w1 := World t fs o) in * end.
    set (n1 := if needs_fix (files w) p0 then fixed + 1 else fixed).
    assert ((if needs_fix (files w) p0 then ret (fixed + 1) else ret fixed) w1
            = (w1, Some n1)) as -> by (unfold n1; by destruct (needs_fix (files w) p0)).
    destruct (IH n1 w1) as (w' & lines' & Hrun & Ht & Hout & Hin & Hnin).
    exists w', (lines ++ lines'). split_and!.
    + rewrite Hrun. do 2 f_equal. cbn [List.filter].
      rewrite (List.filter_ext_in (needs_fix (files w1)) (needs_fix (files w)) l Hneeds).
      unfold n1. destruct (needs_fix (files w) p0); simpl; lia.
    + by rewrite Ht.
    + rewrite Hout. cbn [w1 stdout]. by rewrite <- app_assoc.
    + intros p [<- | Hp].
      * rewrite (Hnin _ Hnotin), Hlook. by rewrite decide_True.
      * rewrite (Hin _ Hp). by apply Hfixed.
    + intros p Hp. rewrite Hnin by (intros H; apply Hp; by right).
      rewrite Hlook. rewrite decide_False; [done |]. intros ->. apply Hp. by left.
Qed.

Lemma fixer_main_run (w w' : world) (fixed : nat) :
  fix_each (html_paths (tree w PROJECT_PATH)) 0 (say w [Regla; TituloArreglar; ReglaNl])
    = (w', Some fixed) ->
  main w = (say w' [NlRegla; Corregidos fixed; Regla], Some tt).
Proof.
  intros Hrun.
  pose proof (fix_walk_run (tree w PROJECT_PATH) 0 (say w [Regla; TituloArreglar; ReglaNl]))
    as Hw. rewrite Hrun in Hw.
  unfold main. rewrite !bind_print, !say_say.
  rewrite (bind_run _ _ _ _ _
             (eq_refl : os_walk PROJECT_PATH (say w _) = (say w _, Some (tree w PROJECT_PATH)))).
  rewrite (bind_run _ _ _ _ _ Hw).
  rewrite !bind_print, print_say, !say_say. reflexivity.
Qed.

Lemma solid_app (a b : text) : solid (a ++ b) = solid a ++ solid b.
Proof. apply List.filter_app. Qed.

Lemma solid_spaces (ws : text) : forallb is_space ws = true -> solid ws = [].
Proof.
  induction ws as [|x ws IH]; [done |]. simpl. intros [Hx Hws]%andb_prop.
  rewrite Hx. simpl. by apply IH.
Qed.

(** The substitution changes whitespace only. *)
Lemma reformat_solid (s : text) : solid (reformat s) = solid s.
Proof.
  remember (length s) as n eqn:Hn. revert s Hn.
  induction n as [n IH] using lt_wf_ind. intros s ->.
  destruct s as [|x s]; [by rewrite reformat_nil |].
  destruct (format_here (x :: s)) as [k|] eqn:Hf.
  - rewrite (reformat_match _ _ Hf).
    apply format_here_some in Hf as (ws & rest & Hs & <- & Hws & _).
    rewrite Hs at 2. rewrite Hs.
    replace (drop (30 + length ws) (closing_div ++ ws ++ lit "<script" ++ rest))
      with rest.
    2:{ rewrite !app_assoc, drop_app_length'; [done |].
        rewrite !length_app. simpl. lia. }
    rewrite !solid_app, (solid_spaces ws Hws).
    rewrite (IH (length rest)); [reflexivity | | done].
    rewrite Hs, !length_app. simpl. lia.
  - rewrite reformat_copy by done. unfold solid in *. simpl.
    rewrite (IH (length s)); [done | simpl; lia | done].
Qed.

End FixerFacts.

Section Composition.
Import Injector Fixer.

(** Step 1 leaves the tested adjacency when a script tag follows the
    whitespace after the anchor. *)
Lemma head_text_adjacency (c : text) (i g : nat) :
  first_anchor c = Some (i, g) ->
  starts_with (lit "<script") (drop (after_spaces g c) c) = true ->
  contains unix_adjacency (head_text c) = true.
Proof.
  intros Ha Hs. destruct (head_text_some c i g Ha) as [-> _].
  apply starts_with_spec in Hs as [rest Hrest].
  unfold splice. rewrite Hrest.
  assert (head_snippet = (nl ++ take 92 THEME_RESOURCES) ++ closing_div ++ nl) as ->
    by reflexivity.
  rewrite <- !app_assoc.
  rewrite (app_assoc nl (lit "<script") rest), (app_assoc closing_div), app_assoc, app_assoc.
  rewrite <- (app_assoc (take _ c)).
  apply contains_intro.
Qed.

Lemma body_tag_not_in_adjacency (k : nat) (b : text) :
  0 < k < 31 ->
  starts_like body_flags (lit "</body>") (drop k unix_adjacency ++ b) = false.
Proof.
  intros [H0 H31].
  do 31 (destruct k as [|k]; [try lia; reflexivity |]). lia.
Qed.

Lemma body_text_keeps_adjacency (t : text) :
  contains unix_adjacency t = true ->
  contains unix_adjacency (body_text t) = true.
Proof.
  intros Hc. unfold body_text.
  destruct (contains THEME_SCRIPT_PATTERN t); [done |].
  destruct (first_adjacency t) as [[j p]|] eqn:Hadj; [| done].
  destruct (first_adjacency_some t j p Hadj) as [Hjp Hhere].
  apply adjacency_here_some in Hhere as (_ & _ & Hbody).
  rewrite drop_drop in Hbody. replace (j + (p - j)) with p in Hbody by lia.
  apply contains_spec in Hc as (a & b & ->).
  unfold splice.
  destruct (decide (p <= length a)) as [Hle | Hgt].
  - rewrite drop_app_le by done. rewrite !app_assoc, <- (app_assoc _ unix_adjacency).
    apply contains_intro.
  - destruct (decide (length a + 31 <= p)) as [Hge | Hlt].
    + rewrite (app_assoc a), take_app_ge by (rewrite length_app; simpl; lia).
      rewrite <- !app_assoc. apply contains_intro.
    + exfalso. rewrite drop_app_ge in Hbody by lia.
      rewrite drop_app_le in Hbody by (simpl; lia).
      rewrite body_tag_not_in_adjacency in Hbody; [done | lia].
Qed.

Lemma injected_adjacency (c : text) (i g : nat) :
  first_anchor c = Some (i, g) ->
  starts_with (lit "<script") (drop (after_spaces g c) c) = true ->
  contains unix_adjacency (injected c) = true.
Proof.
  intros Ha Hs. apply body_text_keeps_adjacency. by apply (head_text_adjacency c i g).
Qed.
End Composition.

Section PathFacts.

Lemma prefix_length (a b : string) :
  String.prefix a b = true -> String.length a <= String.length b.
Proof.
  revert b. induction a as [|x a IH]; intros b; [simpl; lia |].
  destruct b as [|y b]; simpl; [done |].
  destruct (Ascii.ascii_dec x y); [| done]. intros H. apply IH in H. lia.
Qed.

Lemma prefix_append (a b : string) : String.prefix a (String.append a b) = true.
Proof.
  induction a as [|x a IH]; simpl; [by destruct b |].
  by destruct (Ascii.ascii_dec x x).
Qed.

Lemma replace_from_short (old new s : string) :
  String.length s < String.length old -> replace_from old new 0 s = s.
Proof.
  induction s as [|x s IH]; [done |]. intros Hlen. cbn [replace_from].
  destruct (String.prefix old (String x s)) eqn:Hp.
  - apply prefix_length in Hp. lia.
  - rewrite IH; [done | simpl in Hlen; lia].
Qed.

Lemma replace_from_pass (old new a s : string) :
  replace_from old new (String.length a) (String.append a s) = replace_from old new 0 s.
Proof. induction a as [|x a IH]; [done |]. simpl. apply IH. Qed.

Lemma replace_prefix (x : ascii) (old s : string) :
  String.length s < String.length (String x old) ->
  replace (String.append (String x old) s) (String x old) "" = s.
Proof.
  intros Hlen. unfold replace.
  change (String.append (String x old) s) with (String x (String.append old s)).
  cbn [replace_from].
  change (String x (String.append old s)) with (String.append (String x old) s).
  rewrite prefix_append. cbn [String.append].
  replace (String.length (String x old) - 1) with (String.length old) by (simpl; lia).
  rewrite replace_from_pass. by apply replace_from_short.
Qed.

Lemma append_assoc (a b c : string) :
  String.append (String.append a b) c = String.append a (String.append b c).
Proof.
  induction a as [|x a IH]; [done |].
  change (String x (String.append (String.append a b) c) =
          String x (String.append a (String.append b c))).
  by rewrite IH.
Qed.

Lemma append_length (a b : string) :
  String.length (String.append a b) = String.length a + String.length b.
Proof.
  induction a as [|x a IH]; [done |].
  change (S (String.length (String.append a b)) = S (String.length a + String.length b)).
  by rewrite IH.
Qed.
End PathFacts.

Section HeadOnly.
Import Injector.

Lemma script_tag_not_in_head_snippet (j : nat) (B : text) :
  j < length head_snippet ->
  starts_like body_flags (lit "</script>") (drop j head_snippet ++ B) = false.
Proof.
  intros Hj. change (length head_snippet) with 117 in Hj.
  do 117 (destruct j as [|j]; [reflexivity |]). lia.
Qed.

(** Step 1 makes no adjacency: the snippet holds neither tag, and other
    characters than whitespace stand at both of its ends. *)
Lemma no_adjacency_after_head_splice (c : text) (a : nat) :
  a <= length c ->
  first_adjacency c = None -> first_adjacency (splice a head_snippet c) = None.
Proof.
  intros Ha Hnone.
  destruct (first_adjacency (splice a head_snippet c)) as [[q p]|] eqn:Hsome; [| done].
  exfalso.
  assert (forall q' k, adjacency_here (drop q' c) = Some k -> False) as Habsurd.
  { intros q' k H. destruct (first_adjacency_exists c q' k H) as (? & ? & ?). congruence. }
  apply first_adjacency_some in Hsome as [Hqp Hadj].
  set (k := p - q) in *. unfold splice in Hadj.
  set (A := take a c) in *. set (B := drop a c) in *.
  assert (length A = a) as HA by (unfold A; rewrite length_take; lia).
  assert (c = A ++ B) as Hc by (unfold A, B; by rewrite take_drop).
  destruct (decide (q + k + 7 <= a)) as [Hin | Hout].
  { apply (Habsurd q k). rewrite Hc, drop_app_le by lia.
    rewrite drop_app_le in Hadj by lia.
    apply (adjacency_here_within _ _ _ _ Hadj). rewrite length_drop. lia. }
  destruct (decide (a + length head_snippet <= q)) as [Hpast | Hnot].
  { apply (Habsurd (q - length head_snippet) k).
    rewrite drop_past_snippet in Hadj by lia. by rewrite Hc. }
  destruct (decide (a <= q)) as [Hstart | Hbefore].
  { apply adjacency_here_some in Hadj as (Hscript & _).
    rewrite drop_app_ge, HA, drop_app_le in Hscript by lia.
    rewrite script_tag_not_in_head_snippet in Hscript; [done | lia]. }
  pose proof (proj1 (adjacency_here_some _ _) Hadj) as (_ & _ & Hbody).
  apply adjacency_chars in Hadj as (Hk9 & Hscript & Hws & Hbodyc).
  set (t := drop q (A ++ head_snippet ++ B)) in *.
  set (m := a - q).
  assert (forall d y, head_snippet !! d = Some y -> t !! (m + d) = Some y) as Hx.
  { intros d y Hd. unfold t. rewrite lookup_drop.
    replace (q + (m + d)) with (length A + d) by (unfold m; lia).
    rewrite lookup_app_r by lia. replace (length A + d - length A) with d by lia.
    by apply lookup_app_l_Some. }
  pose proof (Hx 0 _ eq_refl) as H0. rewrite Nat.add_0_r in H0.
  pose proof (Hx 1 _ eq_refl) as H1. pose proof (Hx 2 _ eq_refl) as H2.
  pose proof (Hx 3 _ eq_refl) as H3. pose proof (Hx 4 _ eq_refl) as H4.
  pose proof (Hx 5 _ eq_refl) as H5. pose proof (Hx 6 _ eq_refl) as H6.
  assert (0 < m < k + 7) as Hm by (unfold m; lia).
  destruct (decide (m < 9)) as [Hm9 | Hm9].
  { destruct (Hscript m Hm9) as (y & Hy & Hsp & _). rewrite H0 in Hy.
    injection Hy as <-. done. }
  destruct (decide (m < k)) as [Hmk | Hmk].
  - assert (k <= m + 5) as Hk5.
    { destruct (decide (k <= m + 5)) as [| Hgt]; [done |].
      destruct (Hws (m + 5) ltac:(lia)) as (y & Hy & Hsp). rewrite H5 in Hy.
      injection Hy as <-. done. }
    destruct (Hbodyc 0 ltac:(lia)) as (y & Hy & Hsp & _). rewrite Nat.add_0_r in Hy.
    assert (k = m + 5) as Hk.
    { destruct (decide (k = m + 1)) as [-> |]; [rewrite H1 in Hy; by injection Hy as <- |].
      destruct (decide (k = m + 2)) as [-> |]; [rewrite H2 in Hy; by injection Hy as <- |].
      destruct (decide (k = m + 3)) as [-> |]; [rewrite H3 in Hy; by injection Hy as <- |].
      destruct (decide (k = m + 4)) as [-> |]; [rewrite H4 in Hy; by injection Hy as <- |].
      lia. }
    destruct (starts_like_lookup _ _ _ 1 47%N Hbody eq_refl) as (y1 & Hy1 & Hm1).
    rewrite lookup_drop in Hy1. replace (k + 1) with (m + 6) in Hy1 by lia.
    fold t in Hy1. rewrite H6 in Hy1. injection Hy1 as <-. done.
  - destruct (decide (m - k < 6)) as [Hlt | Hge].
    + destruct (Hbodyc (m - k) Hlt) as (y & Hy & Hsp & _).
      replace (k + (m - k)) with m in Hy by lia. rewrite H0 in Hy.
      injection Hy as <-. done.
    + destruct (starts_like_lookup _ _ _ 6 62%N Hbody eq_refl) as (y1 & Hy1 & Hm1).
      rewrite lookup_drop in Hy1. replace (k + 6) with m in Hy1 by lia.
      fold t in Hy1. rewrite H0 in Hy1. injection Hy1 as <-. done.
Qed.

Lemma head_text_no_adjacency (c : text) :
  first_adjacency c = None -> first_adjacency (head_text c) = None.
Proof.
  intros Hnone. unfold head_text.
  destruct (first_anchor c) as [[i g]|] eqn:Ha; [| done].
  apply no_adjacency_after_head_splice; [| done].
  by destruct (head_text_some c i g Ha) as [_ ?].
Qed.

Lemma head_text_no_script_marker (c : text) :
  contains THEME_SCRIPT_PATTERN c = false ->
  contains THEME_SCRIPT_PATTERN (head_text c) = false.
Proof.
  intros Hs. destruct (first_anchor c) as [[i g]|] eqn:Ha;
    [| unfold head_text; by rewrite Ha].
  destruct markers_plain as (_ & _ & _ & _ & Hp1 & Hp2 & _ & _).
  apply occurrences_zero. rewrite (head_text_count _ c i g Ha Hp1 Hp2).
  apply occurrences_zero in Hs.
  pose proof (occurrences_cut THEME_SCRIPT_PATTERN c (after_spaces g c) Hp1).
  destruct marker_counts as (_ & -> & _). lia.
Qed.
End HeadOnly.

Section Acceptance.
Import Injector.

Lemma adjacency_here_intro (x ws y rest : text) :
  like body_flags (lit "</script>") x = true ->
  forallb is_space ws = true ->
  like body_flags (lit "</body>") y = true ->
  adjacency_here (x ++ ws ++ y ++ rest) = Some (9 + length ws).
Proof.
  intros Hx Hws Hy.
  pose proof (like_length _ _ _ Hx) as Lx. change (length (lit "</script>")) with 9 in Lx.
  assert (span is_space (ws ++ y ++ rest) = length ws) as Hspan.
  { rewrite span_app by done. destruct y as [|y0 y]; [done |].
    simpl in Hy. apply andb_prop in Hy as [Hy0 _].
    apply lt_not_space in Hy0. simpl. rewrite Hy0. lia. }
  apply adjacency_here_some. split_and!.
  - apply starts_like_spec. by exists x, (ws ++ y ++ rest).
  - rewrite drop_app_length' by done. by rewrite Hspan.
  - rewrite <- Lx, <- !drop_drop, drop_app_length' by done.
    rewrite drop_app_length' by done.
    apply starts_like_spec. by exists y, rest.
Qed.

Lemma cut_at (A B c : text) (p : nat) :
  c = A ++ B -> p = length A -> take p c = A /\ drop p c = B.
Proof. intros -> ->. by rewrite take_app_length, drop_app_length. Qed.

Lemma adjacency_here_parts (t : text) (k : nat) :
  adjacency_here t = Some k ->
  exists x ws y rest,
    t = x ++ ws ++ y ++ rest /\
    like body_flags (lit "</script>") x = true /\
    forallb is_space ws = true /\
    like body_flags (lit "</body>") y = true /\
    k = 9 + length ws.
Proof.
  intros (Hx & -> & Hy)%adjacency_here_some.
  apply starts_like_spec in Hx as (x & t1 & -> & Hx).
  pose proof (like_length _ _ _ Hx) as Lx. change (length (lit "</script>")) with 9 in Lx.
  rewrite <- Lx, drop_app_length in Hy |- *.
  rewrite <- drop_drop, drop_app_length in Hy.
  apply starts_like_spec in Hy as (y & rest & Hrest & Hy).
  exists x, (take (span is_space t1) t1), y, rest. split_and!.
  - by rewrite <- Hrest, take_drop.
  - done.
  - apply span_take.
  - done.
  - rewrite length_take. pose proof (span_le is_space t1). lia.
Qed.

(** The leftmost adjacency starts at or before any place that has one. *)
Lemma first_adjacency_leftmost (c : text) (j k : nat) :
  j <= length c -> adjacency_here (drop j c) = Some k ->
  exists q p, first_adjacency c = Some (q, p) /\ q <= j /\
              adjacency_here (drop q c) = Some (p - q) /\ q <= p.
Proof.
  intros Hj Hadj. unfold first_adjacency.
  destruct (first_match adjacency_here c) as [[q k']|] eqn:Hfm.
  - apply first_match_some in Hfm as (Hq & Hhere & Hleft).
    exists q, (q + k'). split_and!; [done | | | lia].
    + destruct (decide (q <= j)) as [| Hgt]; [done |].
      rewrite Hleft in Hadj by lia. done.
    + by replace (q + k' - q) with k' by lia.
  - pose proof (proj1 (first_match_none _ _) Hfm j Hj) as H. congruence.
Qed.

Lemma closed_tag_here_intro (ws close rest : text) :
  forallb is_space ws = true ->
  close = [62%N] \/ close = [47%N; 62%N] ->
  exists g, closed_tag_here (REL_STYLESHEET ++ ws ++ close ++ rest) = Some g.
Proof.
  intros Hws Hclose. unfold closed_tag_here. rewrite starts_with_app.
  change (drop 16 (REL_STYLESHEET ++ ws ++ close ++ rest)) with (ws ++ close ++ rest).
  assert (span is_space (ws ++ close ++ rest) = length ws) as ->.
  { rewrite span_app by done. destruct Hclose as [-> | ->]; simpl; lia. }
  rewrite <- drop_drop.
  change (drop 16 (REL_STYLESHEET ++ ws ++ close ++ rest)) with (ws ++ close ++ rest).
  rewrite drop_app_length' by done.
  destruct Hclose as [-> | ->]; simpl; by eexists.
Qed.

Lemma first_anchor_intro (pre mid ws close rest : text) :
  forallb is_space ws = true ->
  close = [62%N] \/ close = [47%N; 62%N] ->
  first_anchor (pre ++ MATERIAL ++ mid ++ REL_STYLESHEET ++ ws ++ close ++ rest) <> None.
Proof.
  intros Hws Hclose Hnone.
  destruct (closed_tag_here_intro ws close rest Hws Hclose) as [g Hg].
  pose proof (proj1 (first_anchor_none _) Hnone (length pre)
                (length pre + 25 + length mid)) as H.
  rewrite <- !drop_drop in H. rewrite drop_app_length' in H by done.
  rewrite starts_with_app in H.
  change (drop 25 (MATERIAL ++ ?t)) with t in H.
  rewrite drop_app_length' in H by done.
  rewrite H in Hg; [done | done | lia].
Qed.

Lemma first_anchor_needs (c : text) :
  contains MATERIAL c = false \/ contains REL_STYLESHEET c = false ->
  first_anchor c = None.
Proof.
  intros Hmiss. apply first_anchor_none. intros i j Hi Hij.
  destruct Hmiss as [Hm | Hr].
  - assert (contains MATERIAL c = true) by (apply contains_offset; by exists i).
    congruence.
  - destruct (closed_tag_here (drop j c)) as [g|] eqn:Hg; [| done].
    unfold closed_tag_here in Hg.
    destruct (starts_with REL_STYLESHEET (drop j c)) eqn:Hs; [| done].
    assert (contains REL_STYLESHEET c = true) by (apply contains_offset; by exists j).
    congruence.
Qed.

Lemma filter_all_false {A} (f : A -> bool) (l : list A) :
  (forall x, In x l -> f x = false) -> List.filter f l = [].
Proof.
  induction l as [|x l IH]; [done |]. intros Hf. simpl.
  rewrite (Hf x) by by left. apply IH. intros y Hy. apply Hf. by right.
Qed.
End Acceptance.

(* ===================================================================== *)
(** ** Further properties of the two scripts                              *)
(* ===================================================================== *)

Section InjectorCallProperties.
Import Injector.

(** X1. A call on a path that cannot be opened or read prints the error
    line only and returns the error result; no file changes. *)
Theorem X1_update_unreadable_is_error (w : world) (path : string) :
  unreadable (files w) path = true ->
  update_html_file path w =
    (World (tree w) (files w) (stdout w ++ [ErrorMsg]), Some error).
Proof. intros H. apply update_unreadable. by apply unreadable_cases. Qed.

Lemma X1_witness :
  update_html_file "missing.html" (one_file "a.html" page_b) =
    (World (tree (one_file "a.html" page_b)) (files (one_file "a.html" page_b))
           (stdout (one_file "a.html" page_b) ++ [ErrorMsg]), Some error).
Proof.
  apply (X1_update_unreadable_is_error (one_file "a.html" page_b) "missing.html").
  reflexivity.
Defined.

(** X2. When the file cannot be written, a call that has something to
    insert prints the lines of its insertions, then the error line, and
    returns the error result; the file keeps its text. *)
Theorem X2_update_read_only_is_error (w : world) (path : string) (f : file) (c : text) :
  files w !! path = Some f -> content f = Some c -> writable f = false ->
  contains THEME_RESOURCES_PATTERN c = false ->
  head_found c || body_found (head_text c) = true ->
  update_html_file path w =
    (World (tree w) (files w)
           (stdout w ++ Procesando (relative_path path) ::
              (if head_found c then [CssAgregado] else []) ++
              (if body_found (head_text c) then [JsAgregado] else []) ++ [ErrorMsg]),
     Some error).
Proof.
  intros Hf Hc Hw Hr Hm. rewrite (update_run w path f c Hf Hc), Hr.
  unfold modified. rewrite Hm, Hw. unfold say, step_lines. by rewrite <- app_assoc.
Qed.

Lemma X2_witness :
  update_html_file "b.html" (read_only_file "b.html" page_b) =
    (World (tree (read_only_file "b.html" page_b)) (files (read_only_file "b.html" page_b))
           (stdout (read_only_file "b.html" page_b) ++
              Procesando (relative_path "b.html") ::
              (if head_found page_b then [CssAgregado] else []) ++
              (if body_found (head_text page_b) then [JsAgregado] else []) ++ [ErrorMsg]),
     Some error).
Proof.
  apply (X2_update_read_only_is_error (read_only_file "b.html" page_b)
           "b.html" (File (Some page_b) false) page_b); reflexivity.
Defined.

(** X3. A file without the resource marker and without the head anchor,
    in which the script marker is present or no adjacency is found, is
    reported as one that could not be modified: the call prints the
    processing line and that line, returns skipped and writes nothing,
    whether the file is writable or not. *)
Theorem X3_update_no_structure (w : world) (path : string) (f : file) (c : text) :
  files w !! path = Some f -> content f = Some c ->
  contains THEME_RESOURCES_PATTERN c = false ->
  first_anchor c = None ->
  contains THEME_SCRIPT_PATTERN c = true \/ first_adjacency c = None ->
  update_html_file path w =
    (World (tree w) (files w)
           (stdout w ++ [Procesando (relative_path path); NoSePudoModificar]),
     Some skipped).
Proof.
  intros Hf Hc Hr Ha Hb. rewrite (update_run w path f c Hf Hc), Hr.
  assert (modified c = false) as Hm.
  { unfold modified, head_found, head_text, body_found. rewrite Ha. simpl.
    destruct Hb as [-> | ->]; [done | by rewrite andb_false_r]. }
  rewrite Hm. by destruct (modified_false c Hm) as [_ ->].
Qed.

Lemma X3_witness :
  update_html_file "a.html" (one_file "a.html" (lit "<html></html>")) =
    (World (tree (one_file "a.html" (lit "<html></html>")))
           (files (one_file "a.html" (lit "<html></html>")))
           (stdout (one_file "a.html" (lit "<html></html>")) ++
              [Procesando (relative_path "a.html"); NoSePudoModificar]),
     Some skipped).
Proof.
  apply (X3_update_no_structure (one_file "a.html" (lit "<html></html>")) "a.html"
           (File (Some (lit "<html></html>")) true) (lit "<html></html>"));
    try reflexivity.
  right. reflexivity.
Defined.

(** X4. A call never raises: it always returns one of the three results.
    It keeps the listing of the tree, keeps what was printed before it,
    touches no file but the one at its path, and creates and removes no
    file. *)
Theorem X4_update_frame (w : world) (path : string) :
  exists w1 r lines,
    update_html_file path w = (w1, Some r) /\
    tree w1 = tree w /\
    stdout w1 = stdout w ++ lines /\
    (forall p, p <> path -> files w1 !! p = files w !! p) /\
    (forall p, files w1 !! p = None <-> files w !! p = None).
Proof. apply update_frame. Qed.

(** X5. The result is updated only when the file was written, and what
    is written then holds every character of the old text, in order,
    with the snippets added: the text grows by the length of each snippet
    inserted and loses nothing.  With any other result no file changes. *)
Theorem X5_update_only_adds (w : world) (path : string) (f : file) (c : text) :
  files w !! path = Some f -> content f = Some c ->
  ((update_html_file path w).2 = Some updated ->
     exists c',
       files (update_html_file path w).1 =
         <[path := File (Some c') true]> (files w) /\
       c `sublist_of` c' /\ length c < length c' /\
       length c' <= length c + length THEME_RESOURCES + 2 + length THEME_SCRIPT + 3) /\
  ((update_html_file path w).2 <> Some updated ->
     files (update_html_file path w).1 = files w).
Proof.
  intros Hf Hc. rewrite (update_run w path f c Hf Hc).
  destruct (contains THEME_RESOURCES_PATTERN c); [by split |].
  destruct (modified c) eqn:Hm; [| by split].
  destruct (writable f); [| by split].
  split; [| done]. intros _. exists (injected c). split_and!.
  - done.
  - apply injected_sublist.
  - rewrite injected_length. unfold modified in Hm.
    destruct (head_found c), (body_found (head_text c)); simpl in *; try done; lia.
  - rewrite injected_length.
    replace (length head_snippet) with (length THEME_RESOURCES + 2)
      by (unfold head_snippet; rewrite !length_app; simpl; lia).
    replace (length body_snippet) with (length THEME_SCRIPT + 3)
      by (unfold body_snippet; rewrite !length_app; simpl; lia).
    destruct (head_found c), (body_found (head_text c)); lia.
Qed.

Lemma X5_witness :
  ((update_html_file "b.html" (one_file "b.html" page_b)).2 = Some updated ->
     exists c',
       files (update_html_file "b.html" (one_file "b.html" page_b)).1 =
         <["b.html" := File (Some c') true]> (files (one_file "b.html" page_b)) /\
       page_b `sublist_of` c' /\ length page_b < length c' /\
       length c' <= length page_b + length THEME_RESOURCES + 2 + length THEME_SCRIPT + 3) /\
  ((update_html_file "b.html" (one_file "b.html" page_b)).2 <> Some updated ->
     files (update_html_file "b.html" (one_file "b.html" page_b)).1 =
       files (one_file "b.html" page_b)).
Proof.
  apply (X5_update_only_adds (one_file "b.html" page_b) "b.html"
           (File (Some page_b) true) page_b); reflexivity.
Defined.
End InjectorCallProperties.

Section InjectorRunProperties.
Import Injector.

(** X6. The search never raises and changes no file.  It returns, in the
    order of the walk, exactly the paths root\name of the listed names
    that end in .html and whose file can be read and has the CDN
    reference in its text; for each listed .html file that cannot be
    read it prints one line and goes on with the next. *)
Theorem X6_find_readable_cdn_files (base : string) (w : world) :
  exists html_files,
    find_html_files_with_tailwind base w =
      (World (tree w) (files w)
             (stdout w ++ map ErrorLeyendo
                (List.filter (unreadable (files w)) (html_paths (tree w base)))),
       Some html_files) /\
    html_files `sublist_of` html_paths (tree w base) /\
    forall path,
      In path html_files <->
      (exists root dirs names name,
          In (root, dirs, names) (tree w base) /\ In name names /\
          endswith name ".html" = true /\ path = path_join root name) /\
      (exists f c, files w !! path = Some f /\ content f = Some c /\
                   contains (lit "cdn.tailwindcss.com") c = true).
Proof.
  eexists. split_and!; [apply find_run | apply filter_sublist_bool |].
  intros path. by rewrite filter_In, html_paths_In, is_candidate_spec.
Qed.

(** X7. A run never raises.  It prints its header, the lines of its loop
    and its summary after what was printed before, and the three
    counters of the summary add up to the number of files found. *)
Theorem X7_main_counts_every_candidate (w : world) :
  exists w' lines u s e,
    main w = (w', Some tt) /\
    stdout w' = stdout w ++ main_header w ++ lines ++ main_summary (u, s, e) /\
    u + s + e = length (candidates w).
Proof.
  destruct (tally_counts (candidates w) (0, 0, 0) (say w (main_header w)))
    as (w' & lines & [[u s] e] & Hrun & Hout & Htot).
  exists (say w' (main_summary (u, s, e))), lines, u, s, e. split_and!.
  - by apply main_run.
  - cbn [say stdout] in *. rewrite Hout. by rewrite <- !app_assoc.
  - simpl in Htot. lia.
Qed.

(** X8. A run keeps the listing of the tree, creates and removes no
    file, leaves every file outside its candidate list as it was, and
    removes no character from any file: a text that could be read before
    the run can be read after it and holds the old text in order. *)
Theorem X8_main_frame (w : world) :
  tree (main w).1 = tree w /\
  (forall p, files (main w).1 !! p = None <-> files w !! p = None) /\
  (forall p, ~ In p (candidates w) -> files (main w).1 !! p = files w !! p) /\
  (forall p f c, files w !! p = Some f -> content f = Some c ->
     exists f' c', files (main w).1 !! p = Some f' /\ content f' = Some c' /\
                   c `sublist_of` c').
Proof.
  apply (main_invariant (fun w0 =>
    tree w0 = tree w /\
    (forall p, files w0 !! p = None <-> files w !! p = None) /\
    (forall p, ~ In p (candidates w) -> files w0 !! p = files w !! p) /\
    (forall p f c, files w !! p = Some f -> content f = Some c ->
       exists f' c', files w0 !! p = Some f' /\ content f' = Some c' /\
                     c `sublist_of` c'))).
  - intros p0 w0 Hp0 (Ht & Hdom & Hout & Hgrow).
    destruct (update_frame w0 p0) as (w1 & r & lines & Hu & Ht1 & _ & Hother & Hdom1).
    pose proof (update_grows w0 p0) as Hg. rewrite Hu in Hg |- *. cbn [fst] in *.
    split_and!.
    + congruence.
    + intros p. by rewrite Hdom1.
    + intros p Hp. rewrite Hother; [by apply Hout |]. by intros ->.
    + intros p f c Hf Hc. destruct (Hgrow p f c Hf Hc) as (f' & c' & Hf' & Hc' & Hsub).
      destruct (decide (p = p0)) as [-> | Hne].
      * destruct (Hg f' c' Hf' Hc') as (f'' & c'' & Hf'' & Hc'' & Hsub').
        exists f'', c''. split_and!; [done | done |]. by etransitivity.
      * exists f', c'. by rewrite Hother.
  - intros w0 lines H. exact H.
  - split_and!; [done | done | done |]. intros p f c Hf Hc. by exists f, c.
Qed.

(** X9. A second run updates nothing: it never raises, writes no file,
    and its summary has the counter of updated files at zero, with the
    other two adding up to the number of files found. *)
Theorem X9_second_run_updates_nothing (w : world) :
  exists w2 lines s e,
    main (main w).1 = (w2, Some tt) /\
    files w2 = files (main w).1 /\
    stdout w2 = stdout (main w).1 ++ main_header (main w).1 ++ lines
                  ++ main_summary (0, s, e) /\
    s + e = length (candidates (main w).1).
Proof.
  destruct (tally_settles (candidates w) (0, 0, 0) (say w (main_header w)))
    as (w' & cnt & Hrun & Ht & Hin & _ & Hout).
  rewrite (main_run w w' cnt Hrun). cbn [fst].
  set (w1 := say w' (main_summary cnt)).
  assert (forall p, In p (candidates w1) -> settled (files w1 !! p) = true) as Hset.
  { intros p Hp. cbn [w1 files say].
    destruct (in_dec string_dec p (candidates w)) as [Hc | Hc]; [by apply Hin |].
    exfalso. apply Hc. unfold candidates in Hp |- *.
    cbn [w1 tree files say] in Hp. rewrite Ht in Hp. cbn [tree say] in Hp.
    apply filter_In in Hp as [Hp1 Hp2]. apply filter_In. split; [done |].
    unfold is_candidate in *. rewrite Hout in Hp2; [done |].
    intros Hin'. apply Hc. unfold candidates. by apply filter_In. }
  destruct (tally_settled (candidates w1) 0 0 0 (say w1 (main_header w1)) Hset)
    as (w2 & lines & s & e & Hrun2 & Hf2 & Hout2 & Htot).
  exists (say w2 (main_summary (0, s, e))), lines, s, e. split_and!.
  - by apply main_run.
  - done.
  - cbn [say stdout] in *. rewrite Hout2. by rewrite <- !app_assoc.
  - lia.
Qed.
End InjectorRunProperties.

Section FixerProperties.
Import Fixer.

(** X10. A call of the fixer on a path that cannot be opened or read
    prints the error line only and returns False; no file changes. *)
Theorem X10_fix_unreadable_is_false (w : world) (path : string) :
  unreadable (files w) path = true ->
  fix_theme_resources_format path w =
    (World (tree w) (files w) (stdout w ++ [ErrorMsg]), Some false).
Proof. apply fix_unreadable. Qed.

Lemma X10_witness :
  fix_theme_resources_format "missing.html" (one_file "a.html" unix_adjacency) =
    (World (tree (one_file "a.html" unix_adjacency))
           (files (one_file "a.html" unix_adjacency))
           (stdout (one_file "a.html" unix_adjacency) ++ [ErrorMsg]), Some false).
Proof.
  apply (X10_fix_unreadable_is_false (one_file "a.html" unix_adjacency) "missing.html").
  reflexivity.
Defined.

(** X11. When the file has one of the two adjacencies and cannot be
    written, the call announces the repair, prints the error line and
    returns False; the file keeps its text. *)
Theorem X11_fix_read_only_is_false (w : world) (path : string) (f : file) (c : text) :
  files w !! path = Some f -> content f = Some c -> writable f = false ->
  contains unix_adjacency c = true \/ contains windows_adjacency c = true ->
  fix_theme_resources_format path w =
    (World (tree w) (files w)
           (stdout w ++ [Arreglando (relative_path path); ErrorMsg]),
     Some false).
Proof.
  intros Hf Hc Hw Hadj. rewrite (fix_run w path f c Hf Hc), Hw.
  by destruct Hadj as [-> | ->]; [| rewrite andb_false_r].
Qed.

Lemma X11_witness :
  fix_theme_resources_format "a.html" (read_only_file "a.html" unix_adjacency) =
    (World (tree (read_only_file "a.html" unix_adjacency))
           (files (read_only_file "a.html" unix_adjacency))
           (stdout (read_only_file "a.html" unix_adjacency) ++
              [Arreglando (relative_path "a.html"); ErrorMsg]),
     Some false).
Proof.
  apply (X11_fix_read_only_is_false (read_only_file "a.html" unix_adjacency) "a.html"
           (File (Some unix_adjacency) false) unix_adjacency); try reflexivity.
  left. reflexivity.
Defined.

(** X12. Line endings are translated when the fixer reads.  A writable
    file whose stored text has the closing [div], a carriage return and
    a line feed (or a carriage return alone) and the script tag reads as
    a text with the Unix adjacency and without the Windows one: the
    first membership test of the code sees it, the second never can.
    The file is rewritten, and the text written has the closing [div],
    one line feed, four spaces and the script tag, and no carriage
    return at all. *)
Theorem X12_fix_stored_line_endings (w : world) (path : string) (f : file) (d : text) :
  files w !! path = Some f -> stored f = Some d -> writable f = true ->
  contains windows_adjacency d = true \/ contains mac_adjacency d = true ->
  exists c,
    content f = Some c /\
    contains unix_adjacency c = true /\
    contains windows_adjacency c = false /\
    fix_theme_resources_format path w =
      (World (tree w)
             (<[path := File (Some (sub no_flags format_re format_repl c)) true]> (files w))
             (stdout w ++ [Arreglando (relative_path path); FormatoCorregido]),
       Some true) /\
    contains fixed_form (sub no_flags format_re format_repl c) = true /\
    ~ In 13%N (sub no_flags format_re format_repl c).
Proof.
  intros Hf Hd Hw Hadj. exists (universal_newlines d).
  assert (content f = Some (universal_newlines d)) as Hc
    by (unfold content; by rewrite Hd).
  assert (contains unix_adjacency (universal_newlines d) = true) as Hunix
    by (apply adjacency_as_read; tauto).
  pose proof (content_no_cr f _ Hc) as Hcr.
  fold (reformat (universal_newlines d)). split_and!; [done | done | | | |].
  - by apply windows_adjacency_never.
  - by rewrite (fix_run w path f _ Hf Hc), Hw, Hunix.
  - by apply reformat_fixes.
  - by apply reformat_no_cr.
Qed.

Lemma X12_witness :
  exists c,
    content (File (Some windows_adjacency) true) = Some c /\
    contains unix_adjacency c = true /\
    contains windows_adjacency c = false /\
    fix_theme_resources_format "a.html" (one_file "a.html" windows_adjacency) =
      (World (tree (one_file "a.html" windows_adjacency))
             (<["a.html" := File (Some (sub no_flags format_re format_repl c)) true]>
                (files (one_file "a.html" windows_adjacency)))
             (stdout (one_file "a.html" windows_adjacency) ++
                [Arreglando (relative_path "a.html"); FormatoCorregido]),
       Some true) /\
    contains fixed_form (sub no_flags format_re format_repl c) = true /\
    ~ In 13%N (sub no_flags format_re format_repl c).
Proof.
  apply (X12_fix_stored_line_endings (one_file "a.html" windows_adjacency) "a.html"
           (File (Some windows_adjacency) true) windows_adjacency); try reflexivity.
  left. reflexivity.
Defined.

(** X13. The fixer changes whitespace only: whatever the call does, the
    text of the file after it has the same characters other than
    whitespace, in the same order, as before. *)
Theorem X13_fix_changes_whitespace_only (w : world) (path : string) (f : file) (c : text) :
  files w !! path = Some f -> content f = Some c ->
  exists f' c',
    files (fix_theme_resources_format path w).1 !! path = Some f' /\
    content f' = Some c' /\
    List.filter (fun x => negb (is_space x)) c' =
    List.filter (fun x => negb (is_space x)) c.
Proof.
  intros Hf Hc. rewrite fix_call_lookup, decide_True by done.
  unfold fixed_file. destruct (needs_fix (files w) path); [| by exists f, c].
  rewrite Hf, Hc.
  exists (File (Some (reformat c)) true), (reformat c).
  split_and!; [done | | apply reformat_solid].
  apply content_written, reformat_no_cr, (content_no_cr f), Hc.
Qed.

Lemma X13_witness :
  exists f' c',
    files (fix_theme_resources_format "a.html" (one_file "a.html" two_occurrences)).1
      !! "a.html" = Some f' /\
    content f' = Some c' /\
    List.filter (fun x => negb (is_space x)) c' =
    List.filter (fun x => negb (is_space x)) two_occurrences.
Proof.
  apply (X13_fix_changes_whitespace_only (one_file "a.html" two_occurrences) "a.html"
           (File (Some two_occurrences) true) two_occurrences); reflexivity.
Defined.

(** X14. A call of the fixer never raises.  It keeps the listing of the
    tree and what was printed before it, touches no file but the one at
    its path, creates and removes no file, and returns True exactly when
    it has written the file, which it does when the file can be read and
    written and its text has one of the two tested adjacencies. *)
Theorem X14_fix_frame (w : world) (path : string) :
  exists w1 lines,
    fix_theme_resources_format path w = (w1, Some (needs_fix (files w) path)) /\
    tree w1 = tree w /\
    stdout w1 = stdout w ++ lines /\
    (forall p, p <> path -> files w1 !! p = files w !! p) /\
    (forall p, files w1 !! p = None <-> files w !! p = None) /\
    (needs_fix (files w) path = false -> files w1 = files w).
Proof.
  pose proof (fix_call_lookup w path) as Hlook.
  destruct (fix_call w path) as [lines Hcall]. rewrite Hcall in Hlook |- *.
  cbn [fst] in Hlook. eexists _, lines. split_and!; [done | done | done | | |].
  - intros p Hp. rewrite Hlook. by rewrite decide_False.
  - intros p. rewrite Hlook. destruct (decide (p = path)) as [-> | Hne]; [| done].
    unfold fixed_file, needs_fix.
    destruct (files w !! path) as [f|]; [| done].
    destruct (content f) as [c|]; [| done].
    by destruct (writable f && _).
  - by intros ->.
Qed.

(** X15. The fixer's [main] never raises.  When the HTML paths of the
    walk are distinct, it prints its header, the lines of its calls and
    its footer, and the number in the footer is the number of listed
    HTML files that needed the repair and could be written; each of
    those holds the substituted text afterwards, and every other file,
    listed or not, is as it was. *)
Theorem X15_fixer_main (w : world) :
  List.NoDup (html_paths (tree w PROJECT_PATH)) ->
  exists w' lines,
    main w = (w', Some tt) /\
    tree w' = tree w /\
    stdout w' =
      stdout w ++ [Regla; TituloArreglar; ReglaNl] ++ lines ++
      [NlRegla;
       Corregidos (length (List.filter (needs_fix (files w))
                             (html_paths (tree w PROJECT_PATH))));
       Regla] /\
    (forall p f c,
        In p (html_paths (tree w PROJECT_PATH)) ->
        needs_fix (files w) p = true ->
        files w !! p = Some f -> content f = Some c ->
        files w' !! p =
          Some (File (Some (sub no_flags format_re format_repl c)) true)) /\
    (forall p,
        ~ In p (html_paths (tree w PROJECT_PATH)) \/ needs_fix (files w) p = false ->
        files w' !! p = files w !! p).
Proof.
  intros Hnd.
  destruct (fix_each_run _ 0 (say w [Regla; TituloArreglar; ReglaNl]) Hnd)
    as (w' & lines & Hrun & Ht & Hout & Hin & Hnin).
  cbn [say files tree stdout] in *.
  exists (say w' [NlRegla;
                  Corregidos (length (List.filter (needs_fix (files w))
                                        (html_paths (tree w PROJECT_PATH))));
                  Regla]), lines.
  split_and!.
  - by apply fixer_main_run.
  - done.
  - cbn [say stdout]. rewrite Hout. by rewrite <- !app_assoc.
  - intros p f c Hp Hn Hf Hc. cbn [say files]. rewrite (Hin p Hp).
    unfold fixed_file. by rewrite Hn, Hf, Hc.
  - intros p [Hp | Hn]; cbn [say files]; [by apply Hnin |].
    destruct (in_dec string_dec p (html_paths (tree w PROJECT_PATH))) as [Hp | Hp];
      [| by apply Hnin].
    rewrite (Hin p Hp). unfold fixed_file. by rewrite Hn.
Qed.

Lemma X15_witness :
  exists w' lines,
    main (two_pages unix_adjacency page_a) = (w', Some tt) /\
    tree w' = tree (two_pages unix_adjacency page_a) /\
    stdout w' =
      stdout (two_pages unix_adjacency page_a) ++
      [Regla; TituloArreglar; ReglaNl] ++ lines ++
      [NlRegla;
       Corregidos (length (List.filter (needs_fix (files (two_pages unix_adjacency page_a)))
                             (html_paths (tree (two_pages unix_adjacency page_a)
                                            PROJECT_PATH))));
       Regla] /\
    (forall p f c,
        In p (html_paths (tree (two_pages unix_adjacency page_a) PROJECT_PATH)) ->
        needs_fix (files (two_pages unix_adjacency page_a)) p = true ->
        files (two_pages unix_adjacency page_a) !! p = Some f -> content f = Some c ->
        files w' !! p =
          Some (File (Some (sub no_flags format_re format_repl c)) true)) /\
    (forall p,
        ~ In p (html_paths (tree (two_pages unix_adjacency page_a) PROJECT_PATH)) \/
        needs_fix (files (two_pages unix_adjacency page_a)) p = false ->
        files w' !! p = files (two_pages unix_adjacency page_a) !! p).
Proof.
  apply (X15_fixer_main (two_pages unix_adjacency page_a)).
  vm_compute. repeat constructor; simpl; intuition discriminate.
Defined.
End FixerProperties.

Section CompositionProperties.
Import Injector.

(** X16. The injector leaves the adjacency the fixer looks for.  When the
    whitespace after the head anchor is followed by a script tag, the
    text a call of [update_html_file] writes has the closing [div] of
    the resource fragment, a newline and the unindented script tag; a
    call of the fixer on that file then returns True, and the text it
    writes has the four-space form. *)
Theorem X16_injector_output_needs_fixer
        (w : world) (path : string) (f : file) (c : text) (i g : nat) :
  files w !! path = Some f -> content f = Some c -> writable f = true ->
  contains THEME_RESOURCES_PATTERN c = false ->
  first_anchor c = Some (i, g) ->
  starts_with (lit "<script") (drop (after_spaces g c) c) = true ->
  exists c',
    (update_html_file path w).2 = Some updated /\
    files (update_html_file path w).1 !! path = Some (File (Some c') true) /\
    contains Fixer.unix_adjacency c' = true /\
    (Fixer.fix_theme_resources_format path (update_html_file path w).1).2 = Some true /\
    files (Fixer.fix_theme_resources_format path (update_html_file path w).1).1 !! path =
      Some (File (Some (sub no_flags Fixer.format_re Fixer.format_repl c')) true) /\
    contains fixed_form (sub no_flags Fixer.format_re Fixer.format_repl c') = true.
Proof.
  intros Hf Hc Hw Hr Ha Hs. exists (injected c).
  pose proof (injected_adjacency c i g Ha Hs) as Hadj.
  rewrite (update_run w path f c Hf Hc), Hr, Hw.
  assert (modified c = true) as -> by (unfold modified, head_found; by rewrite Ha).
  cbn [fst snd say store files].
  assert (<[path := File (Some (injected c)) true]> (files w) !! path =
          Some (File (Some (injected c)) true)) as Hlook by apply lookup_insert_eq.
  match goal with |- context [Fixer.fix_theme_resources_format path ?w1] =>
    rewrite (fix_run w1 path _ (injected c) Hlook
               (content_written _ _ (injected_no_cr c (content_no_cr f c Hc)))) end.
  rewrite Hadj. cbn [negb andb writable fst snd files].
  split_and!; [done | done | done | done | apply lookup_insert_eq |].
  by apply reformat_fixes.
Qed.

Lemma X16_witness :
  exists c',
    (update_html_file "e.html" (one_file "e.html" page_e)).2 = Some updated /\
    files (update_html_file "e.html" (one_file "e.html" page_e)).1 !! "e.html" =
      Some (File (Some c') true) /\
    contains Fixer.unix_adjacency c' = true /\
    (Fixer.fix_theme_resources_format "e.html"
       (update_html_file "e.html" (one_file "e.html" page_e)).1).2 = Some true /\
    files (Fixer.fix_theme_resources_format "e.html"
             (update_html_file "e.html" (one_file "e.html" page_e)).1).1 !! "e.html" =
      Some (File (Some (sub no_flags Fixer.format_re Fixer.format_repl c')) true) /\
    contains fixed_form (sub no_flags Fixer.format_re Fixer.format_repl c') = true.
Proof.
  apply (X16_injector_output_needs_fixer (one_file "e.html" page_e) "e.html"
           (File (Some page_e) true) page_e 65 110); reflexivity.
Defined.

(** X17. The path the scripts print for a file under the root is the
    path with the root and its separator cut off, when what is left is
    shorter than the root with its separator. *)
Theorem X17_relative_path_under_root (rest : string) :
  String.length rest <= String.length PROJECT_PATH ->
  replace (path_join PROJECT_PATH rest) (String.append PROJECT_PATH "\") "" = rest.
Proof.
  intros Hlen. unfold path_join.
  rewrite <- append_assoc.
  destruct (String.append PROJECT_PATH "\") as [|x old] eqn:Hroot;
    [by apply (f_equal String.length) in Hroot |].
  apply replace_prefix. rewrite <- Hroot, append_length.
  change (String.length "\") with 1. lia.
Qed.

Lemma X17_witness :
  replace (path_join PROJECT_PATH "admin\index.html") (String.append PROJECT_PATH "\") ""
  = "admin\index.html".
Proof.
  apply (X17_relative_path_under_root "admin\index.html"). vm_compute. lia.
Defined.

(** X18. A writable file with neither marker, without the head anchor
    and with an adjacency gets the script fragment only: the call prints
    the processing line, the line of the script insertion and the line
    of the save, writes the text with the fragment, a newline and two
    spaces spliced in before the body tag, and returns updated.  The
    text written has the script marker at one offset and still no
    resource marker. *)
Theorem X18_update_script_only
        (w : world) (path : string) (f : file) (c : text) (q p : nat) :
  files w !! path = Some f -> content f = Some c -> writable f = true ->
  contains THEME_RESOURCES_PATTERN c = false ->
  contains THEME_SCRIPT_PATTERN c = false ->
  first_anchor c = None -> first_adjacency c = Some (q, p) ->
  update_html_file path w =
    (World (tree w)
           (<[path := File (Some (take p c ++ THEME_SCRIPT ++ nl ++ lit "  " ++ drop p c))
                           true]> (files w))
           (stdout w ++ [Procesando (relative_path path); JsAgregado; ArchivoGuardado]),
     Some updated) /\
  occurrences THEME_SCRIPT_PATTERN
    (take p c ++ THEME_SCRIPT ++ nl ++ lit "  " ++ drop p c) = 1 /\
  contains THEME_RESOURCES_PATTERN
    (take p c ++ THEME_SCRIPT ++ nl ++ lit "  " ++ drop p c) = false.
Proof.
  intros Hf Hc Hw Hr Hs Ha Hb.
  assert (head_text c = c) as Hh by (unfold head_text; by rewrite Ha).
  assert (injected c = take p c ++ THEME_SCRIPT ++ nl ++ lit "  " ++ drop p c) as Hinj.
  { unfold injected. rewrite Hh, (body_text_some c q p Hs Hb).
    unfold splice, body_snippet. by rewrite <- !app_assoc. }
  assert (body_found c = true) as Hbf by (unfold body_found; by rewrite Hs, Hb).
  destruct markers_plain as (_ & _ & _ & _ & Hp1 & Hp2 & Hp3 & Hp4).
  split_and!.
  - rewrite (update_run w path f c Hf Hc), Hr, Hw. unfold modified, step_lines, head_found.
    rewrite Ha, Hh, Hbf, Hinj. reflexivity.
  - rewrite <- Hinj. unfold injected. rewrite Hh.
    rewrite (body_text_count _ c q p Hs Hb Hp1 Hp2 Hp3 Hp4).
    apply occurrences_zero in Hs. rewrite Hs.
    by destruct marker_counts as (_ & _ & _ & ->).
  - rewrite <- Hinj. by apply injected_without_anchor.
Qed.

Lemma X18_witness :
  update_html_file "d.html" (one_file "d.html" page_d) =
    (World (tree (one_file "d.html" page_d))
           (<["d.html" := File (Some (take 93 page_d ++ THEME_SCRIPT ++ nl ++ lit "  "
                                        ++ drop 93 page_d)) true]>
              (files (one_file "d.html" page_d)))
           (stdout (one_file "d.html" page_d) ++
              [Procesando (relative_path "d.html"); JsAgregado; ArchivoGuardado]),
     Some updated) /\
  occurrences THEME_SCRIPT_PATTERN
    (take 93 page_d ++ THEME_SCRIPT ++ nl ++ lit "  " ++ drop 93 page_d) = 1 /\
  contains THEME_RESOURCES_PATTERN
    (take 93 page_d ++ THEME_SCRIPT ++ nl ++ lit "  " ++ drop 93 page_d) = false.
Proof.
  apply (X18_update_script_only (one_file "d.html" page_d) "d.html"
           (File (Some page_d) true) page_d 84 93); reflexivity.
Defined.
End CompositionProperties.

Section PartialInsertions.
Import Injector.

(** X19. A writable file with neither marker that has the head anchor
    and no adjacency gets the CSS fragment only: the call prints the
    processing line, the line of the CSS insertion and the line of the
    save, writes the text with a newline, the fragment and a newline
    spliced in after the whitespace that follows the anchor, and returns
    updated.  The text written has the resource marker and no script
    marker, so a later call skips the file as already themed and the
    script fragment is never added. *)
Theorem X19_update_css_only
        (w : world) (path : string) (f : file) (c : text) (i g : nat) :
  files w !! path = Some f -> content f = Some c -> writable f = true ->
  contains THEME_RESOURCES_PATTERN c = false ->
  contains THEME_SCRIPT_PATTERN c = false ->
  first_anchor c = Some (i, g) -> first_adjacency c = None ->
  let c' := take (after_spaces g c) c ++ nl ++ THEME_RESOURCES ++ nl
              ++ drop (after_spaces g c) c in
  update_html_file path w =
    (World (tree w) (<[path := File (Some c') true]> (files w))
           (stdout w ++ [Procesando (relative_path path); CssAgregado; ArchivoGuardado]),
     Some updated) /\
  contains THEME_RESOURCES_PATTERN c' = true /\
  contains THEME_SCRIPT_PATTERN c' = false /\
  update_html_file path (update_html_file path w).1 =
    (World (tree w) (<[path := File (Some c') true]> (files w))
           (stdout w ++ [Procesando (relative_path path); CssAgregado; ArchivoGuardado;
                         Omitido (relative_path path)]),
     Some skipped).
Proof.
  intros Hf Hc Hw Hr Hs Ha Hb c'.
  assert (head_text c = c') as Hh.
  { destruct (head_text_some c i g Ha) as [-> _].
    unfold splice, head_snippet, c'. by rewrite <- !app_assoc. }
  assert (body_found (head_text c) = false) as Hbf.
  { unfold body_found. rewrite (head_text_no_adjacency c Hb). apply andb_false_r. }
  assert (injected c = c') as Hinj.
  { unfold injected, body_text. rewrite (head_text_no_adjacency c Hb).
    by destruct (contains THEME_SCRIPT_PATTERN (head_text c)). }
  assert (contains THEME_RESOURCES_PATTERN c' = true) as Hr'.
  { rewrite <- Hinj. by apply (injected_has_marker c i g). }
  assert (update_html_file path w =
    (World (tree w) (<[path := File (Some c') true]> (files w))
           (stdout w ++ [Procesando (relative_path path); CssAgregado; ArchivoGuardado]),
     Some updated)) as Hrun.
  { rewrite (update_run w path f c Hf Hc), Hr, Hw.
    unfold modified, step_lines, head_found. rewrite Ha, Hbf, Hinj. reflexivity. }
  split_and!; [done | done | |].
  - rewrite <- Hh. by apply head_text_no_script_marker.
  - rewrite Hrun. cbn [fst].
    match goal with |- update_html_file path ?w1 = _ =>
      rewrite (update_run w1 path (File (Some c') true) c'
                 ltac:(apply lookup_insert_eq)
                 ltac:(rewrite <- Hinj;
                       apply content_written, injected_no_cr, (content_no_cr f), Hc))
    end.
    rewrite Hr'. unfold say. cbn [tree files stdout]. by rewrite <- app_assoc.
Qed.

Lemma X19_witness :
  let c' := take (after_spaces 110 page_f) page_f ++ nl ++ THEME_RESOURCES ++ nl
              ++ drop (after_spaces 110 page_f) page_f in
  update_html_file "f.html" (one_file "f.html" page_f) =
    (World (tree (one_file "f.html" page_f))
           (<["f.html" := File (Some c') true]> (files (one_file "f.html" page_f)))
           (stdout (one_file "f.html" page_f) ++
              [Procesando (relative_path "f.html"); CssAgregado; ArchivoGuardado]),
     Some updated) /\
  contains THEME_RESOURCES_PATTERN c' = true /\
  contains THEME_SCRIPT_PATTERN c' = false /\
  update_html_file "f.html" (update_html_file "f.html" (one_file "f.html" page_f)).1 =
    (World (tree (one_file "f.html" page_f))
           (<["f.html" := File (Some c') true]> (files (one_file "f.html" page_f)))
           (stdout (one_file "f.html" page_f) ++
              [Procesando (relative_path "f.html"); CssAgregado; ArchivoGuardado;
               Omitido (relative_path "f.html")]),
     Some skipped).
Proof.
  apply (X19_update_css_only (one_file "f.html" page_f) "f.html"
           (File (Some page_f) true) page_f 65 110); reflexivity.
Defined.
End PartialInsertions.

Section AnchorAcceptance.
Import Injector.

(** X20. Step 2 compares both tags without case.  When the text has no
    script marker and holds, anywhere, a closing script tag in any
    letter case, whitespace or nothing, and a closing body tag in any
    letter case, the step takes the leftmost such place, which starts at
    or before the given one, inserts the script fragment, a newline and
    two spaces just before the closing body tag of that place, and sets
    the flag. *)
Theorem X20_body_insertion_any_case
        (c pre x ws y rest : text) (m : bool) (w : world) :
  contains THEME_SCRIPT_PATTERN c = false ->
  c = pre ++ x ++ ws ++ y ++ rest ->
  like body_flags (lit "</script>") x = true ->
  forallb is_space ws = true ->
  like body_flags (lit "</body>") y = true ->
  exists pre' x' ws' y' rest',
    c = pre' ++ x' ++ ws' ++ y' ++ rest' /\
    length pre' <= length pre /\
    like body_flags (lit "</script>") x' = true /\
    forallb is_space ws' = true /\
    like body_flags (lit "</body>") y' = true /\
    body_insertion c m w =
      (World (tree w) (files w) (stdout w ++ [JsAgregado]),
       Some ((pre' ++ x' ++ ws') ++ THEME_SCRIPT ++ nl ++ lit "  " ++ y' ++ rest', true)).
Proof.
  intros Hs Hc Hx Hws Hy.
  assert (adjacency_here (drop (length pre) c) = Some (9 + length ws)) as Hadj
    by (rewrite Hc, drop_app_length; by apply adjacency_here_intro).
  destruct (first_adjacency_leftmost c (length pre) _
              ltac:(rewrite Hc, length_app; lia) Hadj)
    as (q & p & Hfirst & Hq & Hhere & Hqp).
  destruct (adjacency_here_parts _ _ Hhere) as (x' & ws' & y' & rest' & Ht & Hx' & Hws' & Hy' & Hk).
  pose proof (like_length _ _ _ Hx') as Lx. change (length (lit "</script>")) with 9 in Lx.
  assert (q <= length c) as Hqc by (rewrite Hc, length_app; lia).
  assert (c = take q c ++ x' ++ ws' ++ y' ++ rest') as Hc'
    by (rewrite <- Ht; by rewrite take_drop).
  assert (length (take q c) = q) as Lq by (rewrite length_take; lia).
  exists (take q c), x', ws', y', rest'.
  split_and!; [done | lia | done | done | done |].
  rewrite body_insertion_run. unfold body_found, body_text. rewrite Hs, Hfirst.
  unfold splice, body_snippet, say. cbn [negb andb orb].
  assert (p = length (take q c ++ x' ++ ws')) as Hp
    by (rewrite !length_app; lia).
  destruct (cut_at (take q c ++ x' ++ ws') (y' ++ rest') c p) as [-> ->];
    [by rewrite <- !app_assoc | done |].
  by rewrite <- !app_assoc.
Qed.

Lemma X20_witness :
  exists pre' x' ws' y' rest',
    page_caps = pre' ++ x' ++ ws' ++ y' ++ rest' /\
    length pre' <= length (lit "<BODY><SCRIPT>") /\
    like body_flags (lit "</script>") x' = true /\
    forallb is_space ws' = true /\
    like body_flags (lit "</body>") y' = true /\
    body_insertion page_caps false (one_file "a.html" page_caps) =
      (World (tree (one_file "a.html" page_caps)) (files (one_file "a.html" page_caps))
             (stdout (one_file "a.html" page_caps) ++ [JsAgregado]),
       Some ((pre' ++ x' ++ ws') ++ THEME_SCRIPT ++ nl ++ lit "  " ++ y' ++ rest', true)).
Proof.
  apply (X20_body_insertion_any_case page_caps (lit "<BODY><SCRIPT>") (lit "</SCRIPT>")
           nl (lit "</BODY>") [] false (one_file "a.html" page_caps)); reflexivity.
Defined.

(** X21. Step 1 finds its anchor whenever the icon-font name is followed,
    after any characters at all (other tags and line breaks included),
    by the attribute rel with the quoted value stylesheet, whitespace or
    nothing, and the end of a tag with or without a slash; it then
    inserts the CSS fragment between two newlines at some offset and
    sets the flag. *)
Theorem X21_head_insertion_accepts
        (c pre mid ws close rest : text) (m : bool) (w : world) :
  c = pre ++ lit "Material+Symbols+Outlined" ++ mid ++
      (lit "rel=" ++ dq ++ lit "stylesheet" ++ dq) ++ ws ++ close ++ rest ->
  forallb is_space ws = true ->
  close = lit ">" \/ close = lit "/>" ->
  exists a,
    a <= length c /\
    head_insertion c m w =
      (World (tree w) (files w) (stdout w ++ [CssAgregado]),
       Some (take a c ++ nl ++ THEME_RESOURCES ++ nl ++ drop a c, true)).
Proof.
  intros -> Hws Hclose.
  pose proof (first_anchor_intro pre mid ws close rest Hws Hclose) as Hfound.
  fold MATERIAL REL_STYLESHEET.
  destruct (first_anchor _) as [[i g]|] eqn:Ha; [| done].
  exists (after_spaces g (pre ++ MATERIAL ++ mid ++ REL_STYLESHEET ++ ws ++ close ++ rest)).
  split; [by destruct (head_text_some _ i g Ha) |].
  rewrite head_insertion_run. unfold head_found, head_text. rewrite Ha.
  unfold splice, head_snippet, say. cbn [orb]. by rewrite <- !app_assoc.
Qed.

Lemma X21_witness :
  exists a,
    a <= length page_f /\
    head_insertion page_f false (one_file "f.html" page_f) =
      (World (tree (one_file "f.html" page_f)) (files (one_file "f.html" page_f))
             (stdout (one_file "f.html" page_f) ++ [CssAgregado]),
       Some (take a page_f ++ nl ++ THEME_RESOURCES ++ nl ++ drop a page_f, true)).
Proof.
  apply (X21_head_insertion_accepts page_f
           (lit "<html><head><link href=" ++ dq ++
            lit "https://fonts.googleapis.com/css2?family=")
           (dq ++ lit " ") [] (lit "/>")
           (nl ++ lit "</head><body><p>hola</p></body></html>")
           false (one_file "f.html" page_f)).
  - reflexivity.
  - reflexivity.
  - right. reflexivity.
Defined.

(** X22. Step 1 does nothing on a text without the icon-font name, and
    nothing on a text without the attribute rel with the quoted value
    stylesheet: it returns the text and the flag as they were and prints
    nothing. *)
Theorem X22_head_insertion_needs (c : text) (m : bool) (w : world) :
  contains (lit "Material+Symbols+Outlined") c = false \/
  contains (lit "rel=" ++ dq ++ lit "stylesheet" ++ dq) c = false ->
  head_insertion c m w = (w, Some (c, m)).
Proof.
  intros Hmiss. rewrite head_insertion_run. unfold head_found, head_text.
  rewrite (first_anchor_needs c Hmiss). by rewrite say_nil.
Qed.

Lemma X22_witness :
  head_insertion page_a false (one_file "a.html" page_a) =
    (one_file "a.html" page_a, Some (page_a, false)).
Proof.
  apply (X22_head_insertion_needs page_a false (one_file "a.html" page_a)).
  left. reflexivity.
Defined.

(** X23. When every listed HTML file can be read and none has the CDN
    reference (in particular when none is listed), a run prints its
    header with the count zero and its summary with three zeros, and
    changes no file. *)
Theorem X23_main_nothing_found (w : world) :
  (forall p, In p (html_paths (tree w PROJECT_PATH)) ->
     exists f c, files w !! p = Some f /\ content f = Some c /\
                 contains (lit "cdn.tailwindcss.com") c = false) ->
  main w =
    (World (tree w) (files w)
           (stdout w ++
            [Regla; TituloTemas; SubtituloTemas; ReglaNl; Buscando; Encontrados 0;
             Regla; Resumen; Regla; Actualizados 0; Omitidos 0; Errores 0;
             Blank; Completado; TodasLasPaginas; CadaDashboard]),
     Some tt).
Proof.
  intros Hall.
  assert (candidates w = []) as Hcand.
  { apply filter_all_false. intros p Hp. destruct (Hall p Hp) as (f & c & Hf & Hc & Hcdn).
    by rewrite (is_candidate_true _ _ _ _ Hf Hc). }
  assert (main_header w =
          [Regla; TituloTemas; SubtituloTemas; ReglaNl; Buscando; Encontrados 0]) as Hhdr.
  { unfold main_header. rewrite Hcand, filter_all_false; [done |].
    intros p Hp. destruct (Hall p Hp) as (f & c & Hf & Hc & _).
    unfold unreadable. by rewrite Hf, Hc. }
  rewrite (main_run w (say w (main_header w)) (0, 0, 0)) by by rewrite Hcand.
  rewrite say_say, Hhdr. reflexivity.
Qed.

Lemma X23_witness :
  main (single_page page_a) =
    (World (tree (single_page page_a)) (files (single_page page_a))
           (stdout (single_page page_a) ++
            [Regla; TituloTemas; SubtituloTemas; ReglaNl; Buscando; Encontrados 0;
             Regla; Resumen; Regla; Actualizados 0; Omitidos 0; Errores 0;
             Blank; Completado; TodasLasPaginas; CadaDashboard]),
     Some tt).
Proof.
  apply (X23_main_nothing_found (single_page page_a)).
  intros p [<- | []]. exists (File (Some page_a) true), page_a.
  split_and!; reflexivity.
Defined.
End AnchorAcceptance.
